(** * PyCliBroker: a shallow embedding of [clibroker/clibroker.py]

    The broker serialises console requests of a session through a queue
    that one worker drains.  The embedding follows the Python module
    definition by definition: objects (sessions, futures, streams) live in
    a store and are referred to by identity, request bodies are programs of
    a state-and-exception monad over that store, and the streams are an
    interface (Python's duck-typed file objects) with the simulated streams
    of [test/test_clibroker.py] as one implementation.

    The model is sequential: it describes what one thread does between two
    points where it would wait for another thread.  A computation that
    reaches such a point stops with [Abort Blocked]. *)

From Stdlib Require Import ZArith QArith String Ascii DecimalString Lia.
From stdpp Require Import base option list gmap strings.

Local Open Scope string_scope.
Local Open Scope Z_scope.

(** ** Python values *)

(** Objects are referred to by identity. *)
Definition ref := nat.

(** Exceptions.  [KeyboardInterrupt] is the process-level interrupt;
    the two invalid-state errors are different classes:
    [InvalidStateError] is the broker's own (clibroker.py, line 17),
    [FutureInvalidStateError] is the one [concurrent.futures] raises
    when a settled future is settled again. *)
Inductive exn : Type :=
  | KeyboardInterrupt
  | InvalidStateError (msg : string)
  | FutureInvalidStateError
  | AssertionError
  | AttributeError (msg : string)
  | ValueError (msg : string)
  | OSError (msg : string).

Definition is_KeyboardInterrupt (e : exn) : bool :=
  match e with KeyboardInterrupt => true | _ => false end.

(** The values a promise can carry. *)
Inductive value : Type :=
  | VNone
  | VInt (z : Z)
  | VStr (s : string)
  | VSession (r : ref).

(** The data a caller passes to [write]: the values whose [str] form the
    model spells out. *)
Inductive datum : Type :=
  | DNone
  | DBool (b : bool)
  | DInt (z : Z)
  | DStr (s : string).

(** Python's [str(dat)]. *)
Definition str (d : datum) : string :=
  match d with
  | DNone => "None"
  | DBool true => "True"
  | DBool false => "False"
  | DInt z => NilZero.string_of_int (Z.to_int z)
  | DStr s => s
  end.

(** The newline character ['\n']. *)
Definition nl_char : ascii := ascii_of_nat 10.
Definition nl : string := String nl_char EmptyString.

(** ** String slicing *)

Fixpoint str_take (n : nat) (s : string) : string :=
  match n, s with
  | S n', String c s' => String c (str_take n' s')
  | _, _ => EmptyString
  end.

Fixpoint str_drop (n : nat) (s : string) : string :=
  match n, s with
  | S n', String _ s' => str_drop n' s'
  | _, _ => s
  end.

(** Where a slice bound [n] falls in a string of length [len]: Python
    counts a negative bound from the end and clips both ways. *)
Definition slice_bound (len : nat) (n : Z) : nat :=
  if n <? 0 then Z.to_nat (Z.max 0 (Z.of_nat len + n)) else Z.to_nat n.

(** [s[:n]] and [s[n:]]. *)
Definition slice_to (s : string) (n : Z) : string :=
  str_take (slice_bound (String.length s) n) s.

Definition slice_from (s : string) (n : Z) : string :=
  str_drop (slice_bound (String.length s) n) s.

(** [s.index('\n')]: the position of the first newline, or nothing where
    Python raises [ValueError]. *)
Fixpoint index_nl (s : string) : option nat :=
  match s with
  | EmptyString => None
  | String c s' => if Ascii.eqb c nl_char then Some 0%nat else S <$> index_nl s'
  end.

(** A string has a newline when it splits around one. *)
Definition has_nl (s : string) : Prop := exists a b, s = a +:+ nl +:+ b.

(** [buildmsg] (clibroker.py, line 242): [sep.join(str(dat) for dat in data)]. *)
Definition buildmsg (data : list datum) (sep : string) : string :=
  String.concat sep (map str data).

(** ** Outcomes *)

(** Why a computation of the sequential model stops without returning or
    raising: the thread waits for another thread ([Blocked]), the store has
    no object at a reference ([Dangling], which no Python program reaches),
    or a loop of the model ran out of its step budget ([OutOfFuel]). *)
Inductive abort : Type := Blocked | Dangling | OutOfFuel.

Inductive outcome (A : Type) : Type :=
  | Ok (a : A)
  | Raise (e : exn)
  | Abort (why : abort).
Arguments Ok {A} a.
Arguments Raise {A} e.
Arguments Abort {A} why.

(** ** Futures, requests, sessions *)

(** A [concurrent.futures.Future]: settled at most once. *)
Inductive Future : Type :=
  | Pending
  | Resolved (v : value)
  | Rejected (e : exn).

(** The request classes (clibroker.py, lines 113 to 217).  Every request
    carries the future that [BaseRequest.__init__] creates. *)
Inductive Request : Type :=
  | ReadRequest (cfuture : ref) (n : Z)
  | ReadAllRequest (cfuture : ref)
  | ReadlineRequest (cfuture : ref)
  | PasswordRequest (cfuture : ref) (prompt : string)
  | WriteRequest (cfuture : ref) (msg : string) (autoflush : bool) (err : bool)
  | FlushRequest (cfuture : ref) (flush_stdout flush_stderr : bool)
  | SessionRequest (cfuture : ref) (subsession : ref).

Definition cfuture (req : Request) : ref :=
  match req with
  | ReadRequest f _ | ReadAllRequest f | ReadlineRequest f
  | PasswordRequest f _ | WriteRequest f _ _ _ | FlushRequest f _ _
  | SessionRequest f _ => f
  end.

(** [RequestQueue.queue]; the condition variable belongs to the threads. *)
Definition RequestQueue : Type := list Request.

(** The attributes [Session.__init__] sets.  [_thread] records whether a
    worker thread object is installed, [_finish_event] whether the event is
    set. *)
Record Session : Type := mkSession {
  parent : option ref;
  buffer : string;
  pending : RequestQueue;
  subsession : option ref;
  _thread : bool;
  _finish_event : bool;
  autoflush : bool;
  stdout : ref;
  stderr : ref;
  stdin : ref
}.

Definition set_buffer (b : string) (s : Session) : Session :=
  mkSession (parent s) b (pending s) (subsession s) (_thread s)
            (_finish_event s) (autoflush s) (stdout s) (stderr s) (stdin s).

Definition set_pending (q : RequestQueue) (s : Session) : Session :=
  mkSession (parent s) (buffer s) q (subsession s) (_thread s)
            (_finish_event s) (autoflush s) (stdout s) (stderr s) (stdin s).

Definition set_subsession (c : option ref) (s : Session) : Session :=
  mkSession (parent s) (buffer s) (pending s) c (_thread s)
            (_finish_event s) (autoflush s) (stdout s) (stderr s) (stdin s).

Definition set_thread (t : bool) (s : Session) : Session :=
  mkSession (parent s) (buffer s) (pending s) (subsession s) t
            (_finish_event s) (autoflush s) (stdout s) (stderr s) (stdin s).

Definition set_finish_event (e : bool) (s : Session) : Session :=
  mkSession (parent s) (buffer s) (pending s) (subsession s) (_thread s)
            e (autoflush s) (stdout s) (stderr s) (stdin s).

(** The stream a write request selects, [session.stderr] when [err] is
    set. *)
Definition selected (err : bool) (x : Session) : ref :=
  if err then stderr x else stdout x.

(** [x if x is not None else y] and [x if x else y] on an optional
    argument. *)
Definition or_else {A : Type} (x : option A) (y : A) : A :=
  match x with Some a => a | None => y end.

(** The object [Session.__init__] builds for a child of the session [x]
    at [s]. *)
Definition child_of (s : ref) (x : Session) (af : option bool)
    (out err inp : option ref) : Session :=
  mkSession (Some s) "" [] None false false
            (or_else af (autoflush x)) (or_else out (stdout x))
            (or_else err (stderr x)) (or_else inp (stdin x)).

(** ** Streams *)

(** What the broker asks of a stream object: [readline], [write], [flush],
    and the hidden-input capability [getpass(prompt, stream=...)].  Each
    call may return, raise, or wait; it leaves the object in a new state. *)
Class IO (St : Type) : Type := {
  io_readline : St -> outcome string * St;
  io_write : string -> St -> outcome value * St;
  io_flush : St -> outcome unit * St;
  io_getpass : string -> St -> outcome string * St
}.

(** The calls the broker makes on stream objects, in order. *)
Inductive event : Type :=
  | EvReadline (io : ref)
  | EvWrite (io : ref) (msg : string)
  | EvFlush (io : ref)
  | EvGetpass (io : ref) (prompt : string).

(** ** Helpers of [clibroker/utils.py] *)

(** Modelled from the spec: [utils.isempty] is imported by clibroker.py
    (line 13) and its source is missing; the spec reads
    [isempty(session.buffer)] as "the buffer is currently empty". *)
Definition isempty_str (s : string) : bool :=
  match s with EmptyString => true | String _ _ => false end.

(** Modelled from the spec: [utils.isempty] on the queue's list; the spec
    reads [not isempty(self.queue)] as "non-empty". *)
Definition isempty {A : Type} (l : list A) : bool :=
  match l with [] => true | _ :: _ => false end.

(** Modelled from the spec: [utils.shift] is missing as well; the spec has
    [pop] "return the earliest item", so [shift] takes the first element
    off the list and returns it. *)
Definition shift {A : Type} (l : list A) : option A * list A :=
  match l with [] => (None, []) | x :: l' => (Some x, l') end.

Section Model.

Context {St : Type} `{IO St}.

(** ** The store *)

(** The objects of a running program, the module globals [_session],
    [sys.stdout], [sys.stderr], [sys.stdin], and the stream calls made so
    far. *)
Record World : Type := mkWorld {
  sessions : gmap ref Session;
  futures : gmap ref Future;
  streams : gmap ref St;
  next_ref : ref;
  _session : ref;
  sys_stdout : ref;
  sys_stderr : ref;
  sys_stdin : ref;
  log : list event
}.

Definition with_sessions (m : gmap ref Session) (w : World) : World :=
  mkWorld m (futures w) (streams w) (next_ref w) (_session w)
          (sys_stdout w) (sys_stderr w) (sys_stdin w) (log w).

Definition with_futures (m : gmap ref Future) (w : World) : World :=
  mkWorld (sessions w) m (streams w) (next_ref w) (_session w)
          (sys_stdout w) (sys_stderr w) (sys_stdin w) (log w).

Definition with_stream_call (r : ref) (st : St) (ev : event) (w : World) : World :=
  mkWorld (sessions w) (futures w) (<[r := st]> (streams w)) (next_ref w)
          (_session w) (sys_stdout w) (sys_stderr w) (sys_stdin w)
          (log w ++ [ev]).

Definition with_next_ref (n : ref) (w : World) : World :=
  mkWorld (sessions w) (futures w) (streams w) n (_session w)
          (sys_stdout w) (sys_stderr w) (sys_stdin w) (log w).

(** ** The monad of request bodies *)

Definition M (A : Type) : Type := World -> outcome A * World.

Definition ret {A : Type} (a : A) : M A := fun w => (Ok a, w).

Definition bind {A B : Type} (m : M A) (k : A -> M B) : M B :=
  fun w =>
    match m w with
    | (Ok a, w') => k a w'
    | (Raise e, w') => (Raise e, w')
    | (Abort why, w') => (Abort why, w')
    end.

Definition raise {A : Type} (e : exn) : M A := fun w => (Raise e, w).

Definition stop {A : Type} (why : abort) : M A := fun w => (Abort why, w).

(** [try: body except: handler]: the handler sees every exception, the
    interrupt included; a thread that waits is not an exception. *)
Definition try_except {A : Type} (body : M A) (handler : exn -> M A) : M A :=
  fun w =>
    match body w with
    | (Raise e, w') => handler e w'
    | r => r
    end.

Notation "'do' x <- c ; k" := (bind c (fun x => k))
  (at level 10, x name, c at level 100, k at level 200).

(** The two handlers every request body ends with:
    [except KeyboardInterrupt: raise] and
    [except: self.cfuture.set_exception(sys.exc_info()[1])]. *)
Definition except_clauses (set_exception : exn -> M unit) (e : exn) : M unit :=
  if is_KeyboardInterrupt e then raise e else set_exception e.

(** ** Store primitives *)

Definition get_session (s : ref) : M Session :=
  fun w =>
    match sessions w !! s with
    | Some x => (Ok x, w)
    | None => (Abort Dangling, w)
    end.

Definition update_session (s : ref) (f : Session -> Session) : M unit :=
  fun w =>
    match sessions w !! s with
    | Some x => (Ok tt, with_sessions (<[s := f x]> (sessions w)) w)
    | None => (Abort Dangling, w)
    end.

(** [CFuture()] *)
Definition new_future : M ref :=
  fun w =>
    let f := next_ref w in
    (Ok f, with_next_ref (S f) (with_futures (<[f := Pending]> (futures w)) w)).

(** [Future.set_result] and [Future.set_exception]: a future that is
    already settled refuses. *)
Definition settle (f : ref) (x : Future) : M unit :=
  fun w =>
    match futures w !! f with
    | Some Pending => (Ok tt, with_futures (<[f := x]> (futures w)) w)
    | Some _ => (Raise FutureInvalidStateError, w)
    | None => (Abort Dangling, w)
    end.

Definition set_result (f : ref) (v : value) : M unit := settle f (Resolved v).
Definition set_exception (f : ref) (e : exn) : M unit := settle f (Rejected e).

(** A method call on the stream object at [r]. *)
Definition stream_call {A : Type} (r : ref) (ev : event)
    (method : St -> outcome A * St) : M A :=
  fun w =>
    match streams w !! r with
    | Some st => let (o, st') := method st in (o, with_stream_call r st' ev w)
    | None => (Abort Dangling, w)
    end.

Definition stream_readline (r : ref) : M string :=
  stream_call r (EvReadline r) io_readline.
Definition stream_write (r : ref) (msg : string) : M value :=
  stream_call r (EvWrite r msg) (io_write msg).
Definition stream_flush (r : ref) : M unit :=
  stream_call r (EvFlush r) io_flush.
Definition getpass (prompt : string) (r : ref) : M string :=
  stream_call r (EvGetpass r prompt) (io_getpass prompt).

(** ** RequestQueue (clibroker.py, lines 220 to 239) *)

(** [push]: [self.queue.append(req)]. *)
Definition RequestQueue_push (q : RequestQueue) (req : Request) : RequestQueue :=
  (q ++ [req])%list.

(** [self.cond.wait_for(lambda: not isempty(self.queue), wait)]: with no
    producer running, the call on an empty queue returns only when the
    timeout elapses; without a timeout the thread waits. *)
Definition wait_for_nonempty (wait : option Q) (q : RequestQueue) : outcome unit :=
  if negb (isempty q) then Ok tt
  else match wait with Some _ => Ok tt | None => Abort Blocked end.

(** [pop(wait)]:
    [return shift(self.queue) if not isempty(self.queue) else None]. *)
Definition RequestQueue_pop (wait : option Q) (q : RequestQueue)
    : outcome (option Request) * RequestQueue :=
  match wait_for_nonempty wait q with
  | Ok _ =>
      if negb (isempty q) then (Ok (fst (shift q)), snd (shift q))
      else (Ok None, q)
  | Raise e => (Raise e, q)
  | Abort why => (Abort why, q)
  end.

(** [n] calls of [pop] in a row: what each returned, and the queue left. *)
Fixpoint pop_n (n : nat) (wait : option Q) (q : RequestQueue)
    : list (outcome (option Request)) * RequestQueue :=
  match n with
  | O => ([], q)
  | S n' =>
      let (o, q') := RequestQueue_pop wait q in
      let (os, q'') := pop_n n' wait q' in
      (o :: os, q'')
  end.

(** [clear]: [self.queue = []]. *)
Definition RequestQueue_clear (q : RequestQueue) : RequestQueue := [].

(** The queue of a session, [session.pending]. *)
Definition pending_push (s : ref) (req : Request) : M unit :=
  update_session s (fun x => set_pending (RequestQueue_push (pending x) req) x).

Definition pending_pop (s : ref) (wait : option Q) : M (option Request) :=
  do x <- get_session s;
  let (o, q') := RequestQueue_pop wait (pending x) in
  match o with
  | Ok r => do _ <- update_session s (set_pending q'); ret r
  | Raise e => raise e
  | Abort why => stop why
  end.

Definition pending_clear (s : ref) : M unit :=
  update_session s (fun x => set_pending (RequestQueue_clear (pending x)) x).

(** ** Session: construction (clibroker.py, lines 22 to 40) *)

Definition Session_init (parent' : option ref) (autoflush' : option bool)
    (stdout' stderr' stdin' : option ref) : M ref :=
  do obj <-
    match parent' with
    | Some p =>
        do ps <- get_session p;
        ret (mkSession parent' "" [] None false false
               (or_else autoflush' (autoflush ps))
               (or_else stdout' (stdout ps))
               (or_else stderr' (stderr ps))
               (or_else stdin' (stdin ps)))
    | None =>
        fun w =>
          (Ok (mkSession parent' "" [] None false false
                 (or_else autoflush' false)
                 (or_else stdout' (sys_stdout w))
                 (or_else stderr' (sys_stderr w))
                 (or_else stdin' (sys_stdin w))), w)
    end;
  fun w =>
    let s := next_ref w in
    (Ok s, with_next_ref (S s) (with_sessions (<[s := obj]> (sessions w)) w)).

(** ** Requests: what the worker executes (clibroker.py, lines 113 to 217) *)

(** [ReadRequest._execute], [ReadAllRequest._execute] and
    [ReadlineRequest._execute] on the session's buffer: the result and the
    new buffer.  [ReadlineRequest] handles the [ValueError] of [index]
    itself. *)
Definition ReadRequest__execute (n : Z) (buf : string) : string * string :=
  (slice_to buf n, slice_from buf n).

Definition ReadAllRequest__execute (buf : string) : string * string :=
  (buf, "").

Definition ReadlineRequest__execute (buf : string) : string * string :=
  match index_nl buf with
  | Some idx => (slice_to buf (Z.of_nat idx + 1), slice_from buf (Z.of_nat idx + 1))
  | None => (buf, "")
  end.

(** The first statement of [BaseReadRequest.execute]:
    [if isempty(session.buffer): session.buffer += session.stdin.readline()]. *)
Definition refill (s : ref) : M unit :=
  do x <- get_session s;
  if isempty_str (buffer x) then
    do line <- stream_readline (stdin x);
    update_session s (fun x => set_buffer (buffer x +:+ line) x)
  else ret tt.

(** [BaseReadRequest.execute]: the refill stands before the [try]. *)
Definition BaseReadRequest_execute (fut : ref) (_execute : string -> string * string)
    (s : ref) : M unit :=
  do _ <- refill s;
  try_except
    (do x <- get_session s;
     let (result, buf') := _execute (buffer x) in
     do _ <- update_session s (set_buffer buf');
     set_result fut (VStr result))
    (except_clauses (set_exception fut)).

(** [PasswordRequest.execute] *)
Definition PasswordRequest_execute (fut : ref) (prompt : string) (s : ref) : M unit :=
  try_except
    (do x <- get_session s;
     do pw <- getpass prompt (stderr x);
     set_result fut (VStr pw))
    (except_clauses (set_exception fut)).

(** [WriteRequest.execute] *)
Definition WriteRequest_execute (fut : ref) (msg : string) (autoflush' err : bool)
    (s : ref) : M unit :=
  try_except
    (do x <- get_session s;
     let io := if negb err then stdout x else stderr x in
     do written <- stream_write io msg;
     do _ <- (if autoflush' then stream_flush io else ret tt);
     set_result fut written)
    (except_clauses (set_exception fut)).

(** [session.get]: class [Session] defines no attribute [get] (its
    methods are those of lines 22 to 110), so the lookup raises. *)
Definition Session_get (s : ref) : M ref :=
  raise (AttributeError "'Session' object has no attribute 'get'").

(** [FlushRequest.execute] *)
Definition FlushRequest_execute (fut : ref) (flush_stdout flush_stderr : bool)
    (s : ref) : M unit :=
  try_except
    (do s <- Session_get s;
     do x <- get_session s;
     do _ <- (if flush_stdout then stream_flush (stdout x) else ret tt);
     do _ <- (if flush_stderr then stream_flush (stderr x) else ret tt);
     set_result fut VNone)
    (except_clauses (set_exception fut)).

(** [Session.wait]: [self._finish_event.wait()]. *)
Definition Session_wait (s : ref) : M unit :=
  do x <- get_session s;
  if _finish_event x then ret tt else stop Blocked.

(** [SessionRequest.execute]: no handler here. *)
Definition SessionRequest_execute (fut : ref) (sub : ref) (s : ref) : M unit :=
  do _ <- update_session s (set_subsession (Some sub));
  do _ <- set_result fut (VSession sub);
  do _ <- Session_wait sub;
  update_session s (set_subsession None).

(** [req.execute(session)], by the class of [req]. *)
Definition execute (req : Request) (s : ref) : M unit :=
  match req with
  | ReadRequest f n => BaseReadRequest_execute f (ReadRequest__execute n) s
  | ReadAllRequest f => BaseReadRequest_execute f ReadAllRequest__execute s
  | ReadlineRequest f => BaseReadRequest_execute f ReadlineRequest__execute s
  | PasswordRequest f prompt => PasswordRequest_execute f prompt s
  | WriteRequest f msg af err => WriteRequest_execute f msg af err s
  | FlushRequest f out err => FlushRequest_execute f out err s
  | SessionRequest f sub => SessionRequest_execute f sub s
  end.

(** ** Session: the caller's side (clibroker.py, lines 43 to 75) *)

(** [_commit]: queue the request, install a worker if none is installed,
    hand back the request's promise ([asyncio.wrap_future] mirrors the
    request's future, so the promise is that future). *)
Definition _commit (s : ref) (req : Request) : M ref :=
  do _ <- pending_push s req;
  do x <- get_session s;
  do _ <- (if negb (_thread x) then update_session s (set_thread true) else ret tt);
  ret (cfuture req).

(** [ReadRequest.__init__]: the future first, then [assert n >= 0]. *)
Definition ReadRequest_init (n : Z) : M Request :=
  do f <- new_future;
  if 0 <=? n then ret (ReadRequest f n) else raise AssertionError.

(** [read(n = -1)] *)
Definition Session_read (s : ref) (n : option Z) : M ref :=
  let n := or_else n (-1) in
  if n <? 0 then
    do f <- new_future;
    _commit s (ReadAllRequest f)
  else
    do req <- ReadRequest_init n;
    _commit s req.

Definition Session_readline (s : ref) : M ref :=
  do f <- new_future;
  _commit s (ReadlineRequest f).

Definition Session_password (s : ref) (prompt : option string) : M ref :=
  do f <- new_future;
  _commit s (PasswordRequest f (or_else prompt "Enter password: ")).

(** [write] with its defaults [sep=' '], [err=False], [autoflush=None];
    [data] are the positional arguments. *)
Definition Session_write (s : ref) (data : list datum) (sep : option string)
    (err : option bool) (autoflush' : option bool) : M ref :=
  do x <- get_session s;
  let msg := buildmsg data (or_else sep " ") in
  let af := or_else autoflush' (autoflush x) in
  do f <- new_future;
  _commit s (WriteRequest f msg af (or_else err false)).

Definition Session_writeline (s : ref) (data : list datum) (sep : option string)
    (err : option bool) (autoflush' : option bool) : M ref :=
  do x <- get_session s;
  let msg := buildmsg data (or_else sep " ") +:+ nl in
  let af := or_else autoflush' (autoflush x) in
  do f <- new_future;
  _commit s (WriteRequest f msg af (or_else err false)).

Definition Session_flush (s : ref) (flush_stdout flush_stderr : option bool) : M ref :=
  do f <- new_future;
  _commit s (FlushRequest f (or_else flush_stdout true) (or_else flush_stderr true)).

(** [Session.session]: the child is built when the call is made. *)
Definition Session_session (s : ref) (autoflush' : option bool)
    (stdout' stderr' stdin' : option ref) : M ref :=
  do sub <- Session_init (Some s) autoflush' stdout' stderr' stdin';
  do f <- new_future;
  _commit s (SessionRequest f sub).

(** ** Session: closing and scoped use (clibroker.py, lines 89 to 110) *)

Definition global_session : M ref := fun w => (Ok (_session w), w).

Definition Session_close (s : ref) : M unit :=
  do g <- global_session;
  if Nat.eqb s g then raise (InvalidStateError "Cannot close global session")
  else
    do _ <- pending_clear s;
    update_session s (set_finish_event true).

Definition Session_isclosed (s : ref) : M bool :=
  do x <- get_session s;
  ret (_finish_event x).

(** [self != self.parent.subsession]: identity of session objects. *)
Definition is_subsession_of (s : ref) (p : Session) : bool :=
  match subsession p with
  | Some c => Nat.eqb s c
  | None => false
  end.

(** [__enter__]: a session without a parent has [self.parent = None], on
    which the attribute lookup fails. *)
Definition Session_enter (s : ref) : M ref :=
  do g <- global_session;
  if Nat.eqb s g then raise (InvalidStateError "Cannot enter global session")
  else
    do x <- get_session s;
    match parent x with
    | None => raise (AttributeError "'NoneType' object has no attribute 'subsession'")
    | Some p =>
        do px <- get_session p;
        if negb (is_subsession_of s px)
        then raise (InvalidStateError "Invalid enter on unregistered subsession")
        else ret s
    end.

(** [__exit__] *)
Definition Session_exit (s : ref) : M unit := Session_close s.

(** ** The worker (clibroker.py, lines 77 to 87) *)

(** [while self.subsession: self.subsession.wait()] *)
Fixpoint wait_for_subsession (fuel : nat) (s : ref) : M unit :=
  do x <- get_session s;
  match subsession x with
  | None => ret tt
  | Some c =>
      match fuel with
      | O => stop OutOfFuel
      | S fuel' => do _ <- Session_wait c; wait_for_subsession fuel' s
      end
  end.

(** [while req: req.execute(self); req = self.pending.pop(wait=0.01)] *)
Fixpoint runner_loop (fuel : nat) (s : ref) (req : option Request) : M unit :=
  match req with
  | None => ret tt
  | Some r =>
      match fuel with
      | O => stop OutOfFuel
      | S fuel' =>
          do _ <- execute r s;
          do req' <- pending_pop s (Some (1 # 100)%Q);
          runner_loop fuel' s req'
      end
  end.

Definition _runner (fuel : nat) (s : ref) : M unit :=
  do _ <- wait_for_subsession fuel s;
  do req <- pending_pop s None;
  do _ <- runner_loop fuel s req;
  update_session s (set_thread false).

(** ** Module level (clibroker.py, lines 246 to 255) *)

(** The store before [_session = Session(autoflush=True)] runs: the
    process streams and nothing else. *)
Definition boot (objs : gmap ref St) (out err inp : ref) : World :=
  mkWorld ∅ ∅ objs 0%nat 0%nat out err inp [].

(** The store once the module is imported. *)
Definition module_world (objs : gmap ref St) (out err inp : ref) : World :=
  let (o, w) := Session_init None (Some true) None None None (boot objs out err inp) in
  match o with
  | Ok g =>
      mkWorld (sessions w) (futures w) (streams w) (next_ref w) g
              (sys_stdout w) (sys_stderr w) (sys_stdin w) (log w)
  | _ => w
  end.

(** [read = _session.read] and its siblings. *)
Definition read (n : option Z) : M ref :=
  do g <- global_session; Session_read g n.
Definition readline : M ref :=
  do g <- global_session; Session_readline g.
Definition write (data : list datum) (sep : option string) (err autoflush' : option bool)
    : M ref :=
  do g <- global_session; Session_write g data sep err autoflush'.
Definition writeline (data : list datum) (sep : option string) (err autoflush' : option bool)
    : M ref :=
  do g <- global_session; Session_writeline g data sep err autoflush'.
Definition password (prompt : option string) : M ref :=
  do g <- global_session; Session_password g prompt.

(** [def session(autoflush: bool = False): return _session.session(autoflush)] *)
Definition session (autoflush' : option bool) : M ref :=
  do g <- global_session;
  Session_session g (Some (or_else autoflush' false)) None None None.

End Model.

Arguments World : clear implicits.
Arguments M : clear implicits.

Notation "'do' x <- c ; k" := (bind c (fun x => k))
  (at level 10, x name, c at level 100, k at level 200).

(** ** Stream objects *)

(** The stream classes the development runs the broker on:
    [SimStdout] and [SimStdin] of test/test_clibroker.py (a [StringBuffer]
    with its [buffer]), and a text file in the manner of Python's [io]
    text streams, which is what [sys.stdout], [sys.stderr] and [sys.stdin]
    are: [write] returns the number of characters written, and every
    operation on a closed file raises [ValueError]. *)
Inductive PyStream : Type :=
  | SimStdout (buffer : string)
  | SimStdin (buffer : string)
  | TextIO (closed : bool) (unread unflushed flushed : string).

Definition no_attribute {A : Type} (cls attr : string) : outcome A :=
  Raise (AttributeError ("'" +:+ cls +:+ "' object has no attribute '" +:+ attr +:+ "'")).

Definition closed_file {A : Type} : outcome A :=
  Raise (ValueError "I/O operation on closed file.").

(** The first line of a text: up to and including its first newline, or
    all of it. *)
Definition cut_line (s : string) : string * string :=
  match index_nl s with
  | Some idx => (str_take (S idx) s, str_drop (S idx) s)
  | None => (s, "")
  end.

(** [SimStdin.readline] waits until its buffer is non-empty. *)
Definition PyStream_readline (st : PyStream) : outcome string * PyStream :=
  match st with
  | SimStdout _ => (no_attribute "SimStdout" "readline", st)
  | SimStdin buf =>
      if isempty_str buf then (Abort Blocked, st)
      else let (line, rest) := cut_line buf in (Ok line, SimStdin rest)
  | TextIO true _ _ _ => (closed_file, st)
  | TextIO false unread u f =>
      let (line, rest) := cut_line unread in (Ok line, TextIO false rest u f)
  end.

(** [SimStdout.write] is [self.put(msg)], which returns nothing. *)
Definition PyStream_write (msg : string) (st : PyStream) : outcome value * PyStream :=
  match st with
  | SimStdout buf => (Ok VNone, SimStdout (buf +:+ msg))
  | SimStdin _ => (no_attribute "SimStdin" "write", st)
  | TextIO true _ _ _ => (closed_file, st)
  | TextIO false r u f =>
      (Ok (VInt (Z.of_nat (String.length msg))), TextIO false r (u +:+ msg) f)
  end.

Definition PyStream_flush (st : PyStream) : outcome unit * PyStream :=
  match st with
  | SimStdout _ => (Ok tt, st)
  | SimStdin _ => (no_attribute "SimStdin" "flush", st)
  | TextIO true _ _ _ => (closed_file, st)
  | TextIO false r u f => (Ok tt, TextIO false r "" (f +:+ u))
  end.

(** [getpass] reads from the controlling terminal; with nobody typing, the
    thread waits. *)
Definition PyStream_getpass (prompt : string) (st : PyStream) : outcome string * PyStream :=
  (Abort Blocked, st).

#[export] Instance PyStream_IO : IO PyStream := {
  io_readline := PyStream_readline;
  io_write := PyStream_write;
  io_flush := PyStream_flush;
  io_getpass := PyStream_getpass
}.

(** The store of the unit tests: the root session's output and error
    stream are one [SimStdout] object, its input stream a [SimStdin]
    (test_clibroker.py, lines 53 and 54). *)
Definition test_world (out inp : string) : World PyStream :=
  module_world {[ 0%nat := SimStdout out; 1%nat := SimStdin inp ]} 0%nat 0%nat 1%nat.

(** A store on text files: output at 0, error at 1, input at 2. *)
Definition text_world (out err inp : PyStream) : World PyStream :=
  module_world {[ 0%nat := out; 1%nat := err; 2%nat := inp ]} 0%nat 1%nat 2%nat.

(** Running a program and looking at the store it leaves. *)
Definition exec {St A : Type} (m : M St A) (w : World St) : World St := snd (m w).
Definition result {St A : Type} (m : M St A) (w : World St) : outcome A := fst (m w).


(** ** The scenarios of the unit tests *)

(** The worker of the root session, with [fuel] turns of its loop. *)
Definition run_root (fuel : nat) : M PyStream unit :=
  do g <- global_session; _runner fuel g.

(** [test_write]: each call is awaited before the next is made. *)
Definition scenario_A : M PyStream (ref * ref) :=
  do f1 <- write [DStr "test"; DInt 1; DInt 2; DInt 3] None None None;
  do _ <- run_root 2;
  do f2 <- write [DStr ","; DInt 123; DInt 456] None None None;
  do _ <- run_root 2;
  ret (f1, f2).

(** [test_writeline] *)
Definition scenario_B : M PyStream (ref * ref) :=
  do f1 <- writeline [DStr "test"; DInt 1; DInt 2; DInt 3] None None None;
  do _ <- run_root 2;
  do f2 <- writeline [DInt 123; DInt 456; DInt 789] (Some "_") None None;
  do _ <- run_root 2;
  ret (f1, f2).




(** A read and a write are queued on the root session, then its worker
    runs. *)
Definition scenario_read_then_write : M PyStream unit :=
  do _ <- read (Some 2);
  do _ <- write [DStr "after"] None None None;
  run_root 3.

(** A write to the error stream and a write to the output stream are
    queued, then the worker runs. *)
Definition scenario_two_writes : M PyStream unit :=
  do _ <- write [DStr "lost"] None (Some true) None;
  do _ <- write [DStr "after"] None None None;
  run_root 3.

Definition open_file : PyStream := TextIO false "" "" "".
Definition closed_stream : PyStream := TextIO true "" "" "".

(** The root session of the unit tests' store once one request has been
    committed to it. *)
Definition root_with (q : RequestQueue) (out err inp : ref) : Session :=
  mkSession None "" q None true false true out err inp.

(** The root session has opened a subsession: the call is made, the worker
    runs up to where it waits for the child. *)
Definition open_subsession : M PyStream unit :=
  do _ <- session None;
  run_root 2.

(** A write is committed to the open subsession before it is closed. *)
Definition write_in_subsession : M PyStream ref :=
  do _ <- (fun w => (Ok tt, exec open_subsession w));
  Session_write 1%nat [DStr "x"] None None None.

(** The promise [f] in a store. *)
Definition promise {St : Type} (w : World St) (f : ref) : option Future := futures w !! f.

(** The buffer of session [s] in a store. *)
Definition buffer_of {St : Type} (w : World St) (s : ref) : option string :=
  buffer <$> sessions w !! s.

(** The queue of session [s] in a store. *)
Definition pending_of {St : Type} (w : World St) (s : ref) : option RequestQueue :=
  pending <$> sessions w !! s.

(** The calls a program added to the log: [log w'] is [log w] followed by
    them. *)
Definition calls_since {St : Type} (w w' : World St) (evs : list event) : Prop :=
  log w' = (log w ++ evs)%list.

(** ** What a program leaves alone *)

(** The attributes of a session that executing a request has no business
    with: everything but [buffer] and [subsession]. *)
Definition same_settings (x x' : Session) : Prop :=
  parent x' = parent x /\ pending x' = pending x /\ _thread x' = _thread x
  /\ _finish_event x' = _finish_event x /\ autoflush x' = autoflush x
  /\ stdout x' = stdout x /\ stderr x' = stderr x /\ stdin x' = stdin x.

(** The attributes a worker has no business with: the settings without the
    queue and the worker slot. *)
Definition same_config (x x' : Session) : Prop :=
  parent x' = parent x /\ _finish_event x' = _finish_event x
  /\ autoflush x' = autoflush x
  /\ stdout x' = stdout x /\ stderr x' = stderr x /\ stdin x' = stdin x.

(** The same session objects exist, related by [rel]. *)
Definition sessions_kept {St : Type} (rel : Session -> Session -> Prop)
    (w w' : World St) : Prop :=
  forall s,
    match sessions w !! s, sessions w' !! s with
    | Some x, Some x' => rel x x'
    | None, None => True
    | _, _ => False
    end.

(** No promise changes, except that [f] may be settled if it was pending;
    no promise comes or goes. *)
Definition promises_kept {St : Type} (f : ref) (w w' : World St) : Prop :=
  forall f',
    futures w' !! f' = futures w !! f'
    \/ (f' = f /\ futures w !! f = Some Pending /\ is_Some (futures w' !! f)).

(** A settled promise stays as it is, and no promise comes or goes. *)
Definition settled_kept {St : Type} (w w' : World St) : Prop :=
  forall f',
    match futures w !! f' with
    | Some Pending => is_Some (futures w' !! f')
    | o => futures w' !! f' = o
    end.

(** Nothing is allocated, the globals stay, the same stream objects exist,
    and the log only grows. *)
Definition rest_kept {St : Type} (w w' : World St) : Prop :=
  next_ref w' = next_ref w /\ _session w' = _session w
  /\ sys_stdout w' = sys_stdout w /\ sys_stderr w' = sys_stderr w
  /\ sys_stdin w' = sys_stdin w
  /\ (forall r, is_Some (streams w' !! r) <-> is_Some (streams w !! r))
  /\ (exists evs, log w' = (log w ++ evs)%list).

(** What executing a request with the future [f] may change. *)
Definition frame {St : Type} (f : ref) (w w' : World St) : Prop :=
  sessions_kept same_settings w w' /\ promises_kept f w w' /\ rest_kept w w'.

(** What a worker run may change. *)
Definition worker_frame {St : Type} (w w' : World St) : Prop :=
  sessions_kept same_config w w' /\ settled_kept w w' /\ rest_kept w w'.

(** A program that stays within a relation on stores, whatever its
    outcome. *)
Definition keeps {St A : Type} (R : World St -> World St -> Prop) (m : M St A) : Prop :=
  forall w, R w (snd (m w)).

(** ** Text on a stream *)

(** The text a stream object holds: what was put into a simulated stream,
    what a text file has been given (flushed or not). *)
Definition contents (st : PyStream) : string :=
  match st with
  | SimStdout b => b
  | SimStdin b => b
  | TextIO _ _ u fl => fl +:+ u
  end.

(** The stream objects that take a [write] and a [flush]. *)
Definition accepts_text (st : PyStream) : Prop :=
  match st with
  | SimStdout _ => True
  | TextIO false _ _ _ => True
  | _ => False
  end.

(** The write requests for the output stream ([err] unset). *)
Definition is_output_write (req : Request) : Prop :=
  match req with
  | WriteRequest _ _ _ false => True
  | _ => False
  end.

(** The messages of the write requests of a queue, in queue order. *)
Fixpoint messages (q : list Request) : string :=
  match q with
  | [] => ""
  | WriteRequest _ msg _ _ :: q' => msg +:+ messages q'
  | _ :: q' => messages q'
  end.

(** Several requests committed to a session, one after the other. *)
Fixpoint commit_all {St : Type} (s : ref) (reqs : list Request) : M St unit :=
  match reqs with
  | [] => ret tt
  | req :: reqs' => do _ <- _commit s req; commit_all s reqs'
  end.

(** ** Calls of [write] in a row *)

(** A call of [write] on the output stream: the positional parts, the
    [sep] argument and the [autoflush] argument. *)
Definition write_call : Type := (list datum * option string * option bool)%type.

Fixpoint write_all {St : Type} (s : ref) (calls : list write_call) : M St unit :=
  match calls with
  | [] => ret tt
  | (data, sep, af) :: rest =>
      do _ <- Session_write s data sep None af; write_all s rest
  end.

(** The message of a call, and the messages of calls in a row. *)
Definition message_of (c : write_call) : string :=
  buildmsg (fst (fst c)) (or_else (snd (fst c)) " ").

Fixpoint text_of (calls : list write_call) : string :=
  match calls with
  | [] => ""
  | c :: rest => message_of c +:+ text_of rest
  end.

(** The requests the calls queue when the first promise is allocated at
    [n] on a session whose autoflush is [af0]. *)
Fixpoint requests_of (n : ref) (af0 : bool) (calls : list write_call) : list Request :=
  match calls with
  | [] => []
  | c :: rest =>
      WriteRequest n (message_of c) (or_else (snd c) af0) false
      :: requests_of (S n) af0 rest
  end.

(** ** A console *)

(** A console as a further stream class: what is typed arrives line by
    line ([readline] and the hidden input return the next line and wait
    when there is none), [write] buffers the text and returns its length,
    and [flush] shows the buffered text unless the device has a fault, in
    which case it raises it (a broken pipe raises [OSError] only when the
    buffered text is flushed). *)
Inductive Console : Type :=
  | MkConsole (flush_fault : option exn) (typed : list string) (buffered shown : string).

Definition Console_readline (st : Console) : outcome string * Console :=
  match st with
  | MkConsole ft [] b sh => (Abort Blocked, st)
  | MkConsole ft (l :: rest) b sh => (Ok (l +:+ nl), MkConsole ft rest b sh)
  end.

Definition Console_write (msg : string) (st : Console) : outcome value * Console :=
  match st with
  | MkConsole ft ty b sh =>
      (Ok (VInt (Z.of_nat (String.length msg))), MkConsole ft ty (b +:+ msg) sh)
  end.

Definition Console_flush (st : Console) : outcome unit * Console :=
  match st with
  | MkConsole (Some e) _ _ _ => (Raise e, st)
  | MkConsole None ty b sh => (Ok tt, MkConsole None ty "" (sh +:+ b))
  end.

(** The hidden input shows the prompt and returns the next line without
    its newline. *)
Definition Console_getpass (prompt : string) (st : Console) : outcome string * Console :=
  match st with
  | MkConsole ft [] b sh => (Abort Blocked, MkConsole ft [] b (sh +:+ prompt))
  | MkConsole ft (l :: rest) b sh => (Ok l, MkConsole ft rest b (sh +:+ prompt))
  end.

#[export] Instance Console_IO : IO Console := {
  io_readline := Console_readline;
  io_write := Console_write;
  io_flush := Console_flush;
  io_getpass := Console_getpass
}.

(** A store with one console for the three process streams. *)
Definition console_world (c : Console) : World Console :=
  module_world {[ 0%nat := c ]} 0%nat 0%nat 0%nat.

(** ** What a call leaves alone *)

(** The attributes of a session that no call on a session changes. *)
Definition same_io (x x' : Session) : Prop :=
  buffer x' = buffer x /\ subsession x' = subsession x /\ parent x' = parent x
  /\ autoflush x' = autoflush x
  /\ stdout x' = stdout x /\ stderr x' = stderr x /\ stdin x' = stdin x.

(** What the caller's side may change: it allocates, and it changes queue,
    worker slot and finish event of sessions.  The streams and the log, the
    globals, the promises and sessions allocated before, in the attributes
    of [same_io], stay. *)
Definition caller_frame {St : Type} (w w' : World St) : Prop :=
  streams w' = streams w /\ log w' = log w
  /\ _session w' = _session w
  /\ sys_stdout w' = sys_stdout w /\ sys_stderr w' = sys_stderr w
  /\ sys_stdin w' = sys_stdin w
  /\ (next_ref w <= next_ref w')%nat
  /\ (forall f, (f < next_ref w)%nat -> futures w' !! f = futures w !! f)
  /\ (forall s x, (s < next_ref w)%nat -> sessions w !! s = Some x ->
       exists x', sessions w' !! s = Some x' /\ same_io x x').

(** ** Stores for the further properties *)

(** Two writes are committed to the root session of the unit tests. *)
Definition two_calls : list write_call :=
  [ ([DStr "test"; DInt 1; DInt 2; DInt 3], None, None);
    ([DStr ","; DInt 123; DInt 456], None, None) ].

(** One character of the input ["test"] has been read, and two more reads
    are committed. *)
Definition reads_committed : M PyStream ref :=
  do _ <- read (Some 1);
  do _ <- run_root 2;
  do _ <- read (Some 1);
  read (Some 2).

(** A read and a write are committed to the root session. *)
Definition read_and_write_committed : M PyStream ref :=
  do _ <- read (Some 2);
  write [DStr "after"] None None None.

Definition broken_pipe : Console :=
  MkConsole (Some (OSError "Broken pipe")) [] "" "".

(** ** A read of everything, a session built by hand, the parts of a worker run *)

(** [read()] with the default count on the root session, then its
    worker. *)
Definition scenario_read_all : M PyStream ref :=
  do f <- read None;
  do _ <- run_root 2;
  ret f.

(** [Session()] called by hand: a session without parent beside the
    module's root. *)
Definition hand_built_session : M PyStream ref :=
  Session_init None None None None None.

(** [_runner] in its two parts.  The first ends when the last [pop] has
    timed out (line 84); the second is [with self._threadlock:
    self._thread = None] (lines 86 and 87).  No lock spans the two, so
    another thread can act in between. *)
Definition _runner_until_idle {St : Type} `{IO St} (fuel : nat) (s : ref) : M St unit :=
  do _ <- wait_for_subsession fuel s;
  do req <- pending_pop s None;
  runner_loop fuel s req.

Definition _runner_finish {St : Type} (s : ref) : M St unit :=
  update_session s (set_thread false).

(** The worker slot of a session is as it was. *)
Definition same_slot (x x' : Session) : Prop := _thread x' = _thread x.

(** * Properties *)

(** ** Strings *)

Lemma app_cons (c : ascii) (a b : string) : String c a +:+ b = String c (a +:+ b).
Proof. reflexivity. Qed.

Lemma app_empty (b : string) : "" +:+ b = b.
Proof. reflexivity. Qed.


Lemma str_take_length (n : nat) (s : string) :
  String.length (str_take n s) = Nat.min n (String.length s).
Proof.
  revert s; induction n as [|n IH]; intros [|c s]; simpl; try reflexivity.
  now rewrite IH.
Qed.



Lemma slice_bound_nonneg (len : nat) (n : Z) : 0 <= n -> slice_bound len n = Z.to_nat n.
Proof.
  intros Hn. unfold slice_bound.
  destruct (Z.ltb_spec n 0) as [Hlt | _]; [lia | reflexivity].
Qed.

Lemma no_nl_empty : ~ has_nl "".
Proof. intros [a [b Hab]]. destruct a; discriminate Hab. Qed.

Lemma has_nl_cons (c : ascii) (s : string) :
  has_nl (String c s) -> c = nl_char \/ has_nl s.
Proof.
  intros [a [b Hab]]. destruct a as [|c' a].
  - left. unfold nl in Hab. rewrite app_empty, app_cons in Hab. congruence.
  - right. rewrite app_cons in Hab. injection Hab as _ ->. now exists a, b.
Qed.

Lemma index_nl_None (s : string) : index_nl s = None -> ~ has_nl s.
Proof.
  induction s as [|c s IH]; simpl; intros Hidx Hnl; [now apply no_nl_empty |].
  destruct (Ascii.eqb_spec c nl_char) as [-> | Hc]; [discriminate |].
  destruct (index_nl s) eqn:E; [discriminate |].
  destruct (has_nl_cons _ _ Hnl) as [? | ?]; [congruence | now apply IH].
Qed.



(** ** Messages *)

Example buildmsg_scenario_A1 :
  buildmsg [DStr "test"; DInt 1; DInt 2; DInt 3] " " = "test 1 2 3".
Proof. reflexivity. Qed.

Example buildmsg_str_forms :
  buildmsg [DInt (-5); DNone; DBool true] "_" = "-5_None_True".
Proof. reflexivity. Qed.

(** Joining, part by part. *)
Lemma buildmsg_cons (d d' : datum) (ds : list datum) (sep : string) :
  buildmsg (d :: d' :: ds) sep = str d +:+ sep +:+ buildmsg (d' :: ds) sep.
Proof. reflexivity. Qed.

Lemma buildmsg_single (d : datum) (sep : string) : buildmsg [d] sep = str d.
Proof. reflexivity. Qed.

(** ** Running programs of the monad *)

Section Run.

Context {St : Type} `{IO St}.

Implicit Types (w : World St) (s f : ref) (x : Session).

Lemma bind_Ok {A B : Type} (m : M St A) (k : A -> M St B) w (a : A) w' :
  m w = (Ok a, w') -> bind m k w = k a w'.
Proof. intros Hm. unfold bind. now rewrite Hm. Qed.

Lemma bind_Raise {A B : Type} (m : M St A) (k : A -> M St B) w (e : exn) w' :
  m w = (Raise e, w') -> bind m k w = (Raise e, w').
Proof. intros Hm. unfold bind. now rewrite Hm. Qed.

Lemma bind_Abort {A B : Type} (m : M St A) (k : A -> M St B) w (why : abort) w' :
  m w = (Abort why, w') -> bind m k w = (Abort why, w').
Proof. intros Hm. unfold bind. now rewrite Hm. Qed.

Lemma try_except_Ok {A : Type} (body : M St A) (handler : exn -> M St A) w (a : A) w' :
  body w = (Ok a, w') -> try_except body handler w = (Ok a, w').
Proof. intros Hb. unfold try_except. now rewrite Hb. Qed.

Lemma try_except_Raise {A : Type} (body : M St A) (handler : exn -> M St A) w (e : exn) w' :
  body w = (Raise e, w') -> try_except body handler w = handler e w'.
Proof. intros Hb. unfold try_except. now rewrite Hb. Qed.

Lemma get_session_Some w s x :
  sessions w !! s = Some x -> get_session s w = (Ok x, w).
Proof. intros Hs. unfold get_session. now rewrite Hs. Qed.

Lemma update_session_Some w s x (g : Session -> Session) :
  sessions w !! s = Some x ->
  update_session s g w = (Ok tt, with_sessions (<[s := g x]> (sessions w)) w).
Proof. intros Hs. unfold update_session. now rewrite Hs. Qed.

Lemma settle_Pending w f (y : Future) :
  futures w !! f = Some Pending ->
  settle f y w = (Ok tt, with_futures (<[f := y]> (futures w)) w).
Proof. intros Hf. unfold settle. now rewrite Hf. Qed.

Lemma stream_call_Some {A : Type} w (r : ref) (ev : event)
    (method : St -> outcome A * St) (st st' : St) (o : outcome A) :
  streams w !! r = Some st -> method st = (o, st') ->
  stream_call r ev method w = (o, with_stream_call r st' ev w).
Proof. intros Hr Hm. unfold stream_call. now rewrite Hr, Hm. Qed.

(** An exception that is not the interrupt ends up in the promise. *)
Lemma except_clauses_ordinary w f (e : exn) :
  is_KeyboardInterrupt e = false -> futures w !! f = Some Pending ->
  except_clauses (set_exception f) e w
  = (Ok tt, with_futures (<[f := Rejected e]> (futures w)) w).
Proof.
  intros He Hf. unfold except_clauses. rewrite He.
  now apply settle_Pending.
Qed.

End Run.

(** ** The request queue *)

Lemma pop_nonempty (wait : option Q) (req : Request) (q : RequestQueue) :
  RequestQueue_pop wait (req :: q) = (Ok (Some req), q).
Proof. reflexivity. Qed.

Lemma pop_n_all (wait : option Q) (q : RequestQueue) :
  pop_n (length q) wait q = (map (fun r => Ok (Some r)) q, []).
Proof.
  induction q as [|req q IH]; [reflexivity |].
  cbn [length pop_n]. rewrite pop_nonempty, IH. reflexivity.
Qed.

Lemma fold_push (reqs q : RequestQueue) :
  fold_left RequestQueue_push reqs q = (q ++ reqs)%list.
Proof.
  revert q; induction reqs as [|r reqs IH]; intros q; simpl.
  - now rewrite app_nil_r.
  - rewrite IH. unfold RequestQueue_push. now rewrite <- app_assoc.
Qed.

(** C9: [RequestQueue] is first in, first out.  [push] puts the request at
    the end; [pop] hands out the earliest request and removes it; on an
    empty queue [pop] with a timeout returns [None] and leaves the queue
    empty; [clear] empties the queue; and after any pushes onto a queue,
    with no [clear] in between, as many pops as there are requests return
    them in the order they were pushed, earlier content first. *)
Theorem C9_request_queue_fifo :
  forall (q reqs : RequestQueue) (req : Request) (wait : option Q) (t : Q),
    RequestQueue_push q req = (q ++ [req])%list
    /\ RequestQueue_pop wait (req :: q) = (Ok (Some req), q)
    /\ RequestQueue_pop (Some t) [] = (Ok None, [])
    /\ RequestQueue_clear q = []
    /\ pop_n (length q + length reqs) wait (fold_left RequestQueue_push reqs q)
       = (map (fun r => Ok (Some r)) (q ++ reqs)%list, [])
    /\ RequestQueue_pop (Some t)
         (snd (pop_n (length q + length reqs) wait (fold_left RequestQueue_push reqs q)))
       = (Ok None, []).
Proof.
  intros q reqs req wait t.
  assert (Hall : pop_n (length q + length reqs) wait (fold_left RequestQueue_push reqs q)
                 = (map (fun r => Ok (Some r)) (q ++ reqs)%list, [])).
  { rewrite fold_push, <- length_app. apply pop_n_all. }
  repeat split; try reflexivity; try exact Hall.
  now rewrite Hall.
Qed.

(** ** Read requests *)

Section Reads.

Context {St : Type} `{IO St}.

Implicit Types (w : World St) (s f : ref) (x : Session).

Lemma refill_nonempty w s x :
  sessions w !! s = Some x -> isempty_str (buffer x) = false ->
  refill s w = (Ok tt, w).
Proof.
  intros Hs Hne. unfold refill.
  rewrite (bind_Ok _ _ _ _ _ (get_session_Some _ _ _ Hs)).
  now rewrite Hne.
Qed.

Lemma refill_empty w s x (st st' : St) (o : outcome string) :
  sessions w !! s = Some x -> isempty_str (buffer x) = true ->
  streams w !! stdin x = Some st -> io_readline st = (o, st') ->
  refill s w =
  match o with
  | Ok line =>
      (Ok tt, with_sessions (<[s := set_buffer (buffer x +:+ line) x]> (sessions w))
                (with_stream_call (stdin x) st' (EvReadline (stdin x)) w))
  | Raise e => (Raise e, with_stream_call (stdin x) st' (EvReadline (stdin x)) w)
  | Abort why => (Abort why, with_stream_call (stdin x) st' (EvReadline (stdin x)) w)
  end.
Proof.
  intros Hs He Hst Hrl. unfold refill.
  rewrite (bind_Ok _ _ _ _ _ (get_session_Some _ _ _ Hs)), He.
  pose proof (stream_call_Some w (stdin x) (EvReadline (stdin x)) io_readline
                st st' o Hst Hrl) as Hcall.
  destruct o as [line | e | why].
  - rewrite (bind_Ok _ _ _ _ _ Hcall).
    exact (update_session_Some
             (with_stream_call (stdin x) st' (EvReadline (stdin x)) w) s x _ Hs).
  - now apply bind_Raise.
  - now apply bind_Abort.
Qed.

(** What a refill that returns has done: nothing on a non-empty buffer,
    one [readline] on the session's input stream on an empty one. *)
Lemma refill_returns w w1 s x :
  sessions w !! s = Some x -> refill s w = (Ok tt, w1) ->
  exists x1,
    sessions w1 !! s = Some x1
    /\ futures w1 = futures w
    /\ log w1 = (log w ++ (if isempty_str (buffer x) then [EvReadline (stdin x)] else []))%list
    /\ (if isempty_str (buffer x)
        then exists st st' line,
               streams w !! stdin x = Some st
               /\ io_readline st = (Ok line, st')
               /\ streams w1 = <[stdin x := st']> (streams w)
               /\ x1 = set_buffer (buffer x +:+ line) x
        else w1 = w).
Proof.
  intros Hs Hre. destruct (isempty_str (buffer x)) eqn:He.
  - destruct (streams w !! stdin x) as [st|] eqn:Hst.
    + destruct (io_readline st) as [o st'] eqn:Hrl.
      rewrite (refill_empty w s x st st' o Hs He Hst Hrl) in Hre.
      destruct o as [line | e | why]; try discriminate.
      injection Hre as <-. exists (set_buffer (buffer x +:+ line) x).
      simpl. rewrite lookup_insert_eq. repeat split.
      exists st, st', line. repeat split; assumption.
    + unfold refill in Hre.
      rewrite (bind_Ok _ _ _ _ _ (get_session_Some _ _ _ Hs)), He in Hre.
      unfold bind, stream_readline, stream_call in Hre. rewrite Hst in Hre.
      discriminate.
  - rewrite (refill_nonempty w s x Hs He) in Hre. injection Hre as <-.
    exists x. rewrite app_nil_r. repeat split. exact Hs.
Qed.

(** The [try] block of [BaseReadRequest.execute] on a pending future. *)
Lemma read_body w s f x (_execute : string -> string * string) :
  sessions w !! s = Some x -> futures w !! f = Some Pending ->
  try_except
    (do x <- get_session s;
     let (result, buf') := _execute (buffer x) in
     do _ <- update_session s (set_buffer buf');
     set_result f (VStr result))
    (except_clauses (set_exception f)) w
  = (Ok tt,
     with_futures (<[f := Resolved (VStr (fst (_execute (buffer x))))]> (futures w))
       (with_sessions (<[s := set_buffer (snd (_execute (buffer x))) x]> (sessions w)) w)).
Proof.
  intros Hs Hf. apply try_except_Ok.
  rewrite (bind_Ok _ _ _ _ _ (get_session_Some _ _ _ Hs)).
  destruct (_execute (buffer x)) as [res buf'] eqn:E. simpl.
  rewrite (bind_Ok _ _ _ _ _ (update_session_Some _ _ _ _ Hs)).
  unfold set_result. rewrite settle_Pending by exact Hf. reflexivity.
Qed.

(** [BaseReadRequest.execute] when the refill returns. *)
Lemma read_execute w w1 s f x x1 (_execute : string -> string * string) :
  sessions w !! s = Some x -> futures w !! f = Some Pending ->
  refill s w = (Ok tt, w1) -> sessions w1 !! s = Some x1 ->
  BaseReadRequest_execute f _execute s w
  = (Ok tt,
     with_futures (<[f := Resolved (VStr (fst (_execute (buffer x1))))]> (futures w1))
       (with_sessions (<[s := set_buffer (snd (_execute (buffer x1))) x1]> (sessions w1)) w1)).
Proof.
  intros Hs Hf Hre Hs1. unfold BaseReadRequest_execute.
  rewrite (bind_Ok _ _ _ _ _ Hre).
  apply read_body; [exact Hs1 |].
  destruct (refill_returns w w1 s x Hs Hre) as (? & _ & Hfut & _).
  now rewrite Hfut.
Qed.

End Reads.




Lemma str_app_assoc (a b c : string) : (a +:+ b) +:+ c = a +:+ b +:+ c.
Proof.
  induction a as [|ch a IH]; [reflexivity |].
  now rewrite !app_cons, IH.
Qed.







(** ** The caller's side *)

Section Calls.

Context {St : Type} `{IO St}.

Implicit Types (w : World St) (s f : ref) (x : Session).

Lemma set_thread_installed x : _thread x = true -> set_thread true x = x.
Proof. destruct x; simpl; now intros ->. Qed.

(** [_commit] puts the request at the end of the session's queue and
    leaves a worker installed. *)
Lemma commit_queues w s x (req : Request) :
  sessions w !! s = Some x ->
  _commit s req w
  = (Ok (cfuture req),
     with_sessions
       (<[s := set_thread true (set_pending (pending x ++ [req])%list x)]> (sessions w)) w).
Proof.
  intros Hs. unfold _commit, pending_push.
  rewrite (bind_Ok _ _ _ _ _ (update_session_Some _ _ _ _ Hs)).
  unfold RequestQueue_push.
  set (x' := set_pending (pending x ++ [req])%list x).
  set (w1 := with_sessions (<[s := x']> (sessions w)) w).
  assert (Hs1 : sessions w1 !! s = Some x') by apply lookup_insert_eq.
  rewrite (bind_Ok _ _ _ _ _ (get_session_Some _ _ _ Hs1)).
  destruct (_thread x') eqn:Ht; simpl.
  - unfold bind, ret. simpl. rewrite (set_thread_installed _ Ht). reflexivity.
  - rewrite (bind_Ok _ _ _ _ _ (update_session_Some _ _ _ _ Hs1)).
    unfold ret, w1, with_sessions. simpl. now rewrite insert_insert_eq.
Qed.

(** [_commit] never raises. *)
Lemma commit_no_raise w s (req : Request) (e : exn) :
  fst (_commit s req w) <> Raise e.
Proof.
  destruct (sessions w !! s) as [x|] eqn:Hs.
  - rewrite (commit_queues w s x req Hs). discriminate.
  - unfold _commit, pending_push, bind, update_session. rewrite Hs. discriminate.
Qed.

Lemma read_negative w s (n : option Z) :
  or_else n (-1) < 0 ->
  Session_read s n w = (do f <- new_future; _commit s (ReadAllRequest f)) w.
Proof.
  intros Hn. unfold Session_read.
  destruct (Z.ltb_spec (or_else n (-1)) 0) as [_ | Hge]; [reflexivity | lia].
Qed.

Lemma read_no_assertion_error w s (n : option Z) :
  fst (Session_read s n w) <> Raise AssertionError.
Proof.
  unfold Session_read.
  destruct (Z.ltb_spec (or_else n (-1)) 0) as [Hlt | Hge].
  - unfold bind, new_future. apply commit_no_raise.
  - unfold ReadRequest_init, bind, new_future.
    destruct (Z.leb_spec 0 (or_else n (-1))) as [_ | Hlt]; [| lia].
    unfold ret. apply commit_no_raise.
Qed.

End Calls.

Lemma scenario_read_all_runs :
  let w := exec scenario_read_all (test_world "" "test") in
  result scenario_read_all (test_world "" "test") = Ok 1%nat
  /\ promise w 1%nat = Some (Resolved (VStr "test"))
  /\ buffer_of w 0%nat = Some ""
  /\ log w = [EvReadline 1%nat].
Proof. vm_compute. repeat split. Qed.

(** The read-all request on a buffer that holds text: no stream call. *)
Lemma read_all_buffered {St : Type} `{IO St} (w : World St) (s f : ref) (x : Session) :
  sessions w !! s = Some x ->
  promise w f = Some Pending ->
  isempty_str (buffer x) = false ->
  exists w',
    execute (ReadAllRequest f) s w = (Ok tt, w')
    /\ calls_since w w' []
    /\ promise w' f = Some (Resolved (VStr (buffer x)))
    /\ buffer_of w' s = Some "".
Proof.
  intros Hs Hf Hne. eexists.
  split; [exact (read_execute w w s f x x _ Hs Hf (refill_nonempty w s x Hs Hne) Hs) |].
  unfold calls_since, promise, buffer_of. simpl.
  rewrite !lookup_insert_eq, app_nil_r. repeat split.
Qed.

(** The read-all request on an empty buffer whose input stream returns a
    line: the refill returns, and the line is handed out. *)
Lemma read_all_refilled {St : Type} `{IO St} (w : World St) (s f : ref) (x : Session)
    (st st' : St) (line : string) :
  sessions w !! s = Some x ->
  promise w f = Some Pending ->
  isempty_str (buffer x) = true ->
  streams w !! stdin x = Some st ->
  io_readline st = (Ok line, st') ->
  exists w',
    execute (ReadAllRequest f) s w = (Ok tt, w')
    /\ calls_since w w' [EvReadline (stdin x)]
    /\ promise w' f = Some (Resolved (VStr line))
    /\ buffer_of w' s = Some ""
    /\ streams w' !! stdin x = Some st'.
Proof.
  intros Hs Hf He Hst Hrl.
  pose proof (refill_empty w s x st st' (Ok line) Hs He Hst Hrl) as Hre.
  cbv beta iota in Hre.
  assert (Hbuf : buffer x = "") by (destruct (buffer x); [reflexivity | discriminate]).
  eexists.
  split; [refine (read_execute w _ s f x _ _ Hs Hf Hre _); apply lookup_insert_eq |].
  unfold calls_since, promise, buffer_of. simpl.
  rewrite !lookup_insert_eq, Hbuf. repeat split.
Qed.

(** C10: [read] with a negative count, the default included, queues a
    read-all request.  Executed on a buffer that holds text, the request
    resolves its promise with the whole buffer without a stream call;
    executed on an empty buffer whose input stream returns a line, it makes
    the one [readline] and resolves the promise with that line; either way
    the buffer is left empty.  A negative count never reaches
    [ReadRequest], so no call of [read] fails the constructor's
    [assert n >= 0].  On the input ["test"], [read()] followed by the
    worker gives ["test"]. *)
Theorem C10_negative_read_reads_all :
  forall (St : Type) (IOSt : IO St) (w : World St) (s : ref) (x : Session) (n : option Z),
    or_else n (-1) < 0 ->
    sessions w !! s = Some x ->
    let f := next_ref w in
    (exists w0,
        Session_read s n w = (Ok f, w0)
        /\ pending_of w0 s = Some (pending x ++ [ReadAllRequest f])%list
        /\ promise w0 f = Some Pending)
    /\ Session_read s None w = Session_read s (Some (-1)) w
    /\ (forall (wq : World St) (xq : Session),
          sessions wq !! s = Some xq ->
          promise wq f = Some Pending ->
          (isempty_str (buffer xq) = false ->
           exists w' : World St,
             execute (ReadAllRequest f) s wq = (Ok tt, w')
             /\ calls_since wq w' []
             /\ promise w' f = Some (Resolved (VStr (buffer xq)))
             /\ buffer_of w' s = Some "")
          /\ (forall (st st' : St) (line : string),
                isempty_str (buffer xq) = true ->
                streams wq !! stdin xq = Some st ->
                io_readline st = (Ok line, st') ->
                exists w' : World St,
                  execute (ReadAllRequest f) s wq = (Ok tt, w')
                  /\ calls_since wq w' [EvReadline (stdin xq)]
                  /\ promise w' f = Some (Resolved (VStr line))
                  /\ buffer_of w' s = Some ""
                  /\ streams w' !! stdin xq = Some st'))
    /\ (forall (wq w1 : World St) (xq : Session),
          sessions wq !! s = Some xq ->
          promise wq f = Some Pending ->
          refill s wq = (Ok tt, w1) ->
          exists (buf : string) (w' : World St),
            buffer_of w1 s = Some buf
            /\ execute (ReadAllRequest f) s wq = (Ok tt, w')
            /\ calls_since wq w'
                 (if isempty_str (buffer xq) then [EvReadline (stdin xq)] else [])
            /\ promise w' f = Some (Resolved (VStr buf))
            /\ buffer_of w' s = Some "")
    /\ (forall (m : option Z) (w2 : World St) (s2 : ref),
          fst (Session_read s2 m w2) <> Raise AssertionError)
    /\ (let wS := exec scenario_read_all (test_world "" "test") in
        result scenario_read_all (test_world "" "test") = Ok 1%nat
        /\ promise wS 1%nat = Some (Resolved (VStr "test"))
        /\ buffer_of wS 0%nat = Some ""
        /\ log wS = [EvReadline 1%nat]).
Proof.
  intros St IOSt w s x n Hn Hs f.
  split; [| split; [reflexivity | split; [| split; [| split]]]].
  - eexists. rewrite (read_negative w s n Hn).
    unfold bind at 1. unfold new_future at 1. cbv beta zeta.
    erewrite commit_queues by exact Hs.
    unfold pending_of, promise, f.
    split; [reflexivity |]. simpl. rewrite !lookup_insert_eq.
    split; reflexivity.
  - intros wq xq Hsq Hfq. split.
    + intros Hne. exact (read_all_buffered wq s f xq Hsq Hfq Hne).
    + intros st st' line He Hst Hrl.
      exact (read_all_refilled wq s f xq st st' line Hsq Hfq He Hst Hrl).
  - intros wq w1 xq Hsq Hfq Hre.
    destruct (refill_returns wq w1 s xq Hsq Hre) as (x1 & Hs1 & Hfut & Hlog & _).
    exists (buffer x1). eexists.
    split; [unfold buffer_of; now rewrite Hs1 |].
    split; [exact (read_execute wq w1 s f xq x1 _ Hsq Hfq Hre Hs1) |].
    unfold calls_since, promise, buffer_of. simpl.
    rewrite !lookup_insert_eq. simpl. repeat split. assumption.
  - intros m w2 s2. apply read_no_assertion_error.
  - exact scenario_read_all_runs.
Qed.

(** ** Write requests *)

Section Writes.

Context {St : Type} `{IO St}.

Implicit Types (w : World St) (s f : ref) (x : Session).

Lemma selected_eq (err : bool) x :
  (if negb err then stdout x else stderr x) = selected err x.
Proof. now destruct err. Qed.

(** [WriteRequest.execute] up to the end of [io.write]. *)
Lemma write_execute_unfold w s f x (msg : string) (af err : bool)
    (st st1 : St) (o : outcome value) :
  sessions w !! s = Some x ->
  streams w !! selected err x = Some st ->
  io_write msg st = (o, st1) ->
  let io := selected err x in
  let w1 := with_stream_call io st1 (EvWrite io msg) w in
  WriteRequest_execute f msg af err s w =
  match o with
  | Ok written =>
      try_except
        (do _ <- (if af then stream_flush io else ret tt); set_result f written)
        (except_clauses (set_exception f)) w1
  | Raise e => except_clauses (set_exception f) e w1
  | Abort why => (Abort why, w1)
  end.
Proof.
  intros Hs Hst Hwr io w1. unfold WriteRequest_execute, try_except.
  rewrite (bind_Ok _ _ _ _ _ (get_session_Some _ _ _ Hs)).
  rewrite selected_eq. fold io.
  pose proof (stream_call_Some w io (EvWrite io msg) (io_write msg) st st1 o Hst Hwr)
    as Hcall.
  fold w1 in Hcall. unfold stream_write.
  destruct o as [written | e | why].
  - now rewrite (bind_Ok _ _ _ _ _ Hcall).
  - now rewrite (bind_Raise _ _ _ _ _ Hcall).
  - now rewrite (bind_Abort _ _ _ _ _ Hcall).
Qed.

(** A write whose stream calls return resolves the promise with what
    [io.write] returned. *)
Lemma write_execute_returns w s f x (msg : string) (af err : bool)
    (st st1 st2 : St) (v : value) :
  sessions w !! s = Some x ->
  futures w !! f = Some Pending ->
  streams w !! selected err x = Some st ->
  io_write msg st = (Ok v, st1) ->
  (if af then io_flush st1 else (Ok tt, st1)) = (Ok tt, st2) ->
  let io := selected err x in
  exists w',
    WriteRequest_execute f msg af err s w = (Ok tt, w')
    /\ log w' = (log w ++ EvWrite io msg :: (if af then [EvFlush io] else []))%list
    /\ streams w' !! io = Some st2
    /\ (forall r, r <> io -> streams w' !! r = streams w !! r)
    /\ sessions w' = sessions w
    /\ futures w' = <[f := Resolved v]> (futures w).
Proof.
  intros Hs Hf Hst Hwr Hfl io.
  rewrite (write_execute_unfold w s f x msg af err st st1 (Ok v) Hs Hst Hwr).
  fold io. set (w1 := with_stream_call io st1 (EvWrite io msg) w).
  destruct af.
  - assert (Hst1 : streams w1 !! io = Some st1) by apply lookup_insert_eq.
    pose proof (stream_call_Some w1 io (EvFlush io) io_flush st1 st2 (Ok tt) Hst1 Hfl)
      as Hcall.
    eexists. split.
    { apply try_except_Ok. unfold stream_flush.
      rewrite (bind_Ok _ _ _ _ _ Hcall).
      unfold set_result. rewrite settle_Pending by exact Hf. reflexivity. }
    simpl. rewrite <- app_assoc. simpl.
    repeat split; [apply lookup_insert_eq |].
    intros r Hr. now rewrite !lookup_insert_ne by congruence.
  - injection Hfl as <-.
    eexists. split.
    { apply try_except_Ok. unfold bind, ret.
      unfold set_result. rewrite settle_Pending by exact Hf. reflexivity. }
    simpl. repeat split; [apply lookup_insert_eq |].
    intros r Hr. now rewrite lookup_insert_ne by congruence.
Qed.

(** The two calls differ in the newline only. *)
Lemma write_queues w s x (data : list datum) (sep : option string)
    (err af : option bool) (line : bool) :
  sessions w !! s = Some x ->
  let joined := String.concat (or_else sep " ") (map str data) in
  let msg := if line then joined +:+ nl else joined in
  let req := WriteRequest (next_ref w) msg (or_else af (autoflush x)) (or_else err false) in
  (if line then Session_writeline else Session_write) s data sep err af w
  = (Ok (next_ref w),
     with_sessions
       (<[s := set_thread true (set_pending (pending x ++ [req])%list x)]> (sessions w))
       (with_next_ref (S (next_ref w))
          (with_futures (<[next_ref w := Pending]> (futures w)) w))).
Proof.
  intros Hs joined msg req.
  destruct line; unfold Session_writeline, Session_write;
    rewrite (bind_Ok _ _ _ _ _ (get_session_Some _ _ _ Hs));
    unfold bind at 1; unfold new_future at 1; cbv beta zeta;
    erewrite commit_queues by exact Hs; reflexivity.
Qed.

End Writes.

Lemma scenario_A_runs :
  let w := exec scenario_A (test_world "" "") in
  result scenario_A (test_world "" "") = Ok (1%nat, 2%nat)
  /\ streams w !! 0%nat = Some (SimStdout "test 1 2 3, 123 456")
  /\ log w = [EvWrite 0%nat "test 1 2 3"; EvFlush 0%nat;
              EvWrite 0%nat ", 123 456"; EvFlush 0%nat].
Proof. vm_compute. repeat split. Qed.

Lemma scenario_B_runs :
  let w := exec scenario_B (test_world "" "") in
  result scenario_B (test_world "" "") = Ok (1%nat, 2%nat)
  /\ streams w !! 0%nat
     = Some (SimStdout ("test 1 2 3" +:+ nl +:+ "123_456_789" +:+ nl)).
Proof. vm_compute. repeat split. Qed.

(** C5: [write] joins the [str] forms of its parts with the separator and
    queues a request for exactly that message; [writeLine] queues the same
    message with one newline appended ([line] tells the two calls apart).
    Executed on a stream whose [write] (and [flush], when the request
    flushes) return, the request makes one [write] call with the message on
    the selected stream and resolves the promise with what that call
    returned: the stream's count of characters written, which for a text
    file is the length of the message.  Scenario A leaves
    ["test 1 2 3, 123 456"] on the output, scenario B
    ["test 1 2 3\n123_456_789\n"]. *)
Theorem C5_write_joins_parts :
  forall (St : Type) (IOSt : IO St) (w wq : World St) (s : ref) (x xq : Session)
         (data : list datum) (sep : option string) (err af : option bool)
         (line : bool) (st st1 st2 : St) (v : value),
    let joined := String.concat (or_else sep " ") (map str data) in
    let msg := if line then joined +:+ nl else joined in
    let f := next_ref w in
    let flush := or_else af (autoflush x) in
    let io := selected (or_else err false) xq in
    sessions w !! s = Some x ->
    sessions wq !! s = Some xq ->
    promise wq f = Some Pending ->
    streams wq !! io = Some st ->
    io_write msg st = (Ok v, st1) ->
    (if flush then io_flush st1 else (Ok tt, st1)) = (Ok tt, st2) ->
    buildmsg data (or_else sep " ") = joined
    /\ (exists w0,
          (if line then Session_writeline else Session_write) s data sep err af w
          = (Ok f, w0)
          /\ pending_of w0 s
             = Some (pending x ++ [WriteRequest f msg flush (or_else err false)])%list
          /\ promise w0 f = Some Pending)
    /\ (exists w',
          execute (WriteRequest f msg flush (or_else err false)) s wq = (Ok tt, w')
          /\ calls_since wq w' (EvWrite io msg :: (if flush then [EvFlush io] else []))
          /\ streams w' !! io = Some st2
          /\ promise w' f = Some (Resolved v))
    /\ (forall r u fl : string,
          PyStream_write msg (TextIO false r u fl)
          = (Ok (VInt (Z.of_nat (String.length msg))), TextIO false r (u +:+ msg) fl))
    /\ streams (exec scenario_A (test_world "" "")) !! 0%nat
       = Some (SimStdout "test 1 2 3, 123 456")
    /\ streams (exec scenario_B (test_world "" "")) !! 0%nat
       = Some (SimStdout ("test 1 2 3" +:+ nl +:+ "123_456_789" +:+ nl)).
Proof.
  intros St IOSt w wq s x xq data sep err af line st st1 st2 v
         joined msg f flush io Hs Hsq Hf Hst Hwr Hfl.
  split; [reflexivity |]. split.
  { eexists. split; [exact (write_queues w s x data sep err af line Hs) |].
    unfold pending_of, promise. simpl. rewrite !lookup_insert_eq.
    split; reflexivity. }
  split.
  { destruct (write_execute_returns wq s f xq msg flush (or_else err false)
                st st1 st2 v Hsq Hf Hst Hwr Hfl)
      as (w' & Hex & Hlog & Hio & _ & _ & Hfut).
    exists w'. unfold calls_since, promise. rewrite Hfut, lookup_insert_eq.
    repeat split; assumption. }
  split; [reflexivity |].
  split; [apply scenario_A_runs | apply scenario_B_runs].
Qed.

(** ** Flush requests *)

(** C1 (as the code has it): [FlushRequest.execute] starts with
    [session = session.get()], and [Session] has no [get]: the
    [AttributeError] is caught by the request's own handler, so the promise
    of every flush request is rejected with it, and no stream is flushed,
    whatever the flags and the streams. *)
Theorem C1_flush_request_is_rejected :
  forall (St : Type) (IOSt : IO St) (w : World St) (s f : ref)
         (flush_stdout flush_stderr : bool),
    promise w f = Some Pending ->
    let w' := exec (execute (FlushRequest f flush_stdout flush_stderr) s) w in
    result (execute (FlushRequest f flush_stdout flush_stderr) s) w = Ok tt
    /\ promise w' f
       = Some (Rejected (AttributeError "'Session' object has no attribute 'get'"))
    /\ log w' = log w
    /\ streams w' = streams w
    /\ sessions w' = sessions w.
Proof.
  intros St IOSt w s f flush_stdout flush_stderr Hf w'.
  assert (Hrun : execute (FlushRequest f flush_stdout flush_stderr) s w
                 = (Ok tt,
                    with_futures
                      (<[f := Rejected
                                (AttributeError "'Session' object has no attribute 'get'")]>
                         (futures w)) w)).
  { simpl. unfold FlushRequest_execute.
    rewrite (try_except_Raise _ _ w
               (AttributeError "'Session' object has no attribute 'get'") w)
      by reflexivity.
    now apply except_clauses_ordinary. }
  unfold w', exec, result, promise. rewrite Hrun. simpl.
  rewrite lookup_insert_eq. repeat split.
Qed.

(** ** Closing and entering *)

Section Scopes.

Context {St : Type} `{IO St}.

Implicit Types (w : World St) (s f : ref) (x : Session).

Lemma close_root w :
  Session_close (_session w) w
  = (Raise (InvalidStateError "Cannot close global session"), w).
Proof.
  unfold Session_close, bind, global_session. now rewrite Nat.eqb_refl.
Qed.

Lemma enter_root w :
  Session_enter (_session w) w
  = (Raise (InvalidStateError "Cannot enter global session"), w).
Proof.
  unfold Session_enter, bind, global_session. now rewrite Nat.eqb_refl.
Qed.

Lemma is_subsession_of_spec s x :
  is_subsession_of s x = true <-> subsession x = Some s.
Proof.
  unfold is_subsession_of. destruct (subsession x) as [c|]; [| easy].
  rewrite Nat.eqb_eq. split; [now intros -> | now intros [= ->]].
Qed.

Lemma enter_child w s x (p : ref) (px : Session) :
  s <> _session w ->
  sessions w !! s = Some x -> parent x = Some p -> sessions w !! p = Some px ->
  Session_enter s w =
  if is_subsession_of s px then (Ok s, w)
  else (Raise (InvalidStateError "Invalid enter on unregistered subsession"), w).
Proof.
  intros Hroot Hs Hp Hps. unfold Session_enter.
  unfold bind at 1. unfold global_session at 1. cbv beta iota.
  rewrite (proj2 (Nat.eqb_neq s (_session w)) Hroot).
  rewrite (bind_Ok _ _ _ _ _ (get_session_Some _ _ _ Hs)), Hp.
  rewrite (bind_Ok _ _ _ _ _ (get_session_Some _ _ _ Hps)).
  now destruct (is_subsession_of s px).
Qed.

Lemma close_child w s x :
  s <> _session w -> sessions w !! s = Some x ->
  Session_close s w
  = (Ok tt,
     with_sessions (<[s := set_finish_event true (set_pending [] x)]> (sessions w)) w).
Proof.
  intros Hroot Hs. unfold Session_close.
  unfold bind at 1. unfold global_session at 1. cbv beta iota.
  rewrite (proj2 (Nat.eqb_neq s (_session w)) Hroot).
  unfold pending_clear, RequestQueue_clear.
  rewrite (bind_Ok _ _ _ _ _ (update_session_Some _ _ _ _ Hs)).
  erewrite update_session_Some by apply lookup_insert_eq.
  unfold with_sessions. simpl. now rewrite insert_insert_eq.
Qed.

End Scopes.

(** C6, amended: invalid-state failures come out of the call itself, with
    the store (its promises included) as it was.  [close()] on the
    module's root session [_session] and entering it raise
    [InvalidStateError], in every store; entering a session that has a
    parent raises [InvalidStateError] whenever the session is not that
    parent's [subsession], and returns the session when it is.  A session
    built without parent that is not [_session] is left out. *)
Theorem C6_invalid_state_is_raised_at_the_call :
  forall (St : Type) (IOSt : IO St) (w : World St),
    (exists msg, Session_close (_session w) w = (Raise (InvalidStateError msg), w))
    /\ (exists msg, Session_enter (_session w) w = (Raise (InvalidStateError msg), w))
    /\ (forall (s p : ref) (x px : Session),
          s <> _session w ->
          sessions w !! s = Some x ->
          parent x = Some p ->
          sessions w !! p = Some px ->
          (subsession px <> Some s ->
           exists msg, Session_enter s w = (Raise (InvalidStateError msg), w))
          /\ (subsession px = Some s -> Session_enter s w = (Ok s, w))).
Proof.
  intros St IOSt w.
  split; [eexists; apply close_root |].
  split; [eexists; apply enter_root |].
  intros s p x px Hroot Hs Hp Hps.
  rewrite (enter_child w s x p px Hroot Hs Hp Hps).
  split.
  - intros Hne. destruct (is_subsession_of s px) eqn:E.
    + apply is_subsession_of_spec in E. contradiction.
    + eexists. reflexivity.
  - intros Heq. apply is_subsession_of_spec in Heq. now rewrite Heq.
Qed.

(** C6 as stated fails on a session built by hand without parent: it is
    not the module's root and no session has it as subsession, yet
    entering it raises [AttributeError] (of [self.parent.subsession] on
    [None]), not [InvalidStateError]; and [close()] on it succeeds. *)
Lemma C6_counterexample :
  let w := exec hand_built_session (test_world "" "") in
  result hand_built_session (test_world "" "") = Ok 1%nat
  /\ 1%nat <> _session w
  /\ (parent <$> sessions w !! 1%nat) = Some None
  /\ (subsession <$> sessions w !! 0%nat) = Some None
  /\ Session_enter 1%nat w
     = (Raise (AttributeError "'NoneType' object has no attribute 'subsession'"), w)
  /\ (forall msg, fst (Session_enter 1%nat w) <> Raise (InvalidStateError msg))
  /\ fst (Session_close 1%nat w) = Ok tt.
Proof.
  vm_compute. repeat split; discriminate.
Qed.


(** C7: [close()] on a session that is not the root empties its queue and
    sets its finish event.  Every promise is as it was, so the promises of
    the requests that were queued stay pending, and no later [pop] of the
    session hands one of them to a worker; [wait()] returns from then on;
    a second [close()] changes nothing, so the event goes from unset to
    set once.  Buffer, streams, configuration, the other sessions, the
    stream objects and the log are untouched. *)
Theorem C7_close_discards_pending :
  forall (St : Type) (IOSt : IO St) (w : World St) (s : ref) (x : Session),
    s <> _session w ->
    sessions w !! s = Some x ->
    exists (w' : World St) (x' : Session),
      Session_close s w = (Ok tt, w')
      /\ sessions w' !! s = Some x'
      /\ pending x' = []
      /\ _finish_event x' = true
      /\ (forall req, In req (pending x) ->
          promise w' (cfuture req) = promise w (cfuture req))
      /\ futures w' = futures w
      /\ (forall wait req, fst (pending_pop s wait w') <> Ok (Some req))
      /\ Session_wait s w' = (Ok tt, w')
      /\ Session_close s w' = (Ok tt, w')
      /\ (buffer x' = buffer x /\ autoflush x' = autoflush x
          /\ stdout x' = stdout x /\ stderr x' = stderr x /\ stdin x' = stdin x
          /\ parent x' = parent x /\ subsession x' = subsession x
          /\ _thread x' = _thread x)
      /\ (forall s', s' <> s -> sessions w' !! s' = sessions w !! s')
      /\ streams w' = streams w
      /\ log w' = log w.
Proof.
  intros St IOSt w s x Hroot Hs.
  set (x' := set_finish_event true (set_pending [] x)).
  set (w' := with_sessions (<[s := x']> (sessions w)) w).
  assert (Hs' : sessions w' !! s = Some x') by apply lookup_insert_eq.
  exists w', x'.
  split; [exact (close_child w s x Hroot Hs) |].
  split; [exact Hs' |].
  split; [reflexivity |]. split; [reflexivity |].
  split; [reflexivity |]. split; [reflexivity |].
  split.
  { intros wait req. unfold pending_pop.
    rewrite (bind_Ok _ _ _ _ _ (get_session_Some _ _ _ Hs')).
    change (pending x') with (@nil Request).
    destruct wait; simpl; [| discriminate].
    rewrite (bind_Ok _ _ _ _ _ (update_session_Some _ _ _ _ Hs')). discriminate. }
  split.
  { unfold Session_wait.
    now rewrite (bind_Ok _ _ _ _ _ (get_session_Some _ _ _ Hs')). }
  split.
  { rewrite (close_child w' s x' Hroot Hs').
    unfold w', with_sessions. simpl. now rewrite insert_insert_eq. }
  split; [repeat split |].
  split; [| split; reflexivity].
  intros s' Hne. unfold w'. simpl. now rewrite lookup_insert_ne by congruence.
Qed.

(** ** Configuration of a new session *)

Section Config.

Context {St : Type} `{IO St}.

Implicit Types (w : World St) (s f : ref) (x : Session).

Lemma init_child w s x (af : option bool) (out err inp : option ref) :
  sessions w !! s = Some x ->
  Session_init (Some s) af out err inp w
  = (Ok (next_ref w),
     with_next_ref (S (next_ref w))
       (with_sessions (<[next_ref w := child_of s x af out err inp]> (sessions w)) w)).
Proof.
  intros Hs. unfold Session_init.
  unfold bind at 1.
  rewrite (bind_Ok _ _ _ _ _ (get_session_Some _ _ _ Hs)). reflexivity.
Qed.

Lemma session_opens w s x (af : option bool) (out err inp : option ref) :
  sessions w !! s = Some x -> sessions w !! next_ref w = None ->
  let sub := next_ref w in
  exists w0,
    Session_session s af out err inp w = (Ok (S sub), w0)
    /\ sessions w0 !! sub = Some (child_of s x af out err inp)
    /\ pending_of w0 s = Some (pending x ++ [SessionRequest (S sub) sub])%list.
Proof.
  intros Hs Hfresh sub. subst sub.
  assert (Hne : next_ref w <> s) by (intros Heq; rewrite Heq in Hfresh; congruence).
  unfold Session_session.
  rewrite (bind_Ok _ _ _ _ _ (init_child w s x af out err inp Hs)).
  unfold bind at 1. unfold new_future at 1. cbv beta zeta.
  eexists. split.
  { erewrite commit_queues; [reflexivity |].
    simpl. rewrite lookup_insert_ne by exact Hne. exact Hs. }
  unfold pending_of. simpl. rewrite lookup_insert_eq.
  rewrite lookup_insert_ne by congruence. rewrite lookup_insert_eq.
  split; reflexivity.
Qed.

Lemma init_parentless w (af : option bool) (out err inp : option ref) :
  exists w0 c,
    Session_init None af out err inp w = (Ok (next_ref w), w0)
    /\ sessions w0 !! next_ref w = Some c
    /\ parent c = None
    /\ autoflush c = or_else af false.
Proof.
  do 2 eexists. split; [reflexivity |].
  simpl. rewrite lookup_insert_eq. repeat split.
Qed.

Lemma module_root (objs : gmap ref St) (o e i : ref) :
  let w := module_world objs o e i in
  exists g, sessions w !! _session w = Some g /\ parent g = None /\ autoflush g = true.
Proof.
  eexists. unfold module_world, Session_init, boot, bind, ret. simpl.
  rewrite lookup_insert_eq. repeat split.
Qed.

End Config.

(** C2, amended: a subsession opened through a session's own [session]
    method takes the autoflush value given, and without one its parent's;
    the module's root session is built with [autoflush=True], while a
    session built without parent and without value gets [False]; the
    top-level [session()] passes its own argument on, whose default is
    [False], so without a value its subsession has autoflush [False]
    whatever the root's. *)
Theorem C2_autoflush_of_a_new_session :
  forall (St : Type) (IOSt : IO St) (w : World St) (s : ref) (x : Session)
         (af : option bool) (out err inp : option ref),
    sessions w !! s = Some x ->
    sessions w !! next_ref w = None ->
    let sub := next_ref w in
    (exists w0 c,
        Session_session s af out err inp w = (Ok (S sub), w0)
        /\ sessions w0 !! sub = Some c
        /\ parent c = Some s
        /\ pending_of w0 s = Some (pending x ++ [SessionRequest (S sub) sub])%list
        /\ autoflush c = match af with Some b => b | None => autoflush x end)
    /\ (forall (objs : gmap ref St) (o e i : ref),
          let w0 := module_world objs o e i in
          exists g, sessions w0 !! _session w0 = Some g
                    /\ parent g = None /\ autoflush g = true)
    /\ (forall w2 : World St,
          exists w3 c,
            Session_init None None out err inp w2 = (Ok (next_ref w2), w3)
            /\ sessions w3 !! next_ref w2 = Some c
            /\ parent c = None /\ autoflush c = false)
    /\ (s = _session w ->
        forall b : option bool,
          exists w0 c,
            session b w = (Ok (S sub), w0)
            /\ sessions w0 !! sub = Some c
            /\ parent c = Some s
            /\ autoflush c = match b with Some b' => b' | None => false end).
Proof.
  intros St IOSt w s x af out err inp Hs Hfresh sub.
  split.
  { destruct (session_opens w s x af out err inp Hs Hfresh) as (w0 & Hrun & Hsub & Hq).
    exists w0, (child_of s x af out err inp).
    repeat split; assumption. }
  split; [intros objs o e i; apply module_root |].
  split; [intros w2; apply (init_parentless w2 None) |].
  intros -> b.
  destruct (session_opens w (_session w) x (Some (or_else b false)) None None None
              Hs Hfresh) as (w0 & Hrun & Hsub & _).
  exists w0, (child_of (_session w) x (Some (or_else b false)) None None None).
  repeat split; assumption.
Qed.

(** C2 as stated fails on the top-level call: in the store of the unit
    tests, [session()] without a value opens a subsession of the root
    whose autoflush is [False], while the root's is [True]; and a session
    built without parent and without value has autoflush [False]. *)
Lemma C2_counterexample :
  let w := exec (session None) (test_world "" "") in
  (exists c g,
      result (session None) (test_world "" "") = Ok 2%nat
      /\ pending_of w 0%nat = Some [SessionRequest 2%nat 1%nat]
      /\ sessions w !! 1%nat = Some c
      /\ parent c = Some (_session w)
      /\ sessions w !! _session w = Some g
      /\ autoflush g = true
      /\ autoflush c = false
      /\ autoflush c <> autoflush g)
  /\ (exists c,
        sessions (exec (Session_init None None None None None) (test_world "" ""))
          !! 1%nat = Some c
        /\ parent c = None
        /\ autoflush c = false).
Proof.
  split.
  - do 2 eexists. vm_compute. repeat split; discriminate.
  - eexists. vm_compute. repeat split.
Qed.

(** ** Failures while a request executes *)

Section Failures.

Context {St : Type} `{IO St}.

Implicit Types (w : World St) (s f : ref) (x : Session).

(** A write whose [io.write] raises an ordinary exception: the promise is
    rejected with it and [execute] returns. *)
Lemma write_failure_is_delivered w s f x (msg : string) (af err : bool)
    (st st1 : St) (e : exn) :
  sessions w !! s = Some x ->
  futures w !! f = Some Pending ->
  streams w !! selected err x = Some st ->
  io_write msg st = (Raise e, st1) ->
  is_KeyboardInterrupt e = false ->
  exists w',
    WriteRequest_execute f msg af err s w = (Ok tt, w')
    /\ futures w' = <[f := Rejected e]> (futures w).
Proof.
  intros Hs Hf Hst Hwr He.
  rewrite (write_execute_unfold w s f x msg af err st st1 (Raise e) Hs Hst Hwr).
  rewrite except_clauses_ordinary by assumption.
  eexists. split; reflexivity.
Qed.

(** The interrupt leaves [execute] and the promise stays pending. *)
Lemma write_interrupt_propagates w s f x (msg : string) (af err : bool)
    (st st1 : St) :
  sessions w !! s = Some x ->
  streams w !! selected err x = Some st ->
  io_write msg st = (Raise KeyboardInterrupt, st1) ->
  exists w',
    WriteRequest_execute f msg af err s w = (Raise KeyboardInterrupt, w')
    /\ futures w' = futures w.
Proof.
  intros Hs Hst Hwr.
  rewrite (write_execute_unfold w s f x msg af err st st1 _ Hs Hst Hwr).
  eexists. split; reflexivity.
Qed.

(** A read whose refill raises: the exception, ordinary or not, leaves
    [execute], because the refill stands before the [try]; the promise
    stays as it was. *)
Lemma read_refill_failure_escapes w s f x (_execute : string -> string * string)
    (st st1 : St) (e : exn) :
  sessions w !! s = Some x ->
  isempty_str (buffer x) = true ->
  streams w !! stdin x = Some st ->
  io_readline st = (Raise e, st1) ->
  exists w',
    BaseReadRequest_execute f _execute s w = (Raise e, w')
    /\ futures w' = futures w.
Proof.
  intros Hs He Hst Hrl. unfold BaseReadRequest_execute.
  pose proof (refill_empty w s x st st1 (Raise e) Hs He Hst Hrl) as Hre.
  cbv beta iota in Hre. rewrite (bind_Raise _ _ _ _ _ Hre).
  eexists. split; reflexivity.
Qed.

End Failures.

(** The sibling path: a stream fault in a write is delivered through the
    promise and the worker goes on with the next request. *)
Lemma stream_fault_in_write_is_delivered :
  let w0 := text_world open_file closed_stream open_file in
  let w := exec scenario_two_writes w0 in
  result scenario_two_writes w0 = Ok tt
  /\ promise w 1%nat = Some (Rejected (ValueError "I/O operation on closed file."))
  /\ promise w 2%nat = Some (Resolved (VInt 5))
  /\ pending_of w 0%nat = Some [].
Proof. vm_compute. repeat split. Qed.

(** C8 (as the code has it): a read request whose refill meets a stream
    fault.  The root session's input stream is a closed file; a [read(2)]
    and a [write] are queued and the worker runs.  The [ValueError] of
    [readline] leaves [execute] and the worker's loop: the worker ends with
    the exception, the read's promise and the write's promise are both
    still pending, the write is still queued, and the session keeps its
    worker installed, so no later call starts another. *)
Theorem C8_refill_failure_leaves_promise_pending :
  let w0 := text_world open_file open_file closed_stream in
  let w := exec scenario_read_then_write w0 in
  result scenario_read_then_write w0
  = Raise (ValueError "I/O operation on closed file.")
  /\ promise w 1%nat = Some Pending
  /\ promise w 2%nat = Some Pending
  /\ pending_of w 0%nat = Some [WriteRequest 2%nat "after" true false]
  /\ (_thread <$> sessions w !! 0%nat) = Some true
  /\ log w = [EvReadline 2%nat].
Proof. vm_compute. repeat split. Qed.

(** * The theorems at concrete stores *)

(** C1 at a flush of the root session over text files: the output file
    holds unflushed text and keeps it. *)
Lemma C1_flush_request_is_rejected_witness :
  let w0 := text_world (TextIO false "" "unflushed" "") open_file open_file in
  let w := exec (Session_flush 0%nat None None) w0 in
  let w' := exec (execute (FlushRequest 1%nat true true) 0%nat) w in
  pending_of w 0%nat = Some [FlushRequest 1%nat true true]
  /\ promise w 1%nat = Some Pending
  /\ promise w' 1%nat
     = Some (Rejected (AttributeError "'Session' object has no attribute 'get'"))
  /\ streams w' !! 0%nat = Some (TextIO false "" "unflushed" "")
  /\ log w' = [].
Proof.
  intros w0 w w'.
  assert (Hf : promise w 1%nat = Some Pending) by reflexivity.
  destruct (C1_flush_request_is_rejected PyStream PyStream_IO w 0%nat 1%nat true true Hf)
    as (_ & Hrej & Hlog & Hst & _).
  split; [reflexivity |]. split; [exact Hf |]. split; [exact Hrej |].
  unfold w'. rewrite Hst, Hlog. split; reflexivity.
Defined.

(** C2 at the root session of the unit tests: a subsession opened through
    the root's own method without a value has the root's autoflush. *)
Lemma C2_autoflush_of_a_new_session_witness :
  let w := test_world "" "" in
  sessions w !! 0%nat = Some (mkSession None "" [] None false false true 0 0 1)%nat
  /\ sessions w !! next_ref w = None
  /\ exists w0 c,
       Session_session 0%nat None None None None w = (Ok 2%nat, w0)
       /\ sessions w0 !! 1%nat = Some c
       /\ autoflush c = true.
Proof.
  intros w.
  assert (Hs : sessions w !! 0%nat
               = Some (mkSession None "" [] None false false true 0 0 1)%nat)
    by reflexivity.
  assert (Hfresh : sessions w !! next_ref w = None) by reflexivity.
  split; [exact Hs |]. split; [exact Hfresh |].
  destruct (C2_autoflush_of_a_new_session PyStream PyStream_IO w 0%nat _
              None None None None Hs Hfresh)
    as ((w0 & c & Hrun & Hc & _ & _ & Haf) & _).
  exists w0, c. repeat split; assumption.
Defined.



(** C5 at scenario A's first call, over text files: the request writes
    ["test 1 2 3"], flushes, and resolves with the count 10. *)
Lemma C5_write_joins_parts_witness :
  let data := [DStr "test"; DInt 1; DInt 2; DInt 3] in
  let w := text_world open_file open_file open_file in
  let wq := exec (write data None None None) w in
  sessions w !! 0%nat = Some (mkSession None "" [] None false false true 0 1 2)%nat
  /\ sessions wq !! 0%nat
     = Some (root_with [WriteRequest 1%nat "test 1 2 3" true false] 0 1 2)%nat
  /\ promise wq 1%nat = Some Pending
  /\ streams wq !! 0%nat = Some open_file
  /\ io_write "test 1 2 3" open_file = (Ok (VInt 10), TextIO false "" "test 1 2 3" "")
  /\ io_flush (TextIO false "" "test 1 2 3" "") = (Ok tt, TextIO false "" "" "test 1 2 3")
  /\ exists w',
       execute (WriteRequest 1%nat "test 1 2 3" true false) 0%nat wq = (Ok tt, w')
       /\ log w' = [EvWrite 0%nat "test 1 2 3"; EvFlush 0%nat]
       /\ streams w' !! 0%nat = Some (TextIO false "" "" "test 1 2 3")
       /\ promise w' 1%nat = Some (Resolved (VInt 10)).
Proof.
  intros data w wq.
  assert (Hs : sessions w !! 0%nat
               = Some (mkSession None "" [] None false false true 0 1 2)%nat)
    by reflexivity.
  assert (Hsq : sessions wq !! 0%nat
                = Some (root_with [WriteRequest 1%nat "test 1 2 3" true false] 0 1 2)%nat)
    by reflexivity.
  assert (Hf : promise wq 1%nat = Some Pending) by reflexivity.
  assert (Hst : streams wq !! 0%nat = Some open_file) by reflexivity.
  assert (Hwr : io_write "test 1 2 3" open_file
                = (Ok (VInt 10), TextIO false "" "test 1 2 3" "")) by reflexivity.
  assert (Hfl : io_flush (TextIO false "" "test 1 2 3" "")
                = (Ok tt, TextIO false "" "" "test 1 2 3")) by reflexivity.
  repeat (split; [assumption |]).
  destruct (C5_write_joins_parts PyStream PyStream_IO w wq 0%nat _ _ data
              None None None false open_file _ _ (VInt 10) Hs Hsq Hf Hst Hwr Hfl)
    as (_ & _ & (w' & Hex & Hlog & Hio & Hres) & _).
  exists w'. repeat split; assumption.
Defined.

(** C6 at the fresh store of the unit tests, where the root is the only
    session, and at an open subsession of the root: the root may neither be
    closed nor entered, the child may be entered while it is the root's
    subsession, and not before the worker has registered it. *)
Lemma C6_invalid_state_is_raised_at_the_call_witness :
  let w0 := test_world "" "" in
  let w1 := exec (session None) (test_world "" "") in
  let w := exec open_subsession (test_world "" "") in
  (exists msg, Session_close 0%nat w0 = (Raise (InvalidStateError msg), w0))
  /\ (exists msg, Session_enter 0%nat w0 = (Raise (InvalidStateError msg), w0))
  /\ 1%nat <> _session w
  /\ sessions w !! 1%nat = Some (mkSession (Some 0) "" [] None false false false 0 0 1)%nat
  /\ sessions w !! 0%nat = Some (mkSession None "" [] (Some 1) true false true 0 0 1)%nat
  /\ Session_enter 1%nat w = (Ok 1%nat, w)
  /\ sessions w1 !! 0%nat
     = Some (mkSession None "" [SessionRequest 2 1] None true false true 0 0 1)%nat
  /\ (exists msg, Session_enter 1%nat w1 = (Raise (InvalidStateError msg), w1)).
Proof.
  intros w0 w1 w.
  assert (Hroot : 1%nat <> _session w) by (vm_compute; discriminate).
  assert (Hs : sessions w !! 1%nat
               = Some (mkSession (Some 0) "" [] None false false false 0 0 1)%nat)
    by (vm_compute; reflexivity).
  assert (Hps : sessions w !! 0%nat
                = Some (mkSession None "" [] (Some 1) true false true 0 0 1)%nat)
    by (vm_compute; reflexivity).
  assert (Hroot1 : 1%nat <> _session w1) by (vm_compute; discriminate).
  assert (Hs1 : sessions w1 !! 1%nat
                = Some (mkSession (Some 0) "" [] None false false false 0 0 1)%nat)
    by (vm_compute; reflexivity).
  assert (Hps1 : sessions w1 !! 0%nat
                 = Some (mkSession None "" [SessionRequest 2 1] None true false true 0 0 1)%nat)
    by (vm_compute; reflexivity).
  destruct (C6_invalid_state_is_raised_at_the_call PyStream PyStream_IO w0)
    as (Hclose0 & Henter0 & _).
  destruct (C6_invalid_state_is_raised_at_the_call PyStream PyStream_IO w)
    as (_ & _ & Hchild).
  destruct (C6_invalid_state_is_raised_at_the_call PyStream PyStream_IO w1)
    as (_ & _ & Hchild1).
  split; [exact Hclose0 |]. split; [exact Henter0 |].
  split; [exact Hroot |]. split; [exact Hs |]. split; [exact Hps |].
  split; [exact (proj2 (Hchild 1%nat 0%nat _ _ Hroot Hs eq_refl Hps) eq_refl) |].
  split; [exact Hps1 |].
  exact (proj1 (Hchild1 1%nat 0%nat _ _ Hroot1 Hs1 eq_refl Hps1) ltac:(discriminate)).
Defined.

(** C7 at a subsession with a queued write: [close()] drops the write and
    its promise stays pending. *)
Lemma C7_close_discards_pending_witness :
  let w := exec write_in_subsession (test_world "" "") in
  1%nat <> _session w
  /\ sessions w !! 1%nat
     = Some (mkSession (Some 0) "" [WriteRequest 3%nat "x" false false] None
               true false false 0 0 1)%nat
  /\ promise w 3%nat = Some Pending
  /\ exists w' x',
       Session_close 1%nat w = (Ok tt, w')
       /\ sessions w' !! 1%nat = Some x'
       /\ pending x' = []
       /\ _finish_event x' = true
       /\ promise w' 3%nat = Some Pending
       /\ Session_wait 1%nat w' = (Ok tt, w').
Proof.
  intros w.
  assert (Hroot : 1%nat <> _session w) by (vm_compute; discriminate).
  assert (Hs : sessions w !! 1%nat
               = Some (mkSession (Some 0) "" [WriteRequest 3%nat "x" false false] None
                         true false false 0 0 1)%nat) by reflexivity.
  assert (Hf : promise w 3%nat = Some Pending) by reflexivity.
  repeat (split; [assumption |]).
  destruct (C7_close_discards_pending PyStream PyStream_IO w 1%nat _ Hroot Hs)
    as (w' & x' & Hrun & Hs' & Hq & Hev & Hprom & _ & _ & Hwait & _).
  exists w', x'. repeat split; try assumption.
  exact (eq_trans (Hprom (WriteRequest 3%nat "x" false false) (or_introl eq_refl)) Hf).
Defined.

(** C10 at the default argument on the root session of the unit tests,
    with the input ["test"] and an empty buffer: [read()] queues a read-all
    request, and executing it on the store the call leaves makes the
    refill, which returns, and resolves the promise with ["test"]. *)
Lemma C10_negative_read_reads_all_witness :
  let w := test_world "" "test" in
  let wq := exec (Session_read 0%nat None) w in
  let xq := root_with [ReadAllRequest 1%nat] 0%nat 0%nat 1%nat in
  or_else None (-1) < 0
  /\ sessions w !! 0%nat = Some (mkSession None "" [] None false false true 0 0 1)%nat
  /\ (exists w0,
        Session_read 0%nat None w = (Ok 1%nat, w0)
        /\ pending_of w0 0%nat = Some [ReadAllRequest 1%nat]
        /\ promise w0 1%nat = Some Pending)
  /\ sessions wq !! 0%nat = Some xq
  /\ promise wq 1%nat = Some Pending
  /\ isempty_str (buffer xq) = true
  /\ streams wq !! 1%nat = Some (SimStdin "test")
  /\ io_readline (SimStdin "test") = (Ok "test", SimStdin "")
  /\ (exists w',
        execute (ReadAllRequest 1%nat) 0%nat wq = (Ok tt, w')
        /\ log w' = [EvReadline 1%nat]
        /\ promise w' 1%nat = Some (Resolved (VStr "test"))
        /\ buffer_of w' 0%nat = Some ""
        /\ streams w' !! 1%nat = Some (SimStdin "")).
Proof.
  intros w wq xq.
  assert (Hn : or_else None (-1) < 0) by reflexivity.
  assert (Hs : sessions w !! 0%nat
               = Some (mkSession None "" [] None false false true 0 0 1)%nat)
    by (vm_compute; reflexivity).
  assert (Hsq : sessions wq !! 0%nat = Some xq) by (vm_compute; reflexivity).
  assert (Hfq : promise wq 1%nat = Some Pending) by (vm_compute; reflexivity).
  assert (He : isempty_str (buffer xq) = true) by reflexivity.
  assert (Hst : streams wq !! stdin xq = Some (SimStdin "test"))
    by (vm_compute; reflexivity).
  assert (Hrl : io_readline (SimStdin "test") = (Ok "test", SimStdin ""))
    by (vm_compute; reflexivity).
  destruct (C10_negative_read_reads_all PyStream PyStream_IO w 0%nat _ None Hn Hs)
    as ((w0 & Hrun & Hq & Hf) & _ & Hexec & _).
  destruct (proj2 (Hexec wq xq Hsq Hfq) (SimStdin "test") (SimStdin "") "test" He Hst Hrl)
    as (w' & Hex & Hlog & Hres & Hbuf & Hstr).
  split; [exact Hn |]. split; [exact Hs |].
  split; [exists w0; repeat split; assumption |].
  split; [exact Hsq |]. split; [exact Hfq |]. split; [exact He |].
  split; [exact Hst |]. split; [exact Hrl |].
  exists w'. split; [exact Hex |]. split; [| repeat split; assumption].
  unfold calls_since in Hlog. rewrite Hlog. vm_compute. reflexivity.
Defined.

(** * Further properties of the broker *)

(** ** Programs that stay within a relation *)

Section Keeps.

Context {St : Type} `{IO St}.

Implicit Types (w : World St) (s f : ref) (x : Session).

Variable R : World St -> World St -> Prop.
Hypothesis R_refl : forall w, R w w.
Hypothesis R_trans : forall w1 w2 w3, R w1 w2 -> R w2 w3 -> R w1 w3.

Lemma keeps_ret {A : Type} (a : A) : keeps R (ret a).
Proof. intros w. apply R_refl. Qed.

Lemma keeps_raise {A : Type} (e : exn) : keeps R (@raise St A e).
Proof. intros w. apply R_refl. Qed.

Lemma keeps_stop {A : Type} (why : abort) : keeps R (@stop St A why).
Proof. intros w. apply R_refl. Qed.

Lemma keeps_bind {A B : Type} (m : M St A) (k : A -> M St B) :
  keeps R m -> (forall a, keeps R (k a)) -> keeps R (bind m k).
Proof.
  intros Hm Hk w. unfold bind. specialize (Hm w).
  destruct (m w) as [[a | e | why] w1]; simpl in *; try exact Hm.
  exact (R_trans _ _ _ Hm (Hk a w1)).
Qed.

Lemma keeps_try_except {A : Type} (body : M St A) (handler : exn -> M St A) :
  keeps R body -> (forall e, keeps R (handler e)) -> keeps R (try_except body handler).
Proof.
  intros Hb Hh w. unfold try_except. specialize (Hb w).
  destruct (body w) as [[a | e | why] w1]; simpl in *; try exact Hb.
  exact (R_trans _ _ _ Hb (Hh e w1)).
Qed.

Lemma keeps_get_session s : keeps R (get_session s).
Proof. intros w. unfold get_session. destruct (sessions w !! s); apply R_refl. Qed.

Lemma keeps_global_session : keeps R (@global_session St).
Proof. intros w. apply R_refl. Qed.

End Keeps.

(** ** The frame of a request *)

Section Frame.

Context {St : Type} `{IO St}.

Implicit Types (w : World St) (s f : ref) (x : Session).

Lemma same_settings_refl x : same_settings x x.
Proof. repeat split. Qed.

Lemma same_settings_trans x1 x2 x3 :
  same_settings x1 x2 -> same_settings x2 x3 -> same_settings x1 x3.
Proof. unfold same_settings. intuition congruence. Qed.

Lemma same_config_refl x : same_config x x.
Proof. repeat split. Qed.

Lemma same_config_trans x1 x2 x3 :
  same_config x1 x2 -> same_config x2 x3 -> same_config x1 x3.
Proof. unfold same_config. intuition congruence. Qed.

Lemma same_settings_config x x' : same_settings x x' -> same_config x x'.
Proof. unfold same_settings, same_config. intuition. Qed.

Lemma sessions_kept_refl (rel : Session -> Session -> Prop) w :
  (forall x, rel x x) -> sessions_kept rel w w.
Proof. intros Hr s. destruct (sessions w !! s); [apply Hr | exact I]. Qed.

Lemma sessions_kept_trans (rel : Session -> Session -> Prop) w1 w2 w3 :
  (forall x1 x2 x3, rel x1 x2 -> rel x2 x3 -> rel x1 x3) ->
  sessions_kept rel w1 w2 -> sessions_kept rel w2 w3 -> sessions_kept rel w1 w3.
Proof.
  intros Ht H12 H23 s. specialize (H12 s). specialize (H23 s).
  destruct (sessions w1 !! s), (sessions w2 !! s), (sessions w3 !! s);
    try contradiction; try exact I.
  eapply Ht; eassumption.
Qed.

Lemma sessions_kept_weaken (rel rel' : Session -> Session -> Prop) w w' :
  (forall x x', rel x x' -> rel' x x') ->
  sessions_kept rel w w' -> sessions_kept rel' w w'.
Proof.
  intros Hw Hk s. specialize (Hk s).
  destruct (sessions w !! s), (sessions w' !! s); try contradiction; try exact I.
  now apply Hw.
Qed.

Lemma sessions_kept_update (rel : Session -> Session -> Prop) w s x x' :
  (forall x, rel x x) -> sessions w !! s = Some x -> rel x x' ->
  sessions_kept rel w (with_sessions (<[s := x']> (sessions w)) w).
Proof.
  intros Hr Hs Hx s'. simpl. destruct (decide (s = s')) as [<- | Hne].
  - now rewrite Hs, lookup_insert_eq.
  - rewrite lookup_insert_ne by exact Hne.
    destruct (sessions w !! s'); [apply Hr | exact I].
Qed.

Lemma promises_kept_refl f w : promises_kept f w w.
Proof. intros f'. now left. Qed.

Lemma promises_kept_trans f w1 w2 w3 :
  promises_kept f w1 w2 -> promises_kept f w2 w3 -> promises_kept f w1 w3.
Proof.
  intros H12 H23 f'.
  destruct (H12 f') as [E12 | (Hf1 & P1 & D1)];
    destruct (H23 f') as [E23 | (Hf2 & P2 & D2)].
  - left. congruence.
  - right. subst f'. repeat split; [congruence | exact D2].
  - right. subst f'. repeat split; [exact P1 | now rewrite E23].
  - right. now repeat split.
Qed.

Lemma settled_kept_refl w : settled_kept w w.
Proof.
  intros f'. destruct (futures w !! f') as [[| |]|] eqn:E; eauto.
Qed.

Lemma settled_kept_trans w1 w2 w3 :
  settled_kept w1 w2 -> settled_kept w2 w3 -> settled_kept w1 w3.
Proof.
  intros H12 H23 f'. specialize (H12 f'). specialize (H23 f').
  destruct (futures w1 !! f') as [[| |]|].
  - destruct H12 as [y Hy]. rewrite Hy in H23.
    destruct y; [exact H23 | rewrite H23; eauto | rewrite H23; eauto].
  - now rewrite H12 in H23.
  - now rewrite H12 in H23.
  - now rewrite H12 in H23.
Qed.

Lemma promises_settled_kept f w w' : promises_kept f w w' -> settled_kept w w'.
Proof.
  intros Hp f'. destruct (Hp f') as [E | (-> & P & D)].
  - rewrite E. destruct (futures w !! f') as [[| |]|]; eauto.
  - now rewrite P.
Qed.

Lemma rest_kept_refl w : rest_kept w w.
Proof. repeat split; try tauto. exists []. now rewrite app_nil_r. Qed.

Lemma rest_kept_trans w1 w2 w3 : rest_kept w1 w2 -> rest_kept w2 w3 -> rest_kept w1 w3.
Proof.
  intros (N1 & G1 & O1 & E1 & I1 & S1 & [l1 L1]) (N2 & G2 & O2 & E2 & I2 & S2 & [l2 L2]).
  repeat split; try congruence.
  - intros Hr. apply S1, S2, Hr.
  - intros Hr. apply S2, S1, Hr.
  - exists (l1 ++ l2)%list. rewrite L2, L1. now rewrite <- app_assoc.
Qed.

Lemma sessions_kept_eq (rel : Session -> Session -> Prop) w w' :
  (forall x, rel x x) -> sessions w' = sessions w -> sessions_kept rel w w'.
Proof.
  intros Hr E s. rewrite E. destruct (sessions w !! s); [apply Hr | exact I].
Qed.

Lemma promises_kept_eq f w w' : futures w' = futures w -> promises_kept f w w'.
Proof. intros E f'. left. now rewrite E. Qed.

Lemma rest_kept_eq w w' :
  next_ref w' = next_ref w -> _session w' = _session w ->
  sys_stdout w' = sys_stdout w -> sys_stderr w' = sys_stderr w ->
  sys_stdin w' = sys_stdin w -> streams w' = streams w -> log w' = log w ->
  rest_kept w w'.
Proof.
  intros N G O E I S L. repeat split; try assumption; try (rewrite S; tauto).
  exists []. now rewrite app_nil_r.
Qed.

End Frame.

Section ExecuteFrame.

Context {St : Type} `{IO St}.

Implicit Types (w : World St) (s f : ref) (x : Session).

Lemma frame_refl f w : frame f w w.
Proof.
  split; [apply sessions_kept_refl, same_settings_refl |].
  split; [apply promises_kept_refl | apply rest_kept_refl].
Qed.

Lemma frame_trans f w1 w2 w3 : frame f w1 w2 -> frame f w2 w3 -> frame f w1 w3.
Proof.
  intros (S1 & P1 & R1) (S2 & P2 & R2). split; [| split].
  - exact (sessions_kept_trans _ _ _ _ same_settings_trans S1 S2).
  - exact (promises_kept_trans _ _ _ _ P1 P2).
  - exact (rest_kept_trans _ _ _ R1 R2).
Qed.

Lemma frame_update_session f s (g : Session -> Session) :
  (forall x, same_settings x (g x)) -> keeps (@frame St f) (update_session s g).
Proof.
  intros Hg w. unfold update_session.
  destruct (sessions w !! s) as [x|] eqn:Hs; simpl.
  - split; [| split].
    + exact (sessions_kept_update _ w s x (g x) same_settings_refl Hs (Hg x)).
    + now apply promises_kept_eq.
    + now apply rest_kept_eq.
  - apply frame_refl.
Qed.

Lemma frame_settle f (y : Future) : keeps (@frame St f) (settle f y).
Proof.
  intros w. unfold settle.
  destruct (futures w !! f) as [[| |]|] eqn:Hf; simpl; try apply frame_refl.
  split; [now apply sessions_kept_eq; [apply same_settings_refl |] |].
  split; [| now apply rest_kept_eq].
  intros f'. simpl. destruct (decide (f = f')) as [<- | Hne].
  - right. repeat split; [exact Hf |]. rewrite lookup_insert_eq. eauto.
  - left. now rewrite lookup_insert_ne.
Qed.

Lemma frame_stream_call {A : Type} f (r : ref) (ev : event)
    (method : St -> outcome A * St) :
  keeps (@frame St f) (stream_call r ev method).
Proof.
  intros w. unfold stream_call.
  destruct (streams w !! r) as [st|] eqn:Hr; simpl; [| apply frame_refl].
  destruct (method st) as [o st']. simpl.
  split; [now apply sessions_kept_eq; [apply same_settings_refl |] |].
  split; [now apply promises_kept_eq |].
  repeat split; simpl; try reflexivity.
  - destruct (decide (r = r0)) as [<- | Hne].
    + intros _. rewrite Hr. eauto.
    + now rewrite lookup_insert_ne.
  - destruct (decide (r = r0)) as [<- | Hne].
    + intros _. rewrite lookup_insert_eq. eauto.
    + now rewrite lookup_insert_ne.
  - now exists [ev].
Qed.

Lemma frame_except_clauses f (e : exn) :
  keeps (@frame St f) (except_clauses (set_exception f) e).
Proof.
  unfold except_clauses. destruct (is_KeyboardInterrupt e).
  - apply keeps_raise, frame_refl.
  - apply frame_settle.
Qed.

Ltac frame_step :=
  first [ apply (keeps_bind _ (frame_trans _))
        | apply (keeps_try_except _ (frame_trans _))
        | apply (keeps_ret _ (frame_refl _))
        | apply (keeps_raise _ (frame_refl _))
        | apply (keeps_stop _ (frame_refl _))
        | apply (keeps_get_session _ (frame_refl _))
        | apply frame_stream_call
        | apply frame_settle
        | apply frame_except_clauses ].

Lemma set_buffer_settings (b : string) x : same_settings x (set_buffer b x).
Proof. repeat split. Qed.

Lemma set_subsession_settings (c : option ref) x : same_settings x (set_subsession c x).
Proof. repeat split. Qed.

Lemma frame_refill f s : keeps (@frame St f) (refill s).
Proof.
  unfold refill. frame_step; [frame_step |].
  intros x. destruct (isempty_str (buffer x)); [| frame_step].
  frame_step; [unfold stream_readline; frame_step |].
  intros line. apply frame_update_session. intros x'. apply set_buffer_settings.
Qed.

End ExecuteFrame.

Section ExecuteFrameRequests.

Context {St : Type} `{IO St}.

Implicit Types (w : World St) (s f : ref) (x : Session).

Ltac frame_step :=
  first [ apply frame_refill
        | apply frame_except_clauses
        | apply frame_settle
        | apply frame_stream_call
        | apply (keeps_get_session _ (frame_refl _))
        | apply (keeps_ret _ (frame_refl _))
        | apply (keeps_raise _ (frame_refl _))
        | apply (keeps_stop _ (frame_refl _))
        | apply (keeps_try_except _ (frame_trans _))
        | apply (keeps_bind _ (frame_trans _)) ].

Lemma frame_read f (_execute : string -> string * string) s :
  keeps (@frame St f) (BaseReadRequest_execute f _execute s).
Proof.
  unfold BaseReadRequest_execute. frame_step; [frame_step |]. intros ?.
  frame_step; [| intros e; frame_step].
  frame_step; [frame_step |]. intros x.
  destruct (_execute (buffer x)) as [res buf'].
  frame_step; [| intros ?; unfold set_result; frame_step].
  apply frame_update_session. intros x'. apply set_buffer_settings.
Qed.

Lemma frame_password f (prompt : string) s :
  keeps (@frame St f) (PasswordRequest_execute f prompt s).
Proof.
  unfold PasswordRequest_execute.
  frame_step; [| intros e; frame_step].
  frame_step; [frame_step |]. intros x.
  frame_step; [unfold getpass; frame_step |]. intros pw.
  unfold set_result. frame_step.
Qed.

Lemma frame_write f (msg : string) (af err : bool) s :
  keeps (@frame St f) (WriteRequest_execute f msg af err s).
Proof.
  unfold WriteRequest_execute.
  frame_step; [| intros e; frame_step].
  frame_step; [frame_step |]. intros x.
  frame_step; [unfold stream_write; frame_step |]. intros written.
  frame_step; [| intros ?; unfold set_result; frame_step].
  destruct af; [unfold stream_flush |]; frame_step.
Qed.

Lemma frame_flush f (out err : bool) s :
  keeps (@frame St f) (FlushRequest_execute f out err s).
Proof.
  unfold FlushRequest_execute.
  apply (keeps_try_except _ (frame_trans _)); [| intros e; frame_step].
  apply (keeps_bind _ (frame_trans _)); [unfold Session_get; frame_step |].
  intros s'.
  frame_step; [frame_step |]. intros x.
  frame_step; [destruct out; [unfold stream_flush |]; frame_step |]. intros ?.
  frame_step; [destruct err; [unfold stream_flush |]; frame_step |]. intros ?.
  unfold set_result. frame_step.
Qed.

Lemma frame_wait f s : keeps (@frame St f) (Session_wait s).
Proof.
  unfold Session_wait. frame_step; [frame_step |]. intros x.
  destruct (_finish_event x); frame_step.
Qed.

Lemma frame_session_request f (sub : ref) s :
  keeps (@frame St f) (SessionRequest_execute f sub s).
Proof.
  unfold SessionRequest_execute.
  frame_step; [apply frame_update_session; intros x; apply set_subsession_settings |].
  intros ?. frame_step; [unfold set_result; frame_step |]. intros ?.
  frame_step; [apply frame_wait |]. intros ?.
  apply frame_update_session. intros x. apply set_subsession_settings.
Qed.

Lemma frame_execute (req : Request) s :
  keeps (@frame St (cfuture req)) (execute req s).
Proof.
  destruct req; simpl.
  - apply frame_read.
  - apply frame_read.
  - apply frame_read.
  - apply frame_password.
  - apply frame_write.
  - apply frame_flush.
  - apply frame_session_request.
Qed.

End ExecuteFrameRequests.

(** X1: executing a request, whatever its class and however it ends
    (returning, raising, or waiting), changes of the sessions only buffers
    and the [subsession] slot: no queue, worker slot, finish event,
    parent or configuration changes and no session appears or disappears;
    no promise changes except the request's own, and that one only if it
    was pending; nothing is allocated, no stream object appears or
    disappears, and the log only grows. *)
Theorem X1_execute_frame :
  forall (St : Type) (IOSt : IO St) (req : Request) (s : ref) (w : World St),
    let w' := exec (execute req s) w in
    frame (cfuture req) w w'
    /\ (forall f' y, promise w f' = Some y ->
         y <> Pending \/ f' <> cfuture req -> promise w' f' = Some y)
    /\ (forall s', pending_of w' s' = pending_of w s').
Proof.
  intros St IOSt req s w w'. subst w'. unfold exec.
  pose proof (frame_execute req s w) as Hfr.
  split; [exact Hfr |]. destruct Hfr as (Hs & Hp & _). split.
  - intros f' y Hy Hcase. unfold promise in *.
    destruct (Hp f') as [E | (-> & P & _)]; [now rewrite E |].
    destruct Hcase as [Hy' | Hne]; [| contradiction].
    rewrite P in Hy. injection Hy as <-. contradiction.
  - intros s'. unfold pending_of. specialize (Hs s').
    destruct (sessions w !! s'), (sessions (execute req s w).2 !! s');
      try contradiction; [| reflexivity].
    simpl. f_equal. apply Hs.
Qed.

(** ** The worker *)

Section Worker.

Context {St : Type} `{IO St}.

Implicit Types (w : World St) (s f : ref) (x : Session).

Lemma worker_frame_refl w : worker_frame w w.
Proof.
  split; [apply sessions_kept_refl, same_config_refl |].
  split; [apply settled_kept_refl | apply rest_kept_refl].
Qed.

Lemma worker_frame_trans w1 w2 w3 :
  worker_frame w1 w2 -> worker_frame w2 w3 -> worker_frame w1 w3.
Proof.
  intros (S1 & P1 & R1) (S2 & P2 & R2). split; [| split].
  - exact (sessions_kept_trans _ _ _ _ same_config_trans S1 S2).
  - exact (settled_kept_trans _ _ _ P1 P2).
  - exact (rest_kept_trans _ _ _ R1 R2).
Qed.

Lemma frame_worker_frame f w w' : frame f w w' -> worker_frame w w'.
Proof.
  intros (Hs & Hp & Hr). split; [| split; [| exact Hr]].
  - exact (sessions_kept_weaken _ _ _ _ same_settings_config Hs).
  - exact (promises_settled_kept f w w' Hp).
Qed.

Lemma settled_kept_eq w w' : futures w' = futures w -> settled_kept w w'.
Proof. intros E f'. rewrite E. destruct (futures w !! f') as [[| |]|]; eauto. Qed.

Lemma worker_update_session s (g : Session -> Session) :
  (forall x, same_config x (g x)) -> keeps (@worker_frame St) (update_session s g).
Proof.
  intros Hg w. unfold update_session.
  destruct (sessions w !! s) as [x|] eqn:Hs; simpl; [| apply worker_frame_refl].
  split; [| split].
  - exact (sessions_kept_update _ w s x (g x) same_config_refl Hs (Hg x)).
  - now apply settled_kept_eq.
  - now apply rest_kept_eq.
Qed.

Ltac worker_step :=
  first [ apply (keeps_get_session _ worker_frame_refl)
        | apply (keeps_ret _ worker_frame_refl)
        | apply (keeps_raise _ worker_frame_refl)
        | apply (keeps_stop _ worker_frame_refl)
        | apply (keeps_bind _ worker_frame_trans) ].

Lemma worker_execute (req : Request) s : keeps (@worker_frame St) (execute req s).
Proof. intros w. exact (frame_worker_frame _ _ _ (frame_execute req s w)). Qed.

Lemma worker_wait s : keeps (@worker_frame St) (Session_wait s).
Proof. intros w. exact (frame_worker_frame 0%nat _ _ (frame_wait 0%nat s w)). Qed.

Lemma worker_pending_pop s (wait : option Q) :
  keeps (@worker_frame St) (pending_pop s wait).
Proof.
  unfold pending_pop. worker_step; [worker_step |]. intros x.
  destruct (RequestQueue_pop wait (pending x)) as [[r | e | why] q']; try worker_step.
  - apply worker_update_session. intros x'. repeat split.
  - intros ?. worker_step.
Qed.

Lemma worker_wait_for_subsession (fuel : nat) s :
  keeps (@worker_frame St) (wait_for_subsession fuel s).
Proof.
  induction fuel as [|fuel IH]; simpl.
  - worker_step; [worker_step |]. intros x. destruct (subsession x); worker_step.
  - worker_step; [worker_step |]. intros x. destruct (subsession x); [| worker_step].
    worker_step; [apply worker_wait | intros ?; exact IH].
Qed.

Lemma worker_runner_loop (fuel : nat) s (req : option Request) :
  keeps (@worker_frame St) (runner_loop fuel s req).
Proof.
  revert req. induction fuel as [|fuel IH]; intros [r|]; simpl; try worker_step.
  - apply worker_execute.
  - intros ?. worker_step; [apply worker_pending_pop | intros req'; apply IH].
Qed.

Lemma worker_runner (fuel : nat) s : keeps (@worker_frame St) (_runner fuel s).
Proof.
  unfold _runner.
  worker_step; [apply worker_wait_for_subsession |]. intros ?.
  worker_step; [apply worker_pending_pop |]. intros req.
  worker_step; [apply worker_runner_loop |]. intros ?.
  apply worker_update_session. intros x. repeat split.
Qed.

Lemma bind_Ok_inv {A B : Type} (m : M St A) (k : A -> M St B) w (b : B) w' :
  bind m k w = (Ok b, w') ->
  exists a w1, m w = (Ok a, w1) /\ k a w1 = (Ok b, w').
Proof.
  unfold bind. destruct (m w) as [[a | e | why] w1]; try discriminate.
  intros Hk. now exists a, w1.
Qed.

(** A [pop] that returns no request leaves the queue empty. *)
Lemma pending_pop_returns w w' s (wait : option Q) (req : option Request) :
  pending_pop s wait w = (Ok req, w') ->
  exists x,
    sessions w !! s = Some x
    /\ w' = with_sessions (<[s := set_pending (snd (shift (pending x))) x]> (sessions w)) w
    /\ req = fst (shift (pending x))
    /\ (wait = None -> req <> None).
Proof.
  unfold pending_pop. intros Hpop.
  apply bind_Ok_inv in Hpop as (x & w1 & Hget & Hrest).
  unfold get_session in Hget. destruct (sessions w !! s) as [x0|] eqn:Hs; [| discriminate].
  injection Hget as -> ->. exists x. split; [reflexivity |].
  destruct (pending x) as [|r q] eqn:Hq.
  - destruct wait as [t|]; simpl in Hrest; [| discriminate].
    unfold bind, update_session, ret in Hrest. rewrite Hs in Hrest.
    injection Hrest as <- <-. repeat split. discriminate.
  - simpl in Hrest. unfold bind, update_session, ret in Hrest. rewrite Hs in Hrest.
    injection Hrest as <- <-. repeat split. discriminate.
Qed.

Lemma runner_loop_drains (fuel : nat) s (req : option Request) w w' :
  (req = None -> pending_of w s = Some []) ->
  runner_loop fuel s req w = (Ok tt, w') ->
  pending_of w' s = Some [].
Proof.
  revert req w. induction fuel as [|fuel IH]; intros [r|] w Hnone Hrun; simpl in Hrun.
  - discriminate.
  - injection Hrun as <-. now apply Hnone.
  - apply bind_Ok_inv in Hrun as ([] & w1 & _ & Hrun).
    apply bind_Ok_inv in Hrun as (req' & w2 & Hpop & Hrun).
    apply (IH req' w2); [| exact Hrun].
    intros ->. apply pending_pop_returns in Hpop as (x & Hs & -> & Hreq & _).
    unfold pending_of. simpl. rewrite lookup_insert_eq. simpl.
    destruct (pending x); [reflexivity | discriminate].
  - injection Hrun as <-. now apply Hnone.
Qed.

End Worker.

(** X2: a worker run, however it ends, never changes the parent, finish
    event, autoflush or streams of any session, creates or removes no
    session, changes no settled promise (a pending one may be settled, none
    is created or dropped), allocates nothing, and only adds to the log. *)
Theorem X2_worker_frame :
  forall (St : Type) (IOSt : IO St) (fuel : nat) (s : ref) (w : World St),
    let w' := exec (_runner fuel s) w in
    worker_frame w w'
    /\ (forall s' x, sessions w !! s' = Some x ->
        exists x', sessions w' !! s' = Some x' /\ same_config x x')
    /\ (forall f y, promise w f = Some y -> y <> Pending -> promise w' f = Some y).
Proof.
  intros St IOSt fuel s w w'. subst w'. unfold exec.
  pose proof (worker_runner fuel s w) as Hfr.
  split; [exact Hfr |]. destruct Hfr as (Hs & Hp & _). split.
  - intros s' x Hx. specialize (Hs s'). rewrite Hx in Hs.
    destruct (sessions (_runner fuel s w).2 !! s') as [x'|]; [| contradiction].
    now exists x'.
  - intros f y Hy Hne. unfold promise in *. specialize (Hp f). rewrite Hy in Hp.
    destruct y; [contradiction | exact Hp | exact Hp].
Qed.

(** ** The end of a worker run *)

Section WorkerEnd.

Context {St : Type} `{IO St}.

Implicit Types (w : World St) (s f : ref) (x : Session).

Lemma slot_kept_refl w : sessions_kept same_slot w w.
Proof. apply sessions_kept_refl. reflexivity. Qed.

Lemma slot_kept_trans w1 w2 w3 :
  sessions_kept same_slot w1 w2 -> sessions_kept same_slot w2 w3 ->
  sessions_kept same_slot w1 w3.
Proof.
  apply sessions_kept_trans. unfold same_slot. intros x1 x2 x3 H12 H23. congruence.
Qed.

Lemma slot_frame f w w' : frame f w w' -> sessions_kept same_slot w w'.
Proof.
  intros (Hs & _). refine (sessions_kept_weaken _ _ _ _ _ Hs).
  intros x x' Hx. apply Hx.
Qed.

Lemma slot_pending_pop s (wait : option Q) :
  keeps (@sessions_kept St same_slot) (pending_pop s wait).
Proof.
  unfold pending_pop.
  apply (keeps_bind _ slot_kept_trans); [apply (keeps_get_session _ slot_kept_refl) |].
  intros x.
  destruct (RequestQueue_pop wait (pending x)) as [[r | e | why] q'].
  - apply (keeps_bind _ slot_kept_trans); [| intros ?; apply (keeps_ret _ slot_kept_refl)].
    intros w. unfold update_session.
    destruct (sessions w !! s) as [x0|] eqn:Hs; simpl; [| apply slot_kept_refl].
    refine (sessions_kept_update _ w s x0 _ _ Hs _); reflexivity.
  - apply (keeps_raise _ slot_kept_refl).
  - apply (keeps_stop _ slot_kept_refl).
Qed.

Lemma slot_wait_for_subsession (fuel : nat) s :
  keeps (@sessions_kept St same_slot) (wait_for_subsession fuel s).
Proof.
  induction fuel as [|fuel IH]; simpl;
    (apply (keeps_bind _ slot_kept_trans); [apply (keeps_get_session _ slot_kept_refl) |]);
    intros x; destruct (subsession x);
    try apply (keeps_ret _ slot_kept_refl); try apply (keeps_stop _ slot_kept_refl).
  apply (keeps_bind _ slot_kept_trans); [| intros ?; exact IH].
  intros w. exact (slot_frame 0%nat _ _ (frame_wait 0%nat r w)).
Qed.

Lemma slot_runner_loop (fuel : nat) s (req : option Request) :
  keeps (@sessions_kept St same_slot) (runner_loop fuel s req).
Proof.
  revert req. induction fuel as [|fuel IH]; intros [r|]; simpl;
    try apply (keeps_ret _ slot_kept_refl); try apply (keeps_stop _ slot_kept_refl).
  apply (keeps_bind _ slot_kept_trans).
  - intros w. exact (slot_frame _ _ _ (frame_execute r s w)).
  - intros ?. apply (keeps_bind _ slot_kept_trans); [apply slot_pending_pop |].
    intros req'. apply IH.
Qed.

Lemma slot_until_idle (fuel : nat) s :
  keeps (@sessions_kept St same_slot) (_runner_until_idle fuel s).
Proof.
  unfold _runner_until_idle.
  apply (keeps_bind _ slot_kept_trans); [apply slot_wait_for_subsession |]. intros ?.
  apply (keeps_bind _ slot_kept_trans); [apply slot_pending_pop |]. intros req.
  apply slot_runner_loop.
Qed.

(** [_runner] is its two parts in a row. *)
Lemma runner_split (fuel : nat) s w :
  _runner fuel s w = (do _ <- _runner_until_idle fuel s; _runner_finish s) w.
Proof.
  unfold _runner, _runner_until_idle, _runner_finish, bind.
  destruct (wait_for_subsession fuel s w) as [[[] | e | why] w1]; try reflexivity.
  destruct (pending_pop s None w1) as [[req | e | why] w2]; reflexivity.
Qed.

(** When the first part returns, the queue is empty. *)
Lemma until_idle_drained (fuel : nat) s w w1 :
  _runner_until_idle fuel s w = (Ok tt, w1) -> pending_of w1 s = Some [].
Proof.
  intros Hrun. unfold _runner_until_idle in Hrun.
  apply bind_Ok_inv in Hrun as ([] & w2 & _ & Hrun).
  apply bind_Ok_inv in Hrun as (req & w3 & Hpop & Hloop).
  apply pending_pop_returns in Hpop as (x & _ & _ & _ & Hsome).
  apply (runner_loop_drains fuel s req w3 w1); [| exact Hloop].
  intros ->. now destruct (Hsome eq_refl).
Qed.

Lemma late_commit (fuel : nat) s w w1 x (req : Request) :
  sessions w !! s = Some x -> _thread x = true ->
  _runner_until_idle fuel s w = (Ok tt, w1) ->
  exists x1,
    sessions w1 !! s = Some x1 /\ pending x1 = [] /\ _thread x1 = true
    /\ _runner fuel s w
       = (Ok tt, with_sessions (<[s := set_thread false x1]> (sessions w1)) w1)
    /\ _commit s req w1
       = (Ok (cfuture req), with_sessions (<[s := set_pending [req] x1]> (sessions w1)) w1)
    /\ (do _ <- _runner_until_idle fuel s; do _ <- _commit s req; _runner_finish s) w
       = (Ok tt,
          with_sessions (<[s := set_thread false (set_pending [req] x1)]> (sessions w1)) w1).
Proof.
  intros Hs Ht Hrun.
  pose proof (until_idle_drained fuel s w w1 Hrun) as Hq.
  pose proof (slot_until_idle fuel s w s) as Hslot.
  rewrite Hrun, Hs in Hslot. simpl in Hslot. unfold pending_of in Hq.
  destruct (sessions w1 !! s) as [x1|] eqn:Hs1; [| contradiction].
  injection Hq as Hq. unfold same_slot in Hslot. rewrite Ht in Hslot.
  assert (Hcommit : _commit s req w1
                    = (Ok (cfuture req),
                       with_sessions (<[s := set_pending [req] x1]> (sessions w1)) w1)).
  { rewrite (commit_queues w1 s x1 req Hs1), Hq. simpl.
    now rewrite (set_thread_installed (set_pending [req] x1) Hslot). }
  exists x1. split; [reflexivity |]. split; [exact Hq |]. split; [exact Hslot |].
  split; [| split; [exact Hcommit |]].
  - rewrite runner_split, (bind_Ok _ _ _ _ _ Hrun). unfold _runner_finish.
    now rewrite (update_session_Some _ _ _ _ Hs1).
  - rewrite (bind_Ok _ _ _ _ _ Hrun), (bind_Ok _ _ _ _ _ Hcommit). unfold _runner_finish.
    erewrite update_session_Some by apply lookup_insert_eq.
    unfold with_sessions. simpl. now rewrite insert_insert_eq.
Qed.

End WorkerEnd.

(** X3: the end of a worker run.  [_runner] is its run up to the last
    timed-out [pop] followed by the clearing of the worker slot, and no
    lock spans the two.  On a session whose slot is taken, when the first
    part returns the queue is empty and the slot still taken.  If nothing
    happens in between, the run returns with the queue empty and the slot
    cleared.  If a request is committed in between, [_commit] installs no
    worker, the worker clears the slot and returns all the same, and the
    request stays queued on a session without worker. *)
Theorem X3_worker_end_and_late_commit :
  forall (St : Type) (IOSt : IO St) (fuel : nat) (s : ref) (w w1 : World St)
         (x : Session) (req : Request),
    sessions w !! s = Some x ->
    _thread x = true ->
    _runner_until_idle fuel s w = (Ok tt, w1) ->
    (forall w0 : World St,
        _runner fuel s w0 = (do _ <- _runner_until_idle fuel s; _runner_finish s) w0)
    /\ exists x1,
         sessions w1 !! s = Some x1 /\ pending x1 = [] /\ _thread x1 = true
         /\ _runner fuel s w
            = (Ok tt, with_sessions (<[s := set_thread false x1]> (sessions w1)) w1)
         /\ _commit s req w1
            = (Ok (cfuture req),
               with_sessions (<[s := set_pending [req] x1]> (sessions w1)) w1)
         /\ (do _ <- _runner_until_idle fuel s; do _ <- _commit s req; _runner_finish s) w
            = (Ok tt,
               with_sessions
                 (<[s := set_thread false (set_pending [req] x1)]> (sessions w1)) w1).
Proof.
  intros St IOSt fuel s w w1 x req Hs Ht Hrun.
  split; [intros w0; apply runner_split |].
  exact (late_commit fuel s w w1 x req Hs Ht Hrun).
Qed.

(** ** Writes in queue order *)

Lemma str_app_empty_r (a : string) : a +:+ "" = a.
Proof. induction a as [|c a IH]; [reflexivity | now rewrite app_cons, IH]. Qed.

(** A stream that accepts text takes the message at the end of what it
    holds, and keeps it over a flush. *)
Lemma accepts_write (st : PyStream) (msg : string) (af : bool) :
  accepts_text st ->
  exists v st1 st2,
    io_write msg st = (Ok v, st1)
    /\ (if af then io_flush st1 else (Ok tt, st1)) = (Ok tt, st2)
    /\ accepts_text st2
    /\ contents st2 = contents st +:+ msg.
Proof.
  destruct st as [b | b | [] r u fl]; simpl; try contradiction; intros _.
  - exists VNone, (SimStdout (b +:+ msg)), (SimStdout (b +:+ msg)).
    destruct af; repeat split.
  - destruct af.
    + exists (VInt (Z.of_nat (String.length msg))), (TextIO false r (u +:+ msg) fl),
        (TextIO false r "" (fl +:+ u +:+ msg)).
      repeat split. simpl. now rewrite str_app_empty_r, str_app_assoc.
    + exists (VInt (Z.of_nat (String.length msg))), (TextIO false r (u +:+ msg) fl),
        (TextIO false r (u +:+ msg) fl).
      repeat split. simpl. now rewrite str_app_assoc.
Qed.

Lemma pending_pop_nonblocking {St : Type} (w : World St) (s : ref) (x : Session)
    (wait : option Q) :
  sessions w !! s = Some x ->
  (wait = None -> pending x <> []) ->
  pending_pop s wait w
  = (Ok (fst (shift (pending x))),
     with_sessions (<[s := set_pending (snd (shift (pending x))) x]> (sessions w)) w).
Proof.
  intros Hs Hw. unfold pending_pop.
  rewrite (bind_Ok _ _ _ _ _ (get_session_Some _ _ _ Hs)).
  destruct (pending x) as [|r q] eqn:Hq.
  - destruct wait as [t|]; [| now destruct (Hw eq_refl)]. simpl.
    now rewrite (bind_Ok _ _ _ _ _ (update_session_Some _ _ _ _ Hs)).
  - simpl. now rewrite (bind_Ok _ _ _ _ _ (update_session_Some _ _ _ _ Hs)).
Qed.

Lemma cfuture_fresh (f : ref) (l : list Request) :
  f ∉ map cfuture l -> forall req, req ∈ l -> f <> cfuture req.
Proof.
  intros Hfresh req Hin Heq. apply Hfresh. rewrite Heq.
  apply list_elem_of_In, in_map, list_elem_of_In, Hin.
Qed.

Lemma runner_loop_writes (s : ref) (q : list Request) :
  forall (fuel : nat) (r : Request) (w : World PyStream) (x : Session) (st : PyStream),
    (length q < fuel)%nat ->
    sessions w !! s = Some x -> pending x = q ->
    streams w !! stdout x = Some st -> accepts_text st ->
    Forall is_output_write (r :: q) ->
    NoDup (map cfuture (r :: q)) ->
    Forall (fun req => futures w !! cfuture req = Some Pending) (r :: q) ->
    exists w' st',
      runner_loop fuel s (Some r) w = (Ok tt, w')
      /\ sessions w' !! s = Some (set_pending [] x)
      /\ streams w' !! stdout x = Some st'
      /\ accepts_text st'
      /\ contents st' = contents st +:+ messages (r :: q)
      /\ Forall (fun req => exists v, futures w' !! cfuture req = Some (Resolved v))
           (r :: q).
Proof.
  induction q as [|r' q' IH]; intros fuel r w x st Hfuel Hs Hq Hst Hacc Hout Hnd Hpend;
    (destruct fuel as [|fuel]; [lia |]);
    apply Forall_cons in Hout as [Hr Hout];
    (destruct r as [| | | | f msg af [] | |]; try contradiction);
    apply Forall_cons in Hpend as [Hf Hpend];
    rewrite map_cons in Hnd; apply NoDup_cons in Hnd as [Hfresh Hnd];
    simpl in Hfresh, Hf;
    destruct (accepts_write st msg af Hacc) as (v & st1 & st2 & Hwr & Hfl & Hacc2 & Hcont);
    destruct (write_execute_returns w s f x msg af false st st1 st2 v Hs Hf Hst Hwr Hfl)
      as (w1 & Hex & _ & Hio & _ & Hsess & Hfut);
    cbn [runner_loop];
    change (execute (WriteRequest f msg af false) s)
      with (WriteRequest_execute (St := PyStream) f msg af false s);
    rewrite (bind_Ok _ _ _ _ _ Hex);
    assert (Hs1 : sessions w1 !! s = Some x) by (rewrite Hsess; exact Hs);
    rewrite (bind_Ok _ _ _ _ _
               (pending_pop_nonblocking w1 s x (Some (1 # 100)%Q) Hs1 ltac:(discriminate)));
    rewrite Hq; cbn [shift fst snd].
  - exists (with_sessions (<[s := set_pending [] x]> (sessions w1)) w1), st2.
    split; [now destruct fuel |].
    split; [apply lookup_insert_eq |].
    split; [exact Hio |]. split; [exact Hacc2 |].
    split; [simpl; now rewrite str_app_empty_r |].
    apply Forall_cons. split; [| constructor].
    exists v. simpl. rewrite Hfut. apply lookup_insert_eq.
  - set (w2 := with_sessions (<[s := set_pending q' x]> (sessions w1)) w1).
    assert (Hpend2 : Forall (fun req => futures w2 !! cfuture req = Some Pending) (r' :: q')).
    { apply Forall_forall. intros req Hin.
      pose proof (cfuture_fresh f (r' :: q') Hfresh req Hin) as Hne.
      simpl. rewrite Hfut, lookup_insert_ne by exact Hne.
      exact (proj1 (Forall_forall _ _) Hpend req Hin). }
    destruct (IH fuel r' w2 (set_pending q' x) st2 ltac:(simpl in Hfuel; lia)
                (lookup_insert_eq _ _ _) eq_refl Hio Hacc2 Hout Hnd Hpend2)
      as (w' & st' & Hrun & Hs' & Hst' & Hacc' & Hcont' & Hres).
    exists w', st'.
    split; [exact Hrun |]. split; [exact Hs' |]. split; [exact Hst' |].
    split; [exact Hacc' |].
    split; [rewrite Hcont', Hcont; simpl; now rewrite str_app_assoc |].
    apply Forall_cons. split; [| exact Hres].
    exists v.
    pose proof (worker_runner_loop fuel s (Some r') w2) as (_ & Hsettled & _).
    specialize (Hsettled f). rewrite Hrun in Hsettled. simpl in Hsettled.
    rewrite Hfut, lookup_insert_eq in Hsettled. exact Hsettled.
Qed.

Lemma worker_writes :
  forall (fuel : nat) (s : ref) (w : World PyStream) (x : Session) (st : PyStream),
    sessions w !! s = Some x ->
    subsession x = None ->
    pending x <> [] ->
    (length (pending x) <= fuel)%nat ->
    streams w !! stdout x = Some st ->
    accepts_text st ->
    Forall is_output_write (pending x) ->
    NoDup (map cfuture (pending x)) ->
    Forall (fun req => promise w (cfuture req) = Some Pending) (pending x) ->
    exists w' st',
      _runner fuel s w = (Ok tt, w')
      /\ streams w' !! stdout x = Some st'
      /\ contents st' = contents st +:+ messages (pending x)
      /\ Forall (fun req => exists v, promise w' (cfuture req) = Some (Resolved v))
           (pending x)
      /\ sessions w' !! s = Some (set_thread false (set_pending [] x)).
Proof.
  intros fuel s w x st Hs Hsub Hne Hfuel Hst Hacc Hout Hnd Hpend.
  destruct (pending x) as [|r q] eqn:Hq; [contradiction |].
  set (w2 := with_sessions (<[s := set_pending q x]> (sessions w)) w).
  destruct (runner_loop_writes s q fuel r w2 (set_pending q x) st
              ltac:(simpl in Hfuel; lia) (lookup_insert_eq _ _ _) eq_refl
              Hst Hacc Hout Hnd Hpend)
    as (w3 & st' & Hloop & Hs3 & Hst' & _ & Hcont & Hres).
  exists (with_sessions (<[s := set_thread false (set_pending [] x)]> (sessions w3)) w3), st'.
  split.
  { unfold _runner.
    assert (Hwait : wait_for_subsession fuel s w = (Ok tt, w)).
    { destruct fuel; simpl;
        rewrite (bind_Ok _ _ _ _ _ (get_session_Some _ _ _ Hs)), Hsub; reflexivity. }
    rewrite (bind_Ok _ _ _ _ _ Hwait).
    rewrite (bind_Ok _ _ _ _ _
               (pending_pop_nonblocking w s x None Hs ltac:(intros _; congruence))).
    rewrite Hq. cbn [shift fst snd]. fold w2.
    rewrite (bind_Ok _ _ _ _ _ Hloop).
    now rewrite (update_session_Some _ _ _ _ Hs3). }
  split; [exact Hst' |]. split; [exact Hcont |]. split; [exact Hres |].
  apply lookup_insert_eq.
Qed.

(** X4: writes reach the stream in queue order.  A session without open
    subsession holds a queue of write requests for its output stream, with
    distinct pending promises, and the stream accepts text.  One worker run
    with a turn for each request returns; the stream then holds what it
    held followed by the messages in queue order, every promise is
    resolved, the queue is empty and the worker slot cleared. *)
Theorem X4_worker_writes_in_queue_order :
  forall (fuel : nat) (s : ref) (w : World PyStream) (x : Session) (st : PyStream),
    sessions w !! s = Some x ->
    subsession x = None ->
    pending x <> [] ->
    (length (pending x) <= fuel)%nat ->
    streams w !! stdout x = Some st ->
    accepts_text st ->
    Forall is_output_write (pending x) ->
    NoDup (map cfuture (pending x)) ->
    Forall (fun req => promise w (cfuture req) = Some Pending) (pending x) ->
    exists w' st',
      _runner fuel s w = (Ok tt, w')
      /\ streams w' !! stdout x = Some st'
      /\ contents st' = contents st +:+ messages (pending x)
      /\ Forall (fun req => exists v, promise w' (cfuture req) = Some (Resolved v))
           (pending x)
      /\ sessions w' !! s = Some (set_thread false (set_pending [] x)).
Proof.
  intros fuel s w x st Hs Hsub Hne Hfuel Hst Hacc Hout Hnd Hpend.
  now apply worker_writes.
Qed.

(** ** Submission order *)

Lemma commit_all_queues {St : Type} (reqs : list Request) :
  forall (w : World St) (s : ref) (x : Session),
    sessions w !! s = Some x ->
    exists x',
      commit_all s reqs w = (Ok tt, with_sessions (<[s := x']> (sessions w)) w)
      /\ pending x' = (pending x ++ reqs)%list
      /\ _thread x' = match reqs with [] => _thread x | _ :: _ => true end
      /\ same_config x x'
      /\ buffer x' = buffer x /\ subsession x' = subsession x.
Proof.
  induction reqs as [|req reqs IH]; intros w s x Hs.
  - exists x. simpl. unfold ret. rewrite insert_id by exact Hs.
    rewrite app_nil_r. destruct w; repeat split.
  - cbn [commit_all]. rewrite (bind_Ok _ _ _ _ _ (commit_queues w s x req Hs)).
    set (x1 := set_thread true (set_pending (pending x ++ [req])%list x)).
    set (w1 := with_sessions (<[s := x1]> (sessions w)) w).
    destruct (IH w1 s x1 (lookup_insert_eq _ _ _)) as (x' & Hrun & Hq & Ht & Hc & Hb & Hsub).
    exists x'. split.
    { rewrite Hrun. unfold w1, with_sessions. simpl. now rewrite insert_insert_eq. }
    split; [rewrite Hq; simpl; now rewrite <- app_assoc |].
    split; [rewrite Ht; now destruct reqs |].
    split; [| split; assumption].
    unfold same_config in *. simpl in Hc. exact Hc.
Qed.

(** X5: requests committed to a session one after the other stand in its
    queue in that order, behind what was queued before; a worker is
    installed as soon as one request is committed; buffer, subsession,
    configuration, the other sessions, the promises and the streams are
    untouched. *)
Theorem X5_commit_keeps_submission_order :
  forall (St : Type) (IOSt : IO St) (w : World St) (s : ref) (x : Session)
         (reqs : list Request),
    sessions w !! s = Some x ->
    exists (w' : World St) (x' : Session),
      commit_all s reqs w = (Ok tt, w')
      /\ sessions w' !! s = Some x'
      /\ pending x' = (pending x ++ reqs)%list
      /\ (reqs <> [] -> _thread x' = true)
      /\ same_config x x'
      /\ buffer x' = buffer x /\ subsession x' = subsession x
      /\ (forall s', s' <> s -> sessions w' !! s' = sessions w !! s')
      /\ futures w' = futures w /\ streams w' = streams w /\ log w' = log w.
Proof.
  intros St IOSt w s x reqs Hs.
  destruct (commit_all_queues reqs w s x Hs) as (x' & Hrun & Hq & Ht & Hc & Hb & Hsub).
  exists (with_sessions (<[s := x']> (sessions w)) w), x'.
  split; [exact Hrun |]. split; [apply lookup_insert_eq |].
  split; [exact Hq |].
  split; [intros Hne; rewrite Ht; now destruct reqs |].
  split; [exact Hc |]. split; [exact Hb |]. split; [exact Hsub |].
  split; [intros s' Hne; simpl; now rewrite lookup_insert_ne by congruence |].
  repeat split.
Qed.

(** ** Calls of [write] and one worker run *)

Lemma requests_of_output (n : ref) (af0 : bool) (calls : list write_call) :
  Forall is_output_write (requests_of n af0 calls).
Proof.
  revert n; induction calls as [|c rest IH]; intros n; simpl; constructor;
    [exact I | apply IH].
Qed.

Lemma requests_of_futures (n : ref) (af0 : bool) (calls : list write_call) :
  map cfuture (requests_of n af0 calls) = seq n (length calls).
Proof.
  revert n; induction calls as [|c rest IH]; intros n; simpl; [reflexivity |].
  now rewrite IH.
Qed.

Lemma requests_of_messages (n : ref) (af0 : bool) (calls : list write_call) :
  messages (requests_of n af0 calls) = text_of calls.
Proof.
  revert n; induction calls as [|c rest IH]; intros n; simpl; [reflexivity |].
  now rewrite IH.
Qed.

Lemma write_all_queues {St : Type} (s : ref) (calls : list write_call) :
  forall (w : World St) (x : Session),
    sessions w !! s = Some x ->
    exists w1 x1,
      write_all s calls w = (Ok tt, w1)
      /\ sessions w1 !! s = Some x1
      /\ pending x1 = (pending x ++ requests_of (next_ref w) (autoflush x) calls)%list
      /\ subsession x1 = subsession x
      /\ stdout x1 = stdout x
      /\ streams w1 = streams w
      /\ Forall (fun req => futures w1 !! cfuture req = Some Pending)
           (requests_of (next_ref w) (autoflush x) calls)
      /\ (forall k, (k < next_ref w)%nat -> futures w1 !! k = futures w !! k).
Proof.
  induction calls as [|[[data sep] af] rest IH]; intros w x Hs.
  - exists w, x. simpl. rewrite app_nil_r. repeat split; [exact Hs | constructor].
  - cbn [write_all].
    pose proof (write_queues w s x data sep None af false Hs) as Hcall.
    cbv zeta in Hcall. cbn [or_else] in Hcall.
    rewrite (bind_Ok _ _ _ _ _ Hcall).
    match type of Hcall with _ = (_, ?w0) => set (w1 := w0) end.
    match goal with
    | _ : sessions w !! s = Some x |- _ =>
        set (x1 := set_thread true
                     (set_pending
                        (pending x ++
                           [WriteRequest (next_ref w)
                              (String.concat (or_else sep " ") (map str data))
                              (or_else af (autoflush x)) false])%list x))
    end.
    destruct (IH w1 x1 (lookup_insert_eq _ _ _))
      as (w2 & x2 & Hrun & Hs2 & Hq & Hsub & Hout & Hstr & Hpend & Hold).
    exists w2, x2. split; [exact Hrun |]. split; [exact Hs2 |].
    split; [rewrite Hq; simpl; now rewrite <- app_assoc |].
    split; [exact Hsub |]. split; [exact Hout |]. split; [exact Hstr |].
    split.
    + simpl. constructor; [| exact Hpend].
      simpl. rewrite Hold by (simpl; lia). simpl. apply lookup_insert_eq.
    + intros k Hk. rewrite Hold by (simpl; lia). simpl.
      apply lookup_insert_ne. lia.
Qed.

Lemma writes_then_worker (s : ref) (calls : list write_call)
    (w : World PyStream) (x : Session) (st : PyStream) :
  sessions w !! s = Some x ->
  pending x = [] ->
  subsession x = None ->
  calls <> [] ->
  streams w !! stdout x = Some st ->
  accepts_text st ->
  exists w' st',
    (do _ <- write_all s calls; _runner (length calls) s) w = (Ok tt, w')
    /\ streams w' !! stdout x = Some st'
    /\ contents st' = contents st +:+ text_of calls
    /\ pending_of w' s = Some []
    /\ (forall k, (next_ref w <= k < next_ref w + length calls)%nat ->
        exists v, promise w' k = Some (Resolved v)).
Proof.
  intros Hs Hq Hsub Hne Hst Hacc.
  destruct (write_all_queues s calls w x Hs)
    as (w1 & x1 & Hrun & Hs1 & Hq1 & Hsub1 & Hout1 & Hstr1 & Hpend1 & _).
  rewrite Hq in Hq1. simpl in Hq1.
  assert (Hlen : length (pending x1) = length calls).
  { rewrite Hq1, <- (length_map cfuture), requests_of_futures. apply length_seq. }
  destruct (worker_writes (length calls) s w1 x1 st Hs1) as (w' & st' & Hwork & Hst' & Hcont & Hres & Hs').
  - congruence.
  - rewrite Hq1. destruct calls; [contradiction | discriminate].
  - lia.
  - now rewrite Hout1, Hstr1.
  - exact Hacc.
  - rewrite Hq1. apply requests_of_output.
  - rewrite Hq1, requests_of_futures. apply NoDup_seq.
  - rewrite Hq1. exact Hpend1.
  - exists w', st'. rewrite (bind_Ok _ _ _ _ _ Hrun).
    split; [exact Hwork |]. split; [now rewrite <- Hout1 |].
    split; [now rewrite Hcont, Hq1, requests_of_messages |].
    split; [unfold pending_of; now rewrite Hs' |].
    intros k Hk.
    assert (Hin : In k (map cfuture (pending x1))).
    { rewrite Hq1, requests_of_futures. apply in_seq. lia. }
    apply in_map_iff in Hin as (req & <- & Hreq).
    apply list_elem_of_In in Hreq.
    exact (proj1 (Forall_forall _ _) Hres req Hreq).
Qed.

(** X6: calls of [write] on the output stream, made one after the other on
    a session with an empty queue and no open subsession, followed by one
    worker run with a turn for each call: the run returns, and the stream,
    if it accepts text, holds what it held followed by the joined messages
    in call order; the queue is empty again and the promise of every call
    is resolved. *)
Theorem X6_writes_appear_in_call_order :
  forall (s : ref) (calls : list write_call) (w : World PyStream) (x : Session)
         (st : PyStream),
    sessions w !! s = Some x ->
    pending x = [] ->
    subsession x = None ->
    calls <> [] ->
    streams w !! stdout x = Some st ->
    accepts_text st ->
    exists w' st',
      (do _ <- write_all s calls; _runner (length calls) s) w = (Ok tt, w')
      /\ streams w' !! stdout x = Some st'
      /\ contents st' = contents st +:+ text_of calls
      /\ pending_of w' s = Some []
      /\ (forall k, (next_ref w <= k < next_ref w + length calls)%nat ->
          exists v, promise w' k = Some (Resolved v)).
Proof.
  intros s calls w x st Hs Hq Hsub Hne Hst Hacc.
  now apply writes_then_worker.
Qed.

(** ** Subsessions *)

Section Subsessions.

Context {St : Type} `{IO St}.

Implicit Types (w : World St) (s f : ref) (x : Session).

Lemma session_request_runs w s (sub : ref) f x (c : Session) :
  sessions w !! s = Some x ->
  sessions w !! sub = Some c ->
  s <> sub ->
  futures w !! f = Some Pending ->
  let opened :=
    with_futures (<[f := Resolved (VSession sub)]> (futures w))
      (with_sessions (<[s := set_subsession (Some sub) x]> (sessions w)) w) in
  execute (SessionRequest f sub) s w =
  if _finish_event c
  then (Ok tt, with_sessions (<[s := set_subsession None x]> (sessions opened)) opened)
  else (Abort Blocked, opened).
Proof.
  intros Hs Hc Hne Hf opened. simpl. unfold SessionRequest_execute.
  rewrite (bind_Ok _ _ _ _ _ (update_session_Some _ _ _ _ Hs)).
  unfold set_result at 1.
  rewrite (bind_Ok _ _ _ _ _
             (settle_Pending
                (with_sessions (<[s := set_subsession (Some sub) x]> (sessions w)) w)
                f _ Hf)).
  fold opened.
  assert (Hc' : sessions opened !! sub = Some c)
    by (simpl; now rewrite lookup_insert_ne by exact Hne).
  assert (Hs' : sessions opened !! s = Some (set_subsession (Some sub) x))
    by (simpl; apply lookup_insert_eq).
  unfold Session_wait.
  destruct (_finish_event c) eqn:Hfin.
  - assert (Hwait : (do x0 <- get_session sub;
                     if _finish_event x0 then ret tt else stop Blocked) opened
                    = (Ok tt, opened)).
    { rewrite (bind_Ok _ _ _ _ _ (get_session_Some _ _ _ Hc')). now rewrite Hfin. }
    rewrite (bind_Ok _ _ _ _ _ Hwait).
    rewrite (update_session_Some _ _ _ _ Hs').
    unfold with_sessions. simpl. now rewrite !insert_insert_eq.
  - apply bind_Abort.
    rewrite (bind_Ok _ _ _ _ _ (get_session_Some _ _ _ Hc')). now rewrite Hfin.
Qed.

End Subsessions.

(** X7: the open-subsession request.  When the worker of [s] executes it,
    the promise is resolved with the child before the worker waits.  While
    the child is open the worker is blocked with the child registered as
    the subsession of [s]: the child can be entered, and once it is closed
    [wait()] on it returns.  If the child is already closed the request
    returns at once and the subsession slot is empty again. *)
Theorem X7_subsession_request :
  forall (St : Type) (IOSt : IO St) (w : World St) (s sub f : ref) (x c : Session),
    sessions w !! s = Some x ->
    sessions w !! sub = Some c ->
    parent c = Some s ->
    sub <> _session w ->
    s <> sub ->
    promise w f = Some Pending ->
    let w' := exec (execute (SessionRequest f sub) s) w in
    promise w' f = Some (Resolved (VSession sub))
    /\ (_finish_event c = false ->
        result (execute (SessionRequest f sub) s) w = Abort Blocked
        /\ (subsession <$> sessions w' !! s) = Some (Some sub)
        /\ Session_enter sub w' = (Ok sub, w')
        /\ result (Session_wait sub) (exec (Session_close sub) w') = Ok tt)
    /\ (_finish_event c = true ->
        result (execute (SessionRequest f sub) s) w = Ok tt
        /\ (subsession <$> sessions w' !! s) = Some None).
Proof.
  intros St IOSt w s sub f x c Hs Hc Hpar Hroot Hne Hf w'.
  pose proof (session_request_runs w s sub f x c Hs Hc Hne Hf) as Hrun.
  cbv zeta in Hrun. unfold w', exec, result, promise.
  destruct (_finish_event c) eqn:Hfin; rewrite Hrun; simpl.
  - split; [apply lookup_insert_eq |]. split; [discriminate |].
    intros _. split; [reflexivity |]. now rewrite lookup_insert_eq.
  - split; [apply lookup_insert_eq |]. split; [| discriminate].
    intros _. split; [reflexivity |].
    split; [now rewrite lookup_insert_eq |].
    set (opened := with_futures _ _).
    assert (Hc' : sessions opened !! sub = Some c)
      by (simpl; now rewrite lookup_insert_ne by exact Hne).
    assert (Hs' : sessions opened !! s = Some (set_subsession (Some sub) x))
      by (simpl; apply lookup_insert_eq).
    split.
    + rewrite (enter_child opened sub c s _ Hroot Hc' Hpar Hs').
      unfold is_subsession_of. simpl. now rewrite Nat.eqb_refl.
    + rewrite (close_child opened sub c Hroot Hc'). simpl.
      unfold Session_wait, bind, get_session. simpl.
      now rewrite lookup_insert_eq.
Qed.

(** ** Failures of a write, and the hidden input *)

Section WriteFailures.

Context {St : Type} `{IO St}.

Implicit Types (w : World St) (s f : ref) (x : Session).

Lemma write_raises w s f x (msg : string) (af err : bool) (st st1 : St) (e : exn) :
  sessions w !! s = Some x ->
  futures w !! f = Some Pending ->
  streams w !! selected err x = Some st ->
  io_write msg st = (Raise e, st1) ->
  let io := selected err x in
  let w1 := with_stream_call io st1 (EvWrite io msg) w in
  execute (WriteRequest f msg af err) s w =
  if is_KeyboardInterrupt e then (Raise e, w1)
  else (Ok tt, with_futures (<[f := Rejected e]> (futures w)) w1).
Proof.
  intros Hs Hf Hst Hwr io w1. simpl.
  rewrite (write_execute_unfold w s f x msg af err st st1 (Raise e) Hs Hst Hwr).
  fold io w1. destruct (is_KeyboardInterrupt e) eqn:He.
  - unfold except_clauses. now rewrite He.
  - now rewrite except_clauses_ordinary.
Qed.

Lemma flush_raises w s f x (msg : string) (err : bool) (st st1 st2 : St)
    (v : value) (e : exn) :
  sessions w !! s = Some x ->
  futures w !! f = Some Pending ->
  streams w !! selected err x = Some st ->
  io_write msg st = (Ok v, st1) ->
  io_flush st1 = (Raise e, st2) ->
  let io := selected err x in
  let w2 := with_stream_call io st2 (EvFlush io)
              (with_stream_call io st1 (EvWrite io msg) w) in
  execute (WriteRequest f msg true err) s w =
  if is_KeyboardInterrupt e then (Raise e, w2)
  else (Ok tt, with_futures (<[f := Rejected e]> (futures w)) w2).
Proof.
  intros Hs Hf Hst Hwr Hfl io w2. simpl.
  rewrite (write_execute_unfold w s f x msg true err st st1 (Ok v) Hs Hst Hwr).
  fold io. set (w1 := with_stream_call io st1 (EvWrite io msg) w).
  assert (Hst1 : streams w1 !! io = Some st1) by apply lookup_insert_eq.
  pose proof (stream_call_Some w1 io (EvFlush io) io_flush st1 st2 (Raise e) Hst1 Hfl)
    as Hcall.
  fold w2 in Hcall.
  assert (Hbody : (do _ <- stream_flush io; set_result f v) w1 = (Raise e, w2))
    by (unfold stream_flush; now apply bind_Raise).
  rewrite (try_except_Raise _ _ _ _ _ Hbody).
  destruct (is_KeyboardInterrupt e) eqn:He.
  - unfold except_clauses. now rewrite He.
  - now rewrite except_clauses_ordinary.
Qed.

Lemma password_runs w s f x (prompt : string) (st st' : St) (o : outcome string) :
  sessions w !! s = Some x ->
  futures w !! f = Some Pending ->
  streams w !! stderr x = Some st ->
  io_getpass prompt st = (o, st') ->
  let w1 := with_stream_call (stderr x) st' (EvGetpass (stderr x) prompt) w in
  execute (PasswordRequest f prompt) s w =
  match o with
  | Ok pw => (Ok tt, with_futures (<[f := Resolved (VStr pw)]> (futures w)) w1)
  | Raise e =>
      if is_KeyboardInterrupt e then (Raise e, w1)
      else (Ok tt, with_futures (<[f := Rejected e]> (futures w)) w1)
  | Abort why => (Abort why, w1)
  end.
Proof.
  intros Hs Hf Hst Hgp w1. simpl. unfold PasswordRequest_execute.
  pose proof (stream_call_Some w (stderr x) (EvGetpass (stderr x) prompt)
                (io_getpass prompt) st st' o Hst Hgp) as Hcall.
  fold w1 in Hcall.
  destruct o as [pw | e | why].
  - apply try_except_Ok.
    rewrite (bind_Ok _ _ _ _ _ (get_session_Some _ _ _ Hs)).
    unfold getpass. rewrite (bind_Ok _ _ _ _ _ Hcall).
    unfold set_result. now rewrite settle_Pending.
  - assert (Hbody : (do x0 <- get_session s;
                     do pw <- getpass prompt (stderr x0);
                     set_result f (VStr pw)) w = (Raise e, w1)).
    { rewrite (bind_Ok _ _ _ _ _ (get_session_Some _ _ _ Hs)).
      unfold getpass. now apply bind_Raise. }
    rewrite (try_except_Raise _ _ _ _ _ Hbody).
    destruct (is_KeyboardInterrupt e) eqn:He.
    + unfold except_clauses. now rewrite He.
    + now rewrite except_clauses_ordinary.
  - unfold try_except.
    rewrite (bind_Ok _ _ _ _ _ (get_session_Some _ _ _ Hs)).
    unfold getpass. now rewrite (bind_Abort _ _ _ _ _ Hcall).
Qed.

End WriteFailures.

(** X8: a write request whose [io.write] raises.  An ordinary exception is
    stored in the promise and [execute] returns; the interrupt leaves
    [execute] and the promise stays pending.  In both cases the only stream
    call made is that [write]: no flush is attempted, autoflush or not. *)
Theorem X8_write_raises :
  forall (St : Type) (IOSt : IO St) (w : World St) (s f : ref) (x : Session)
         (msg : string) (af err : bool) (st st1 : St) (e : exn),
    sessions w !! s = Some x ->
    promise w f = Some Pending ->
    streams w !! selected err x = Some st ->
    io_write msg st = (Raise e, st1) ->
    let w' := exec (execute (WriteRequest f msg af err) s) w in
    result (execute (WriteRequest f msg af err) s) w
    = (if is_KeyboardInterrupt e then Raise e else Ok tt)
    /\ promise w' f = Some (if is_KeyboardInterrupt e then Pending else Rejected e)
    /\ log w' = (log w ++ [EvWrite (selected err x) msg])%list
    /\ streams w' !! selected err x = Some st1.
Proof.
  intros St IOSt w s f x msg af err st st1 e Hs Hf Hst Hwr w'.
  pose proof (write_raises w s f x msg af err st st1 e Hs Hf Hst Hwr) as Hrun.
  cbv zeta in Hrun. unfold w', exec, result, promise. rewrite Hrun.
  destruct (is_KeyboardInterrupt e); simpl; rewrite ?lookup_insert_eq;
    repeat split; assumption.
Qed.

(** X9: a write request with autoflush whose [io.write] returns and whose
    [io.flush] raises.  The stream has taken the message, yet the promise
    does not get the count: an ordinary exception of the flush is stored in
    it, and the interrupt leaves [execute] with the promise pending. *)
Theorem X9_flush_raises_after_write :
  forall (St : Type) (IOSt : IO St) (w : World St) (s f : ref) (x : Session)
         (msg : string) (err : bool) (st st1 st2 : St) (v : value) (e : exn),
    sessions w !! s = Some x ->
    promise w f = Some Pending ->
    streams w !! selected err x = Some st ->
    io_write msg st = (Ok v, st1) ->
    io_flush st1 = (Raise e, st2) ->
    let w' := exec (execute (WriteRequest f msg true err) s) w in
    result (execute (WriteRequest f msg true err) s) w
    = (if is_KeyboardInterrupt e then Raise e else Ok tt)
    /\ promise w' f = Some (if is_KeyboardInterrupt e then Pending else Rejected e)
    /\ log w' = (log w ++ [EvWrite (selected err x) msg; EvFlush (selected err x)])%list
    /\ streams w' !! selected err x = Some st2.
Proof.
  intros St IOSt w s f x msg err st st1 st2 v e Hs Hf Hst Hwr Hfl w'.
  pose proof (flush_raises w s f x msg err st st1 st2 v e Hs Hf Hst Hwr Hfl) as Hrun.
  cbv zeta in Hrun. unfold w', exec, result, promise. rewrite Hrun.
  destruct (is_KeyboardInterrupt e); simpl; rewrite ?lookup_insert_eq, <- ?app_assoc;
    repeat split; assumption.
Qed.

(** X10: the password request makes one hidden-input call, with the
    prompt, on the session's error stream.  The promise resolves with the
    line that call returns; an ordinary exception is stored in the promise;
    the interrupt leaves [execute] with the promise pending.  The session's
    buffer is neither read nor filled: no session changes. *)
Theorem X10_password_request :
  forall (St : Type) (IOSt : IO St) (w : World St) (s f : ref) (x : Session)
         (prompt : string) (st st' : St) (o : outcome string),
    sessions w !! s = Some x ->
    promise w f = Some Pending ->
    streams w !! stderr x = Some st ->
    io_getpass prompt st = (o, st') ->
    let w' := exec (execute (PasswordRequest f prompt) s) w in
    log w' = (log w ++ [EvGetpass (stderr x) prompt])%list
    /\ sessions w' = sessions w
    /\ match o with
       | Ok pw =>
           result (execute (PasswordRequest f prompt) s) w = Ok tt
           /\ promise w' f = Some (Resolved (VStr pw))
       | Raise e =>
           result (execute (PasswordRequest f prompt) s) w
           = (if is_KeyboardInterrupt e then Raise e else Ok tt)
           /\ promise w' f = Some (if is_KeyboardInterrupt e then Pending else Rejected e)
       | Abort why =>
           result (execute (PasswordRequest f prompt) s) w = Abort why
           /\ promise w' f = Some Pending
       end.
Proof.
  intros St IOSt w s f x prompt st st' o Hs Hf Hst Hgp w'.
  pose proof (password_runs w s f x prompt st st' o Hs Hf Hst Hgp) as Hrun.
  cbv zeta in Hrun. unfold w', exec, result, promise. rewrite Hrun.
  destruct o as [pw | e | why]; [| destruct (is_KeyboardInterrupt e) |]; simpl;
    rewrite ?lookup_insert_eq; repeat split; assumption.
Qed.

(** ** Closed sessions, new subsessions, reads in a row *)

Lemma str_drop_drop (n m : nat) (a : string) :
  str_drop m (str_drop n a) = str_drop (n + m) a.
Proof.
  revert a; induction n as [|n IH]; intros a; simpl.
  - now destruct a.
  - destruct a as [|c a]; [now destruct m | apply IH].
Qed.

Lemma str_take_add (n m : nat) (a : string) :
  str_take n a +:+ str_take m (str_drop n a) = str_take (n + m) a.
Proof.
  revert a; induction n as [|n IH]; intros a; simpl.
  - now destruct a.
  - destruct a as [|c a]; [now destruct m |]. now rewrite app_cons, IH.
Qed.

Lemma str_drop_nonempty (n : nat) (a : string) :
  (n < String.length a)%nat -> isempty_str (str_drop n a) = false.
Proof.
  revert a; induction n as [|n IH]; intros [|c a]; simpl; intros Hlt;
    try lia; try reflexivity.
  apply IH. lia.
Qed.

Section Composition.

Context {St : Type} `{IO St}.

Implicit Types (w : World St) (s f : ref) (x : Session).

Lemma read_no_refill w s f x (n : Z) :
  sessions w !! s = Some x ->
  futures w !! f = Some Pending ->
  isempty_str (buffer x) = false ->
  0 <= n ->
  execute (ReadRequest f n) s w
  = (Ok tt,
     with_futures (<[f := Resolved (VStr (str_take (Z.to_nat n) (buffer x)))]> (futures w))
       (with_sessions (<[s := set_buffer (str_drop (Z.to_nat n) (buffer x)) x]> (sessions w))
          w)).
Proof.
  intros Hs Hf Hne Hn. simpl.
  rewrite (read_execute w w s f x x _ Hs Hf (refill_nonempty w s x Hs Hne) Hs).
  unfold ReadRequest__execute, slice_to, slice_from.
  now rewrite (slice_bound_nonneg _ _ Hn).
Qed.

Lemma two_reads w s (f1 f2 : ref) x (n m : Z) :
  sessions w !! s = Some x ->
  futures w !! f1 = Some Pending -> futures w !! f2 = Some Pending -> f1 <> f2 ->
  0 <= n -> 0 <= m ->
  (Z.to_nat n < String.length (buffer x))%nat ->
  exists w',
    (do _ <- execute (ReadRequest f1 n) s; execute (ReadRequest f2 m) s) w = (Ok tt, w')
    /\ futures w' !! f1 = Some (Resolved (VStr (str_take (Z.to_nat n) (buffer x))))
    /\ futures w' !! f2
       = Some (Resolved (VStr (str_take (Z.to_nat m) (str_drop (Z.to_nat n) (buffer x)))))
    /\ (buffer <$> sessions w' !! s) = Some (str_drop (Z.to_nat n + Z.to_nat m) (buffer x))
    /\ log w' = log w /\ streams w' = streams w.
Proof.
  intros Hs Hf1 Hf2 Hne Hn Hm Hlen.
  assert (Hbuf : isempty_str (buffer x) = false)
    by (destruct (buffer x); [simpl in Hlen; lia | reflexivity]).
  rewrite (bind_Ok _ _ _ _ _ (read_no_refill w s f1 x n Hs Hf1 Hbuf Hn)).
  eexists. split.
  { apply read_no_refill; simpl.
    - apply lookup_insert_eq.
    - now rewrite lookup_insert_ne by exact Hne.
    - now apply str_drop_nonempty.
    - exact Hm. }
  simpl. rewrite lookup_insert_ne by congruence.
  rewrite !lookup_insert_eq. simpl. rewrite str_drop_drop. repeat split.
Qed.

Lemma close_then_commit w s x (req : Request) :
  s <> _session w -> sessions w !! s = Some x ->
  (do _ <- Session_close s; _commit s req) w
  = (Ok (cfuture req),
     with_sessions
       (<[s := set_thread true (set_finish_event true (set_pending [req] x))]> (sessions w))
       w).
Proof.
  intros Hroot Hs.
  rewrite (bind_Ok _ _ _ _ _ (close_child w s x Hroot Hs)).
  erewrite commit_queues by apply lookup_insert_eq.
  unfold with_sessions. simpl. now rewrite insert_insert_eq.
Qed.

Lemma runner_paused w s x (c : ref) (cx : Session) (fuel : nat) :
  sessions w !! s = Some x -> subsession x = Some c ->
  sessions w !! c = Some cx -> _finish_event cx = false ->
  _runner (S fuel) s w = (Abort Blocked, w).
Proof.
  intros Hs Hsub Hc Hfin. unfold _runner. apply bind_Abort. simpl.
  rewrite (bind_Ok _ _ _ _ _ (get_session_Some _ _ _ Hs)), Hsub.
  apply bind_Abort. unfold Session_wait.
  rewrite (bind_Ok _ _ _ _ _ (get_session_Some _ _ _ Hc)). now rewrite Hfin.
Qed.

End Composition.

(** X11: two reads in a row on a buffer that the first read does not use
    up.  No stream call is made; the first promise gets the first [n]
    characters, the second the next [m] (fewer at the end of the buffer),
    so together they carry the first [n + m] characters in order, and the
    buffer keeps the rest. *)
Theorem X11_reads_in_a_row :
  forall (St : Type) (IOSt : IO St) (w : World St) (s f1 f2 : ref) (x : Session)
         (n m : Z),
    sessions w !! s = Some x ->
    promise w f1 = Some Pending ->
    promise w f2 = Some Pending ->
    f1 <> f2 ->
    0 <= n -> 0 <= m ->
    (Z.to_nat n < String.length (buffer x))%nat ->
    exists (w' : World St) (r1 r2 : string),
      (do _ <- execute (ReadRequest f1 n) s; execute (ReadRequest f2 m) s) w = (Ok tt, w')
      /\ promise w' f1 = Some (Resolved (VStr r1))
      /\ promise w' f2 = Some (Resolved (VStr r2))
      /\ r1 +:+ r2 = str_take (Z.to_nat n + Z.to_nat m) (buffer x)
      /\ buffer_of w' s = Some (str_drop (Z.to_nat n + Z.to_nat m) (buffer x))
      /\ String.length r1 = Z.to_nat n
      /\ log w' = log w.
Proof.
  intros St IOSt w s f1 f2 x n m Hs Hf1 Hf2 Hne Hn Hm Hlen.
  destruct (two_reads w s f1 f2 x n m Hs Hf1 Hf2 Hne Hn Hm Hlen)
    as (w' & Hrun & H1 & H2 & Hbuf & Hlog & _).
  exists w', (str_take (Z.to_nat n) (buffer x)),
    (str_take (Z.to_nat m) (str_drop (Z.to_nat n) (buffer x))).
  repeat split; try assumption.
  - apply str_take_add.
  - rewrite str_take_length. lia.
Qed.

(** X12: [close()] does not shut a session for new requests.  A request
    committed to a closed session is queued and a worker is installed for
    it as on an open session; the session stays closed. *)
Theorem X12_closed_session_still_queues :
  forall (St : Type) (IOSt : IO St) (w : World St) (s : ref) (x : Session)
         (req : Request),
    s <> _session w ->
    sessions w !! s = Some x ->
    exists (w' : World St) (x' : Session),
      (do _ <- Session_close s; _commit s req) w = (Ok (cfuture req), w')
      /\ sessions w' !! s = Some x'
      /\ pending x' = [req]
      /\ _thread x' = true
      /\ result (Session_isclosed s) w' = Ok true.
Proof.
  intros St IOSt w s x req Hroot Hs.
  do 2 eexists. split; [exact (close_then_commit w s x req Hroot Hs) |].
  split; [apply lookup_insert_eq |]. repeat split.
  unfold result, Session_isclosed, bind, get_session. simpl.
  now rewrite lookup_insert_eq.
Qed.

(** X13: a worker started on a session whose registered subsession is
    still open executes nothing: it waits for the child, and the store,
    the session's queue included, is as it was. *)
Theorem X13_open_subsession_pauses_the_parent :
  forall (St : Type) (IOSt : IO St) (w : World St) (s c : ref) (x cx : Session)
         (fuel : nat),
    sessions w !! s = Some x ->
    subsession x = Some c ->
    sessions w !! c = Some cx ->
    _finish_event cx = false ->
    _runner (S fuel) s w = (Abort Blocked, w).
Proof.
  intros St IOSt w s c x cx fuel Hs Hsub Hc Hfin.
  exact (runner_paused w s x c cx fuel Hs Hsub Hc Hfin).
Qed.

(** ** The caller's side does no input or output *)

Section CallerFrame.

Context {St : Type} `{IO St}.

Implicit Types (w : World St) (s f : ref) (x : Session).

Lemma same_io_refl x : same_io x x.
Proof. repeat split. Qed.

Lemma caller_frame_refl w : caller_frame w w.
Proof.
  repeat split; try reflexivity. intros s x _ Hs. exists x. split; [exact Hs |].
  apply same_io_refl.
Qed.

Lemma caller_frame_trans w1 w2 w3 :
  caller_frame w1 w2 -> caller_frame w2 w3 -> caller_frame w1 w3.
Proof.
  intros (S1 & L1 & G1 & O1 & E1 & I1 & N1 & F1 & X1)
         (S2 & L2 & G2 & O2 & E2 & I2 & N2 & F2 & X2).
  repeat split; try congruence; try lia.
  - intros f Hf. rewrite F2 by lia. now apply F1.
  - intros s x Hlt Hs. destruct (X1 s x Hlt Hs) as (x2 & Hs2 & Hio2).
    destruct (X2 s x2 ltac:(lia) Hs2) as (x3 & Hs3 & Hio3).
    exists x3. split; [exact Hs3 |].
    unfold same_io in *. intuition congruence.
Qed.

Lemma caller_update_session s (g : Session -> Session) :
  (forall x, same_io x (g x)) -> keeps (@caller_frame St) (update_session s g).
Proof.
  intros Hg w. unfold update_session.
  destruct (sessions w !! s) as [x|] eqn:Hs; simpl; [| apply caller_frame_refl].
  repeat split; try reflexivity. intros s' x' _ Hs'. simpl.
  destruct (decide (s = s')) as [<- | Hne].
  - rewrite lookup_insert_eq. exists (g x). split; [reflexivity |].
    assert (E : Some x = Some x') by exact (eq_trans (eq_sym Hs) Hs').
    injection E as <-. apply Hg.
  - rewrite lookup_insert_ne by exact Hne. exists x'. split; [exact Hs' |].
    apply same_io_refl.
Qed.

Lemma caller_new_future : keeps (@caller_frame St) new_future.
Proof.
  intros w. unfold new_future. simpl.
  repeat split; simpl; try reflexivity; try lia.
  - intros f Hf. apply lookup_insert_ne. lia.
  - intros s x _ Hs. exists x. split; [exact Hs | apply same_io_refl].
Qed.

Lemma caller_alloc_session (obj : Session) :
  keeps (@caller_frame St)
    (fun w => (Ok (next_ref w),
               with_next_ref (S (next_ref w))
                 (with_sessions (<[next_ref w := obj]> (sessions w)) w))).
Proof.
  intros w. simpl. repeat split; simpl; try reflexivity; try lia.
  intros s x Hlt Hs. exists x. split; [| apply same_io_refl].
  rewrite lookup_insert_ne by lia. exact Hs.
Qed.

Ltac caller_step :=
  first [ apply caller_new_future
        | apply (keeps_get_session _ caller_frame_refl)
        | apply (keeps_global_session _ caller_frame_refl)
        | apply (keeps_ret _ caller_frame_refl)
        | apply (keeps_raise _ caller_frame_refl)
        | apply (keeps_stop _ caller_frame_refl)
        | apply (keeps_bind _ caller_frame_trans) ].

Lemma caller_commit s (req : Request) : keeps (@caller_frame St) (_commit s req).
Proof.
  unfold _commit, pending_push.
  caller_step; [apply caller_update_session; intros x; repeat split |]. intros ?.
  caller_step; [caller_step |]. intros x.
  caller_step; [| intros ?; caller_step].
  destruct (negb (_thread x)); [| caller_step].
  apply caller_update_session. intros x'. repeat split.
Qed.

Lemma caller_read s (n : option Z) : keeps (@caller_frame St) (Session_read s n).
Proof.
  unfold Session_read. destruct (or_else n (-1) <? 0).
  - caller_step; [caller_step | intros f; apply caller_commit].
  - caller_step; [| intros req; apply caller_commit].
    unfold ReadRequest_init. caller_step; [caller_step |]. intros f.
    destruct (0 <=? or_else n (-1)); caller_step.
Qed.

Lemma caller_readline s : keeps (@caller_frame St) (Session_readline s).
Proof.
  unfold Session_readline. caller_step; [caller_step | intros f; apply caller_commit].
Qed.

Lemma caller_password s (prompt : option string) :
  keeps (@caller_frame St) (Session_password s prompt).
Proof.
  unfold Session_password. caller_step; [caller_step | intros f; apply caller_commit].
Qed.

Lemma caller_write s (data : list datum) (sep : option string) (err af : option bool) :
  keeps (@caller_frame St) (Session_write s data sep err af).
Proof.
  unfold Session_write. caller_step; [caller_step |]. intros x.
  caller_step; [caller_step | intros f; apply caller_commit].
Qed.

Lemma caller_writeline s (data : list datum) (sep : option string) (err af : option bool) :
  keeps (@caller_frame St) (Session_writeline s data sep err af).
Proof.
  unfold Session_writeline. caller_step; [caller_step |]. intros x.
  caller_step; [caller_step | intros f; apply caller_commit].
Qed.

Lemma caller_flush s (out err : option bool) :
  keeps (@caller_frame St) (Session_flush s out err).
Proof.
  unfold Session_flush. caller_step; [caller_step | intros f; apply caller_commit].
Qed.

Lemma caller_init (p : option ref) (af : option bool) (out err inp : option ref) :
  keeps (@caller_frame St) (Session_init p af out err inp).
Proof.
  unfold Session_init. caller_step.
  - destruct p as [p|].
    + caller_step; [caller_step | intros x; caller_step].
    + intros w. apply caller_frame_refl.
  - intros obj. apply caller_alloc_session.
Qed.

Lemma caller_session s (af : option bool) (out err inp : option ref) :
  keeps (@caller_frame St) (Session_session s af out err inp).
Proof.
  unfold Session_session. caller_step; [apply caller_init |]. intros sub.
  caller_step; [caller_step | intros f; apply caller_commit].
Qed.

Lemma caller_close s : keeps (@caller_frame St) (Session_close s).
Proof.
  unfold Session_close. caller_step; [caller_step |]. intros g.
  destruct (Nat.eqb s g); [caller_step |].
  caller_step; [| intros ?]; apply caller_update_session; intros x; repeat split.
Qed.

Lemma caller_enter s : keeps (@caller_frame St) (Session_enter s).
Proof.
  unfold Session_enter. caller_step; [caller_step |]. intros g.
  destruct (Nat.eqb s g); [caller_step |].
  caller_step; [caller_step |]. intros x.
  destruct (parent x) as [p|]; [| caller_step].
  caller_step; [caller_step |]. intros px.
  destruct (negb (is_subsession_of s px)); caller_step.
Qed.

End CallerFrame.

(** X14: no call on a session, and no module-level call, does input or
    output or touches a buffer, whatever it returns or raises: the stream
    objects and the log are as before, the module globals too; promises
    and sessions allocated before the call keep, respectively, their state
    and their buffer, subsession, parent, autoflush and streams.  All
    stream traffic and all buffer changes are the worker's. *)
Theorem X14_calls_do_no_io :
  forall (St : Type) (IOSt : IO St) (w : World St) (s : ref) (n : option Z)
         (prompt sep : option string) (data : list datum)
         (err af fo fe : option bool) (out er inp : option ref),
    caller_frame w (exec (Session_read s n) w)
    /\ caller_frame w (exec (Session_readline s) w)
    /\ caller_frame w (exec (Session_password s prompt) w)
    /\ caller_frame w (exec (Session_write s data sep err af) w)
    /\ caller_frame w (exec (Session_writeline s data sep err af) w)
    /\ caller_frame w (exec (Session_flush s fo fe) w)
    /\ caller_frame w (exec (Session_session s af out er inp) w)
    /\ caller_frame w (exec (Session_close s) w)
    /\ caller_frame w (exec (Session_enter s) w)
    /\ caller_frame w (exec (Session_exit s) w)
    /\ caller_frame w (exec (read n) w)
    /\ caller_frame w (exec readline w)
    /\ caller_frame w (exec (write data sep err af) w)
    /\ caller_frame w (exec (writeline data sep err af) w)
    /\ caller_frame w (exec (password prompt) w)
    /\ caller_frame w (exec (session af) w).
Proof.
  intros St IOSt w s n prompt sep data err af fo fe out er inp.
  assert (Hglobal : forall (A : Type) (k : ref -> M St A),
             (forall g, keeps (@caller_frame St) (k g)) ->
             keeps (@caller_frame St) (do g <- global_session; k g)).
  { intros A k Hk. apply (keeps_bind _ caller_frame_trans); [| exact Hk].
    apply (keeps_global_session _ caller_frame_refl). }
  split; [apply caller_read |].
  split; [apply caller_readline |].
  split; [apply caller_password |].
  split; [apply caller_write |].
  split; [apply caller_writeline |].
  split; [apply caller_flush |].
  split; [apply caller_session |].
  split; [apply caller_close |].
  split; [apply caller_enter |].
  split; [apply caller_close |].
  split; [apply (Hglobal _ (fun g => Session_read g n)); intros g; apply caller_read |].
  split; [apply (Hglobal _ (fun g => Session_readline g)); intros g;
          apply caller_readline |].
  split; [apply (Hglobal _ (fun g => Session_write g data sep err af)); intros g;
          apply caller_write |].
  split; [apply (Hglobal _ (fun g => Session_writeline g data sep err af)); intros g;
          apply caller_writeline |].
  split; [apply (Hglobal _ (fun g => Session_password g prompt)); intros g;
          apply caller_password |].
  apply (Hglobal _ (fun g => Session_session g (Some (or_else af false)) None None None)).
  intros g. apply caller_session.
Qed.

(** ** A worker that ends with an exception *)

Lemma runner_raises {St : Type} `{IO St} (w w1 : World St) (s : ref) (x : Session)
    (r : Request) (q : RequestQueue) (e : exn) (fuel : nat) :
  sessions w !! s = Some x ->
  subsession x = None ->
  pending x = r :: q ->
  execute r s (with_sessions (<[s := set_pending q x]> (sessions w)) w) = (Raise e, w1) ->
  _runner (S fuel) s w = (Raise e, w1)
  /\ exists x1, sessions w1 !! s = Some x1 /\ pending x1 = q /\ _thread x1 = _thread x.
Proof.
  intros Hs Hsub Hq Hex. split.
  - unfold _runner.
    assert (Hwait : wait_for_subsession (S fuel) s w = (Ok tt, w)).
    { simpl. rewrite (bind_Ok _ _ _ _ _ (get_session_Some _ _ _ Hs)), Hsub. reflexivity. }
    rewrite (bind_Ok _ _ _ _ _ Hwait).
    rewrite (bind_Ok _ _ _ _ _
               (pending_pop_nonblocking w s x None Hs ltac:(intros _; congruence))).
    rewrite Hq. cbn [shift fst snd].
    apply bind_Raise. cbn [runner_loop]. now apply bind_Raise.
  - pose proof (frame_execute r s
                  (with_sessions (<[s := set_pending q x]> (sessions w)) w)) as (Hk & _).
    rewrite Hex in Hk. specialize (Hk s). simpl in Hk.
    rewrite lookup_insert_eq in Hk.
    destruct (sessions w1 !! s) as [x1|]; [| contradiction].
    exists x1. split; [reflexivity |].
    destruct Hk as (_ & Hp & Ht & _). simpl in Hp, Ht. now split.
Qed.

(** X15: a worker whose first request raises out of [execute] (the
    interrupt, or an exception a request does not catch) ends with that
    exception; the rest of the queue stays queued, and the worker slot is
    not cleared.  As [_commit] installs a worker only into an empty slot,
    a session whose slot was taken stays without a running worker. *)
Theorem X15_worker_ending_with_exception :
  forall (St : Type) (IOSt : IO St) (w w1 : World St) (s : ref) (x : Session)
         (r : Request) (q : RequestQueue) (e : exn) (fuel : nat),
    sessions w !! s = Some x ->
    subsession x = None ->
    pending x = r :: q ->
    execute r s (with_sessions (<[s := set_pending q x]> (sessions w)) w) = (Raise e, w1) ->
    _runner (S fuel) s w = (Raise e, w1)
    /\ exists x1,
         sessions w1 !! s = Some x1 /\ pending x1 = q /\ _thread x1 = _thread x
         /\ forall req,
              (_thread <$> sessions (exec (_commit s req) w1) !! s) = Some true.
Proof.
  intros St IOSt w w1 s x r q e fuel Hs Hsub Hq Hex.
  destruct (runner_raises w w1 s x r q e fuel Hs Hsub Hq Hex) as (Hrun & x1 & Hs1 & Hq1 & Ht1).
  split; [exact Hrun |]. exists x1. repeat split; try assumption.
  intros req. unfold exec. rewrite (commit_queues w1 s x1 req Hs1). simpl.
  now rewrite lookup_insert_eq.
Qed.

(** ** Joining *)

Lemma concat_app (sep : string) (l1 l2 : list string) :
  l1 <> [] -> l2 <> [] ->
  String.concat sep (l1 ++ l2) = String.concat sep l1 +:+ sep +:+ String.concat sep l2.
Proof.
  intros H1 H2. induction l1 as [|a l1 IH]; [contradiction |].
  destruct l1 as [|b l1].
  - simpl. destruct l2; [contradiction | reflexivity].
  - change (String.concat sep ((a :: b :: l1) ++ l2))
      with (a +:+ sep +:+ String.concat sep ((b :: l1) ++ l2)).
    rewrite IH by discriminate.
    change (String.concat sep (a :: b :: l1))
      with (a +:+ sep +:+ String.concat sep (b :: l1)).
    now rewrite !str_app_assoc.
Qed.

(** X16: [buildmsg] on parts given in two groups is the message of the
    first group, the separator, and the message of the second group;
    without parts the message is empty, and a single part is its own
    [str] form with no separator. *)
Theorem X16_buildmsg_of_groups :
  forall (d1 d2 : list datum) (sep : string),
    d1 <> [] -> d2 <> [] ->
    buildmsg (d1 ++ d2) sep = buildmsg d1 sep +:+ sep +:+ buildmsg d2 sep
    /\ buildmsg [] sep = ""
    /\ (forall d, buildmsg [d] sep = str d).
Proof.
  intros d1 d2 sep H1 H2. unfold buildmsg. split; [| split; reflexivity].
  rewrite map_app. apply concat_app.
  - destruct d1; [contradiction | discriminate].
  - destruct d2; [contradiction | discriminate].
Qed.

(** * The further properties at concrete stores *)

(** X3 at one write committed to the root session of the unit tests: its
    worker has written it and its last [pop] has timed out when a second
    write is committed. *)
Lemma X3_worker_end_and_late_commit_witness :
  let w := exec (write [DStr "a"] None None None) (test_world "" "") in
  let x := root_with [WriteRequest 1%nat "a" true false] 0%nat 0%nat 1%nat in
  let w1 := exec (_runner_until_idle 2 0%nat) w in
  let late := WriteRequest 7%nat "late" true false in
  let w2 := exec (do _ <- _runner_until_idle 2 0%nat;
                  do _ <- _commit 0%nat late; _runner_finish 0%nat) w in
  sessions w !! 0%nat = Some x
  /\ _runner_until_idle 2 0%nat w = (Ok tt, w1)
  /\ streams w1 !! 0%nat = Some (SimStdout "a")
  /\ result (do _ <- _runner_until_idle 2 0%nat;
             do _ <- _commit 0%nat late; _runner_finish 0%nat) w = Ok tt
  /\ exists x2,
       sessions w2 !! 0%nat = Some x2 /\ pending x2 = [late] /\ _thread x2 = false.
Proof.
  intros w x w1 late w2.
  assert (Hs : sessions w !! 0%nat = Some x) by (vm_compute; reflexivity).
  assert (Hrun : _runner_until_idle 2 0%nat w = (Ok tt, w1)) by (vm_compute; reflexivity).
  destruct (X3_worker_end_and_late_commit PyStream PyStream_IO 2 0%nat w w1 x late
              Hs eq_refl Hrun)
    as (_ & x1 & Hs1 & Hq1 & Ht1 & _ & _ & Hlate).
  split; [exact Hs |]. split; [exact Hrun |].
  split; [vm_compute; reflexivity |].
  unfold w2, exec, result. rewrite Hlate. simpl.
  split; [reflexivity |].
  exists (set_thread false (set_pending [late] x1)).
  split; [apply lookup_insert_eq |]. split; reflexivity.
Defined.

(** X4 at the two writes of [test_write], committed before the worker
    starts. *)
Lemma X4_worker_writes_in_queue_order_witness :
  let w := exec (write_all 0%nat two_calls) (test_world "" "") in
  let x := root_with [WriteRequest 1%nat "test 1 2 3" true false;
                      WriteRequest 2%nat ", 123 456" true false] 0%nat 0%nat 1%nat in
  sessions w !! 0%nat = Some x
  /\ streams w !! 0%nat = Some (SimStdout "")
  /\ exists w' st',
       _runner 2 0%nat w = (Ok tt, w')
       /\ streams w' !! 0%nat = Some st'
       /\ contents st' = "test 1 2 3, 123 456".
Proof.
  intros w x.
  assert (Hs : sessions w !! 0%nat = Some x) by (vm_compute; reflexivity).
  assert (Hst : streams w !! stdout x = Some (SimStdout "")) by (vm_compute; reflexivity).
  split; [exact Hs |]. split; [exact Hst |].
  destruct (X4_worker_writes_in_queue_order 2 0%nat w x (SimStdout "") Hs eq_refl
              ltac:(discriminate) ltac:(simpl; lia) Hst I
              ltac:(repeat constructor) ltac:(compute_done)
              ltac:(repeat constructor))
    as (w' & st' & Hrun & Hst' & Hcont & _).
  exists w', st'. repeat split; assumption.
Defined.

(** X5 at a readline and a write committed to the root session. *)
Lemma X5_commit_keeps_submission_order_witness :
  let w := test_world "" "" in
  let reqs := [ReadlineRequest 5%nat; WriteRequest 6%nat "x" true false] in
  sessions w !! 0%nat = Some (mkSession None "" [] None false false true 0 0 1)%nat
  /\ exists w' x',
       commit_all 0%nat reqs w = (Ok tt, w')
       /\ sessions w' !! 0%nat = Some x'
       /\ pending x' = reqs
       /\ _thread x' = true.
Proof.
  intros w reqs.
  assert (Hs : sessions w !! 0%nat
               = Some (mkSession None "" [] None false false true 0 0 1)%nat)
    by (vm_compute; reflexivity).
  split; [exact Hs |].
  destruct (X5_commit_keeps_submission_order PyStream PyStream_IO w 0%nat _ reqs Hs)
    as (w' & x' & Hrun & Hs' & Hq & Ht & _).
  exists w', x'. repeat split; try assumption. apply Ht. discriminate.
Defined.

(** X6 at the two calls of [test_write]. *)
Lemma X6_writes_appear_in_call_order_witness :
  let w := test_world "" "" in
  let x := (mkSession None "" [] None false false true 0 0 1)%nat in
  sessions w !! 0%nat = Some x
  /\ streams w !! 0%nat = Some (SimStdout "")
  /\ exists w' st',
       (do _ <- write_all 0%nat two_calls; _runner 2 0%nat) w = (Ok tt, w')
       /\ streams w' !! 0%nat = Some st'
       /\ contents st' = "test 1 2 3, 123 456"
       /\ pending_of w' 0%nat = Some [].
Proof.
  intros w x.
  assert (Hs : sessions w !! 0%nat = Some x) by (vm_compute; reflexivity).
  assert (Hst : streams w !! stdout x = Some (SimStdout "")) by (vm_compute; reflexivity).
  split; [exact Hs |]. split; [exact Hst |].
  destruct (X6_writes_appear_in_call_order 0%nat two_calls w x (SimStdout "") Hs
              eq_refl eq_refl ltac:(discriminate) Hst I)
    as (w' & st' & Hrun & Hst' & Hcont & Hq & _).
  exists w', st'. repeat split; assumption.
Defined.

(** X7 at the subsession the top-level [session()] opens on the root. *)
Lemma X7_subsession_request_witness :
  let w := exec (session None) (test_world "" "") in
  let x := root_with [SessionRequest 2%nat 1%nat] 0%nat 0%nat 1%nat in
  let c := (mkSession (Some 0) "" [] None false false false 0 0 1)%nat in
  let w' := exec (execute (SessionRequest 2%nat 1%nat) 0%nat) w in
  sessions w !! 0%nat = Some x
  /\ sessions w !! 1%nat = Some c
  /\ promise w 2%nat = Some Pending
  /\ promise w' 2%nat = Some (Resolved (VSession 1%nat))
  /\ result (execute (SessionRequest 2%nat 1%nat) 0%nat) w = Abort Blocked
  /\ Session_enter 1%nat w' = (Ok 1%nat, w').
Proof.
  intros w x c w'.
  assert (Hs : sessions w !! 0%nat = Some x) by (vm_compute; reflexivity).
  assert (Hc : sessions w !! 1%nat = Some c) by (vm_compute; reflexivity).
  assert (Hf : promise w 2%nat = Some Pending) by (vm_compute; reflexivity).
  repeat (split; [assumption |]).
  destruct (X7_subsession_request PyStream PyStream_IO w 0%nat 1%nat 2%nat x c
              Hs Hc eq_refl ltac:(vm_compute; discriminate) ltac:(discriminate) Hf)
    as (Hres & Hopen & _).
  destruct (Hopen eq_refl) as (Hblocked & _ & Henter & _).
  repeat split; assumption.
Defined.

(** X8 at a write to a closed output file. *)
Lemma X8_write_raises_witness :
  let w := exec (write [DStr "x"] None None None)
             (text_world closed_stream open_file open_file) in
  let x := root_with [WriteRequest 1%nat "x" true false] 0%nat 1%nat 2%nat in
  let w' := exec (execute (WriteRequest 1%nat "x" true false) 0%nat) w in
  sessions w !! 0%nat = Some x
  /\ promise w 1%nat = Some Pending
  /\ streams w !! 0%nat = Some closed_stream
  /\ io_write "x" closed_stream
     = (Raise (ValueError "I/O operation on closed file."), closed_stream)
  /\ result (execute (WriteRequest 1%nat "x" true false) 0%nat) w = Ok tt
  /\ promise w' 1%nat = Some (Rejected (ValueError "I/O operation on closed file."))
  /\ log w' = [EvWrite 0%nat "x"].
Proof.
  intros w x w'.
  assert (Hs : sessions w !! 0%nat = Some x) by (vm_compute; reflexivity).
  assert (Hf : promise w 1%nat = Some Pending) by (vm_compute; reflexivity).
  assert (Hst : streams w !! selected false x = Some closed_stream) by (vm_compute; reflexivity).
  assert (Hwr : io_write "x" closed_stream
                = (Raise (ValueError "I/O operation on closed file."), closed_stream))
    by (vm_compute; reflexivity).
  repeat (split; [assumption |]).
  destruct (X8_write_raises PyStream PyStream_IO w 0%nat 1%nat x "x" true false
              closed_stream closed_stream _ Hs Hf Hst Hwr)
    as (Hres & Hprom & Hlog & _).
  repeat split; assumption.
Defined.

(** X9 at a write with autoflush to a broken pipe. *)
Lemma X9_flush_raises_after_write_witness :
  let w := exec (write [DStr "x"] None None None) (console_world broken_pipe) in
  let x := root_with [WriteRequest 1%nat "x" true false] 0%nat 0%nat 0%nat in
  let st1 := MkConsole (Some (OSError "Broken pipe")) [] "x" "" in
  let w' := exec (execute (WriteRequest 1%nat "x" true false) 0%nat) w in
  sessions w !! 0%nat = Some x
  /\ promise w 1%nat = Some Pending
  /\ streams w !! 0%nat = Some broken_pipe
  /\ io_write "x" broken_pipe = (Ok (VInt 1), st1)
  /\ io_flush st1 = (Raise (OSError "Broken pipe"), st1)
  /\ result (execute (WriteRequest 1%nat "x" true false) 0%nat) w = Ok tt
  /\ promise w' 1%nat = Some (Rejected (OSError "Broken pipe"))
  /\ streams w' !! 0%nat = Some st1.
Proof.
  intros w x st1 w'.
  assert (Hs : sessions w !! 0%nat = Some x) by (vm_compute; reflexivity).
  assert (Hf : promise w 1%nat = Some Pending) by (vm_compute; reflexivity).
  assert (Hst : streams w !! selected false x = Some broken_pipe) by (vm_compute; reflexivity).
  assert (Hwr : io_write "x" broken_pipe = (Ok (VInt 1), st1)) by (vm_compute; reflexivity).
  assert (Hfl : io_flush st1 = (Raise (OSError "Broken pipe"), st1)) by (vm_compute; reflexivity).
  repeat (split; [assumption |]).
  destruct (X9_flush_raises_after_write Console Console_IO w 0%nat 1%nat x "x" false
              broken_pipe st1 st1 (VInt 1) _ Hs Hf Hst Hwr Hfl)
    as (Hres & Hprom & _ & Hstr).
  repeat split; assumption.
Defined.

(** X10 at [password()] on a console where a line has been typed. *)
Lemma X10_password_request_witness :
  let c := MkConsole None ["secret"] "" "" in
  let w := exec (password None) (console_world c) in
  let x := root_with [PasswordRequest 1%nat "Enter password: "] 0%nat 0%nat 0%nat in
  let w' := exec (execute (PasswordRequest 1%nat "Enter password: ") 0%nat) w in
  sessions w !! 0%nat = Some x
  /\ promise w 1%nat = Some Pending
  /\ streams w !! 0%nat = Some c
  /\ io_getpass "Enter password: " c
     = (Ok "secret", MkConsole None [] "" "Enter password: ")
  /\ promise w' 1%nat = Some (Resolved (VStr "secret"))
  /\ buffer_of w' 0%nat = Some "".
Proof.
  intros c w x w'.
  assert (Hs : sessions w !! 0%nat = Some x) by (vm_compute; reflexivity).
  assert (Hf : promise w 1%nat = Some Pending) by (vm_compute; reflexivity).
  assert (Hst : streams w !! stderr x = Some c) by (vm_compute; reflexivity).
  assert (Hgp : io_getpass "Enter password: " c
                = (Ok "secret", MkConsole None [] "" "Enter password: "))
    by (vm_compute; reflexivity).
  repeat (split; [assumption |]).
  destruct (X10_password_request Console Console_IO w 0%nat 1%nat x "Enter password: "
              c _ _ Hs Hf Hst Hgp)
    as (_ & Hsess & _ & Hprom).
  split; [exact Hprom |].
  exact (eq_trans (f_equal (fun m : gmap ref Session => buffer <$> m !! 0%nat) Hsess)
           (f_equal (fmap buffer) Hs)).
Defined.

(** X11 at the buffer ["est"] of the root session, with [read(1)] and
    [read(2)] committed. *)
Lemma X11_reads_in_a_row_witness :
  let w := exec reads_committed (test_world "" "test") in
  let x := (mkSession None "est" [ReadRequest 2 1; ReadRequest 3 2] None
              true false true 0 0 1)%nat in
  sessions w !! 0%nat = Some x
  /\ promise w 2%nat = Some Pending
  /\ promise w 3%nat = Some Pending
  /\ exists w',
       (do _ <- execute (ReadRequest 2%nat 1) 0%nat; execute (ReadRequest 3%nat 2) 0%nat) w
       = (Ok tt, w')
       /\ promise w' 2%nat = Some (Resolved (VStr "e"))
       /\ promise w' 3%nat = Some (Resolved (VStr "st"))
       /\ buffer_of w' 0%nat = Some "".
Proof.
  intros w x.
  assert (Hs : sessions w !! 0%nat = Some x) by (vm_compute; reflexivity).
  assert (Hf1 : promise w 2%nat = Some Pending) by (vm_compute; reflexivity).
  assert (Hf2 : promise w 3%nat = Some Pending) by (vm_compute; reflexivity).
  repeat (split; [assumption |]).
  destruct (X11_reads_in_a_row PyStream PyStream_IO w 0%nat 2%nat 3%nat x 1 2
              Hs Hf1 Hf2 ltac:(discriminate) ltac:(lia) ltac:(lia) ltac:(simpl; lia))
    as (w' & r1 & r2 & Hrun & H1 & H2 & Hcat & Hbuf & Hlen & _).
  destruct r1 as [|c1 [|c2 r1]]; vm_compute in Hlen; try discriminate Hlen.
  vm_compute in Hcat. injection Hcat as -> ->.
  exists w'. repeat split; assumption.
Defined.

(** X12 at the open subsession of the root: it is closed, then written
    to. *)
Lemma X12_closed_session_still_queues_witness :
  let w := exec open_subsession (test_world "" "") in
  let req := WriteRequest 9%nat "x" false false in
  1%nat <> _session w
  /\ sessions w !! 1%nat = Some (mkSession (Some 0) "" [] None false false false 0 0 1)%nat
  /\ exists w' x',
       (do _ <- Session_close 1%nat; _commit 1%nat req) w = (Ok 9%nat, w')
       /\ sessions w' !! 1%nat = Some x'
       /\ pending x' = [req]
       /\ result (Session_isclosed 1%nat) w' = Ok true.
Proof.
  intros w req.
  assert (Hroot : 1%nat <> _session w) by (vm_compute; discriminate).
  assert (Hs : sessions w !! 1%nat
               = Some (mkSession (Some 0) "" [] None false false false 0 0 1)%nat)
    by (vm_compute; reflexivity).
  repeat (split; [assumption |]).
  destruct (X12_closed_session_still_queues PyStream PyStream_IO w 1%nat _ req Hroot Hs)
    as (w' & x' & Hrun & Hs' & Hq & _ & Hclosed).
  exists w', x'. repeat split; assumption.
Defined.

(** X13 at the root session while its subsession is open. *)
Lemma X13_open_subsession_pauses_the_parent_witness :
  let w := exec open_subsession (test_world "" "") in
  sessions w !! 0%nat = Some (mkSession None "" [] (Some 1) true false true 0 0 1)%nat
  /\ sessions w !! 1%nat = Some (mkSession (Some 0) "" [] None false false false 0 0 1)%nat
  /\ _runner 1 0%nat w = (Abort Blocked, w).
Proof.
  intros w.
  assert (Hs : sessions w !! 0%nat
               = Some (mkSession None "" [] (Some 1) true false true 0 0 1)%nat)
    by (vm_compute; reflexivity).
  assert (Hc : sessions w !! 1%nat
               = Some (mkSession (Some 0) "" [] None false false false 0 0 1)%nat)
    by (vm_compute; reflexivity).
  repeat (split; [assumption |]).
  exact (X13_open_subsession_pauses_the_parent PyStream PyStream_IO w 0%nat 1%nat
           (mkSession None "" [] (Some 1) true false true 0 0 1)%nat
           (mkSession (Some 0) "" [] None false false false 0 0 1)%nat
           0%nat Hs eq_refl Hc eq_refl).
Defined.

(** X15 at a read whose input stream is a closed file, with a write queued
    behind it. *)
Lemma X15_worker_ending_with_exception_witness :
  let w := exec read_and_write_committed (text_world open_file open_file closed_stream) in
  let q := [WriteRequest 2%nat "after" true false] in
  let x := root_with (ReadRequest 1%nat 2 :: q) 0%nat 1%nat 2%nat in
  let w0 := with_sessions (<[0%nat := set_pending q x]> (sessions w)) w in
  let w1 := exec (execute (ReadRequest 1%nat 2) 0%nat) w0 in
  sessions w !! 0%nat = Some x
  /\ execute (ReadRequest 1%nat 2) 0%nat w0
     = (Raise (ValueError "I/O operation on closed file."), w1)
  /\ _runner 1 0%nat w = (Raise (ValueError "I/O operation on closed file."), w1)
  /\ exists x1, sessions w1 !! 0%nat = Some x1 /\ pending x1 = q /\ _thread x1 = true.
Proof.
  intros w q x w0 w1.
  assert (Hs : sessions w !! 0%nat = Some x) by (vm_compute; reflexivity).
  assert (Hex : execute (ReadRequest 1%nat 2) 0%nat w0
                = (Raise (ValueError "I/O operation on closed file."), w1))
    by (vm_compute; reflexivity).
  split; [exact Hs |]. split; [exact Hex |].
  destruct (X15_worker_ending_with_exception PyStream PyStream_IO w w1 0%nat x
              (ReadRequest 1%nat 2) q _ 0%nat Hs eq_refl eq_refl Hex)
    as (Hrun & x1 & Hs1 & Hq1 & Ht1 & _).
  split; [exact Hrun |]. exists x1. repeat split; assumption.
Defined.

(** X16 at the parts of scenario A, two and two. *)
Lemma X16_buildmsg_of_groups_witness :
  [DStr "test"; DInt 1] <> [] /\ [DInt 2; DInt 3] <> []
  /\ buildmsg ([DStr "test"; DInt 1] ++ [DInt 2; DInt 3])%list " "
     = buildmsg [DStr "test"; DInt 1] " " +:+ " " +:+ buildmsg [DInt 2; DInt 3] " ".
Proof.
  assert (H1 : [DStr "test"; DInt 1] <> []) by discriminate.
  assert (H2 : [DInt 2; DInt 3] <> []) by discriminate.
  repeat (split; [assumption |]).
  exact (proj1 (X16_buildmsg_of_groups _ _ " " H1 H2)).
Defined.
